(** * AICryptoSense: the news aggregation and enrichment pipeline

    A shallow embedding of [src/services/api.ts] (cache layer, provider
    adapters, aggregator, sentiment classifier, market snapshot, price
    history) and of the enrichment and feed reconciliation code of
    [src/App.tsx], together with the properties the specification
    states about them; then of the list of the feed component
    ([NewsFeed.tsx], [useNewsSearch.ts]) and of two figures of the
    analysis page ([Analysis.tsx]), with further properties of the code.

    Conventions of the embedding:
    - [Date.now()] is the [clock] field of the module state (epoch
      milliseconds, [Z]); awaiting something advances it by a duration
      given by the environment ([N], so time never runs backwards);
    - the module-level [let] variables of api.ts are the fields of
      [api_state]; an [async] function is a state transformer that also
      returns a [completion]: the promise resolves ([Normal]) or
      rejects ([Throw]);
    - everything the program reads from the outside (HTTP responses,
      latencies, [Math.random()] draws) is an explicit argument;
    - calls are run one at a time: no other call touches the module
      state while one is suspended at an [await];
    - [published_on] is a whole number of epoch seconds, or no number
      at all: [None] stands for the [NaN] of a date that does not parse
      and for the [undefined] of a missing field, which every use made
      of the field here treats alike;
    - the numeric payloads that are genuinely fractional (random draws,
      prices) are rationals [Q]: the arithmetic is exact where the
      program's doubles round to nearest, so what is stated about them
      is kept to what rounding preserves (closed bounds with ends that
      are doubles, or bounds with a margin). *)

From Equations Require Import Equations.
From Stdlib Require Import ZArith QArith Qround Qminmax Lqa String Ascii List Lia Permutation Sorted.
From stdpp Require Import base option list gmap strings sorting.

Local Open Scope string_scope.
Local Open Scope list_scope.
Local Open Scope Z_scope.

(** ** JavaScript strings (ASCII part) *)

Module JsString.

Definition is_lower (c : ascii) : bool :=
  ((97 <=? N_of_ascii c) && (N_of_ascii c <=? 122))%N.

(** [String.prototype.toUpperCase] on one code unit. *)
Definition upper_char (c : ascii) : ascii :=
  if is_lower c then ascii_of_N (N_of_ascii c - 32) else c.

Fixpoint map_chars (f : ascii -> ascii) (s : string) : string :=
  match s with
  | EmptyString => EmptyString
  | String c s' => String (f c) (map_chars f s')
  end.

Definition toUpperCase (s : string) : string := map_chars upper_char s.

(** White space as [trim] sees it: tab, line feed, vertical tab, form
    feed, carriage return and space. *)
Definition is_space (c : ascii) : bool :=
  let n := N_of_ascii c in
  ((n =? 9) || (n =? 10) || (n =? 11) || (n =? 12) || (n =? 13) || (n =? 32))%N.

Fixpoint trimStart (s : string) : string :=
  match s with
  | EmptyString => EmptyString
  | String c s' => if is_space c then trimStart s' else s
  end.

(** Drops the trailing white space: a character is kept when it is not
    a space or when something is kept after it. *)
Fixpoint trimEnd (s : string) : string :=
  match s with
  | EmptyString => EmptyString
  | String c s' =>
      match trimEnd s' with
      | EmptyString => if is_space c then EmptyString else String c EmptyString
      | rest => String c rest
      end
  end.

Definition trim (s : string) : string := trimEnd (trimStart s).

Fixpoint startsWith (p s : string) : bool :=
  match p, s with
  | EmptyString, _ => true
  | String a p', String b s' => if Ascii.eqb a b then startsWith p' s' else false
  | String _ _, EmptyString => false
  end.

(** [String.prototype.includes]: [needle] occurs somewhere in [hay]. *)
Fixpoint includes (hay needle : string) : bool :=
  startsWith needle hay ||
  match hay with
  | EmptyString => false
  | String _ hay' => includes hay' needle
  end.

(** A regular expression [/k1|k2|...|kn/i] of literal alternatives,
    as [RegExp.prototype.test] runs it: the pattern has no anchor, so
    it matches when some alternative occurs anywhere in the input;
    with the [i] flag both sides are canonicalised with
    [toUpperCase], code unit by code unit. *)
Definition test_alternatives_i (alts : list string) (s : string) : bool :=
  existsb (fun k => includes (toUpperCase s) (toUpperCase k)) alts.

End JsString.

(** ** JavaScript values used as identifiers *)

Inductive js_value : Type :=
| JsUndefined
| JsNull
| JsBool (b : bool)
| JsNum (n : Z)
| JsStr (s : string).

#[global] Instance js_value_eq_dec : EqDecision js_value.
Proof. solve_decision. Defined.

(** ToBoolean, as [||] and [!] apply it. *)
Definition truthy (v : js_value) : bool :=
  match v with
  | JsUndefined | JsNull => false
  | JsBool b => b
  | JsNum n => negb (n =? 0)
  | JsStr s => negb (String.eqb s "")
  end.

(** [a === b] on the values above. *)
Definition strict_eq (a b : js_value) : bool := bool_decide (a = b).

(** An exception value: the [name] and the [message] of an [Error]. *)
Record js_error : Type := mkError { err_name : string; err_message : string }.

Definition Error (msg : string) : js_error := mkError "Error" msg.
Definition TypeError (msg : string) : js_error := mkError "TypeError" msg.
Definition AbortError : js_error := mkError "AbortError" "The operation was aborted".

(** How a computation ends: normally with a value, or by throwing. For
    an [async] function: the promise is fulfilled, or rejected. *)
Inductive completion (A : Type) : Type :=
| Normal (a : A)
| Throw (e : js_error).
Arguments Normal {A} a.
Arguments Throw {A} e.

Definition is_rejected {A} (c : completion A) : bool :=
  match c with Normal _ => false | Throw _ => true end.

(** ** The data model: [NewsItem] (src/types) *)

Inductive impact_level : Type := High | Medium | Low.

Record NewsItem : Type := mkNewsItem {
  id : js_value;
  title : string;
  url : string;
  source : string;
  published_on : option Z;         (* [None]: not a number *)
  imageurl : string;
  body : option string;            (* [None]: the provider sent no body *)
  sentiment : option string;
  reliability : option Z;
  impact : option impact_level;
  votes : option (Z * Z)
}.

(** ** Numbers that may be [NaN] *)

(** [x - y]: [NaN] as soon as a side is not a number. *)
Definition js_sub (x y : option Z) : option Z :=
  match x, y with
  | Some a, Some b => Some (a - b)
  | _, _ => None
  end.

(** [-x] *)
Definition js_neg (x : option Z) : option Z := Z.opp <$> x.

(** [x <= y] and [x < y]: false as soon as a side is not a number. *)
Definition js_le (x y : option Z) : Prop :=
  match x, y with
  | Some a, Some b => a <= b
  | _, _ => False
  end.

Definition js_lt (x y : option Z) : Prop :=
  match x, y with
  | Some a, Some b => a < b
  | _, _ => False
  end.

#[global] Instance js_le_dec x y : Decision (js_le x y).
Proof. destruct x, y; simpl; apply _. Defined.

#[global] Instance js_lt_dec x y : Decision (js_lt x y).
Proof. destruct x, y; simpl; apply _. Defined.

(** ** [Array.prototype.sort] with a comparator

    A comparator returns a number, [None] standing for [NaN], and the
    sort takes a [NaN] for [+0] ([SortCompare]).  The sort of
    ECMAScript 2019 is stable, and where the comparator of this program
    returns no [NaN] its result is the one stable ordering, whatever
    the engine's algorithm ([stable_sort_unique] below).  [sort_by]
    builds that ordering by stable insertion: [x] goes before the first
    [y] with [SortCompare x y <= 0].  On a list that makes the
    comparator return [NaN] the comparator is not consistent and the
    order is the engine's choice: what is proved of such a list either
    holds of every arrangement of its items or is said of the
    arrangement this insertion gives. *)

Section Sort.
Context {A : Type} (comparefn : A -> A -> option Z).

Definition SortCompare (x y : A) : Z := default 0 (comparefn x y).

Fixpoint insert_by (x : A) (l : list A) : list A :=
  match l with
  | [] => [x]
  | y :: l' => if SortCompare x y <=? 0 then x :: y :: l' else y :: insert_by x l'
  end.

Fixpoint sort_by (l : list A) : list A :=
  match l with
  | [] => []
  | x :: l' => insert_by x (sort_by l')
  end.
End Sort.

(** [(a, b) => b.published_on - a.published_on] *)
Definition newest_first (a b : NewsItem) : option Z :=
  js_sub (published_on b) (published_on a).

(** Non-increasing in [published_on]: [b.published_on <= a.published_on]. *)
Definition newer_or_equal (a b : NewsItem) : Prop :=
  js_le (published_on b) (published_on a).

Definition sorted_desc (l : list NewsItem) : Prop := StronglySorted newer_or_equal l.

(** ** Exceptions: the [completion] monad *)

#[global] Instance completion_ret : MRet completion := @Normal.
#[global] Instance completion_bind : MBind completion := fun A B f c =>
  match c with
  | Normal a => f a
  | Throw e => Throw e
  end.
#[global] Instance completion_fmap : FMap completion := fun A B f c =>
  match c with
  | Normal a => Normal (f a)
  | Throw e => Throw e
  end.

(** [try { body } catch (error) { handler }] *)
Definition try_catch {A} (body : completion A) (handler : js_error -> completion A)
  : completion A :=
  match body with
  | Normal a => Normal a
  | Throw e => handler e
  end.

(** ** Module state of api.ts *)

Record cache_entry (T : Type) : Type := mkEntry { data : T; timestamp : Z }.
Arguments mkEntry {T} data timestamp.
Arguments data {T} c.
Arguments timestamp {T} c.

Record MarketData : Type := mkMarketData {
  price : Q;
  volume24h : Q;
  marketCap : Q;
  dominance : Q;
  change24h : Q
}.

Definition NEWS_CACHE_DURATION : Z := 60000.
Definition SENTIMENT_CACHE_DURATION : Z := 300000.
Definition MARKET_DATA_CACHE_DURATION : Z := 30000.

Module RATE_LIMIT.
Definition maxRetries : nat := 3.
Definition baseDelay : Z := 1000.
Definition maxRequests : Z := 10.
Definition timeWindow : Z := 60000.
End RATE_LIMIT.

Inductive endpoint : Type :=
| CryptoCompareNews
| CryptoPanicNews
| OpenAI
| CoinGeckoPrice.

(** What the outside world observes of a run. *)
Inductive event : Type :=
| EvFetch (target : endpoint)       (* [fetch(url)] was issued *)
| EvSettled (target : endpoint)     (* that request ran to its end *)
| EvCancelled (target : endpoint)   (* that request was aborted through its signal *)
| EvAbort                           (* a timer ran [controller.abort()] *)
| EvDelay (ms : Z).                 (* [await delay(ms)] *)

#[global] Instance endpoint_eq_dec : EqDecision endpoint.
Proof. solve_decision. Defined.
#[global] Instance event_eq_dec : EqDecision event.
Proof. solve_decision. Defined.

Record api_state : Type := mkState {
  clock : Z;                                          (* [Date.now()] *)
  newsCache : option (cache_entry (list NewsItem));
  sentimentCache : gmap string (cache_entry string);
  marketDataCache : option (cache_entry MarketData);
  requestCount : Z;
  lastRequestTime : Z;
  trace : list event                                  (* oldest first *)
}.

(** The module as loaded at time [t0]. *)
Definition initial_state (t0 : Z) : api_state :=
  mkState t0 None ∅ None 0 t0 [].

Definition set_clock (t : Z) (s : api_state) : api_state :=
  mkState t (newsCache s) (sentimentCache s) (marketDataCache s)
          (requestCount s) (lastRequestTime s) (trace s).
Definition set_newsCache (c : option (cache_entry (list NewsItem))) (s : api_state) :=
  mkState (clock s) c (sentimentCache s) (marketDataCache s)
          (requestCount s) (lastRequestTime s) (trace s).
Definition set_sentimentCache (c : gmap string (cache_entry string)) (s : api_state) :=
  mkState (clock s) (newsCache s) c (marketDataCache s)
          (requestCount s) (lastRequestTime s) (trace s).
Definition set_marketDataCache (c : option (cache_entry MarketData)) (s : api_state) :=
  mkState (clock s) (newsCache s) (sentimentCache s) c
          (requestCount s) (lastRequestTime s) (trace s).
Definition set_requestCount (n : Z) (s : api_state) :=
  mkState (clock s) (newsCache s) (sentimentCache s) (marketDataCache s)
          n (lastRequestTime s) (trace s).
Definition set_lastRequestTime (t : Z) (s : api_state) :=
  mkState (clock s) (newsCache s) (sentimentCache s) (marketDataCache s)
          (requestCount s) t (trace s).
Definition add_event (ev : event) (s : api_state) :=
  mkState (clock s) (newsCache s) (sentimentCache s) (marketDataCache s)
          (requestCount s) (lastRequestTime s) (trace s ++ [ev]).

(** ** Asynchronous code: state passing with exceptions *)

Definition Async (A : Type) : Type := api_state -> completion A * api_state.

#[global] Instance async_ret : MRet Async := fun A a s => (Normal a, s).
#[global] Instance async_bind : MBind Async := fun A B f m s =>
  match m s with
  | (Normal a, s') => f a s'
  | (Throw e, s') => (Throw e, s')
  end.

Definition throw {A} (e : js_error) : Async A := fun s => (Throw e, s).

(** A synchronous computation run inside an [async] function. *)
Definition lift {A} (c : completion A) : Async A := fun s => (c, s).

Definition read {A} (field : api_state -> A) : Async A := fun s => (Normal (field s), s).
Definition modify (f : api_state -> api_state) : Async unit := fun s => (Normal tt, f s).

Definition date_now : Async Z := read clock.
Definition emit (ev : event) : Async unit := modify (add_event ev).

(** Time passing while the function is suspended at an [await]. *)
Definition elapse (d : N) : Async unit := modify (fun s => set_clock (clock s + Z.of_N d) s).

(** [try { body } catch (error) { handler }] for asynchronous code: the
    handler runs in the state the body left behind. *)
Definition async_try_catch {A} (body : Async A) (handler : js_error -> Async A) : Async A :=
  fun s =>
    match body s with
    | (Normal a, s') => (Normal a, s')
    | (Throw e, s') => handler e s'
    end.

(** [try { body } finally { cleanup }]; the cleanup neither throws nor
    returns in this program, so the body's completion is kept. *)
Definition async_try_finally {A} (body : Async A) (cleanup : Async unit) : Async A :=
  fun s =>
    match body s with
    | (c, s') => (c, snd (cleanup s'))
    end.

(** [async function delay(ms)]: resolves after [ms] milliseconds. *)
Definition delay (ms : Z) : Async unit :=
  _ ← emit (EvDelay ms); elapse (Z.to_N ms).

(** [setTimeout(() => controller.abort(), timeout)] around an awaited
    operation that takes [elapsed] ms: the callback has run when the
    operation resumes iff the timer was due by then. *)
Definition timer_fired (timeout : Z) (elapsed : N) : bool := timeout <=? Z.of_N elapsed.

(** ** HTTP as the program sees it *)

Record response (P : Type) : Type := mkResponse {
  status : Z;
  json : completion P          (* [await response.json()] *)
}.
Arguments mkResponse {P} status json.
Arguments status {P} r.
Arguments json {P} r.

(** [response.ok]: the status is in the range 200-299. *)
Definition ok {P} (r : response P) : bool := (200 <=? status r) && (status r <=? 299).

(** [await fetch(url)]: a response, or a rejection (network error). *)
Definition fetched (P : Type) : Type := completion (response P).

(** [validateResponse(response, apiName)] throws an [Error] whose
    message starts with the API's name when the response is not ok (the
    rest of the message is read from the body and not modelled). *)
Definition validateResponse {P} (r : response P) (apiName : string) : completion unit :=
  if ok r then Normal tt else Throw (Error (apiName ++ " API error")%string).

(** ** Rate limiter *)

Definition checkRateLimit : Async unit :=
  now ← date_now;
  last ← read lastRequestTime;
  _ ← (if RATE_LIMIT.timeWindow <? now - last
       then _ ← modify (set_requestCount 0); modify (set_lastRequestTime now)
       else mret tt);
  count ← read requestCount;
  last ← read lastRequestTime;
  _ ← (if RATE_LIMIT.maxRequests <=? count
       then
         let waitTime := RATE_LIMIT.timeWindow - (now - last) in
         if 0 <? waitTime
         then _ ← delay waitTime;
              _ ← modify (set_requestCount 0);
              now' ← date_now;
              modify (set_lastRequestTime now')
         else mret tt
       else mret tt);
  count ← read requestCount;
  modify (set_requestCount (count + 1)).

(** ** Provider adapters *)

(** A JSON body with an array field ([Data], [results]) as the adapters
    inspect it. *)
Inductive news_payload (raw : Type) : Type :=
| NoArray                              (* no body, field missing, falsy or not an array *)
| Items (entries : list (option raw)). (* the array; [None] is a [null] entry *)
Arguments NoArray {raw}.
Arguments Items {raw} entries.

(** An entry of CryptoCompare's [Data]. *)
Record cc_raw : Type := mkCcRaw {
  cc_id : js_value;
  cc_title : string;
  cc_url : string;
  cc_source : string;
  cc_published_on : option Z;          (* [None]: missing, or not a number *)
  cc_imageurl : string;
  cc_body : option string
}.

(** An entry of CryptoPanic's [results]. *)
Record cp_raw : Type := mkCpRaw {
  cp_id : js_value;
  cp_title : string;
  cp_url : string;
  cp_source_title : option string;     (* [None]: the entry has no [source] object *)
  cp_published_at : option Z;          (* [new Date(item.published_at).getTime()];
                                          [None]: [NaN], the date is missing or does not parse *)
  cp_image_url : option string;        (* [item.metadata?.image?.url] *)
  cp_description : option string;      (* [item.metadata?.description] *)
  cp_votes : option (Z * Z);
  cp_sentiment : option string
}.

(** [s || ''] on an optional string. *)
Definition or_empty (s : option string) : string := default "" s.

Definition normalizeCryptoCompare (entry : option cc_raw) : completion NewsItem :=
  match entry with
  | None => Throw (TypeError "Cannot read properties of null")
  | Some item =>
      Normal {| id := cc_id item;
                title := cc_title item;
                url := cc_url item;
                source := "CryptoCompare - " ++ cc_source item;
                published_on := cc_published_on item;
                imageurl := cc_imageurl item;
                body := cc_body item;
                sentiment := None; reliability := None; impact := None; votes := None |}
  end.

(** [fresh] is the string [String(Date.now() + Math.random())] would
    give at this entry. *)
Definition normalizeCryptoPanic (fresh : string) (entry : option cp_raw)
  : completion NewsItem :=
  match entry with
  | None => Throw (TypeError "Cannot read properties of null")
  | Some item =>
      match cp_source_title item with
      | None => Throw (TypeError "Cannot read properties of undefined")
      | Some source_title =>
          Normal {| id := if truthy (cp_id item) then cp_id item else JsStr fresh;
                    title := cp_title item;
                    url := cp_url item;
                    source := "CryptoPanic - " ++ source_title;
                    published_on := (fun ms => ms `div` 1000) <$> cp_published_at item;
                    imageurl := or_empty (cp_image_url item);
                    body := Some (or_empty (cp_description item));
                    sentiment := cp_sentiment item;
                    reliability := None; impact := None;
                    votes := cp_votes item |}
      end
  end.

(** [async function fetchCryptoCompareNews()], given what its [fetch]
    answers. *)
Definition fetchCryptoCompareNews (upstream : fetched (news_payload cc_raw))
  : completion (list NewsItem) :=
  try_catch
    (response ← upstream;
     _ ← validateResponse response "CryptoCompare";
     data ← json response;
     match data with
     | NoArray => Normal []
     | Items entries => mapM normalizeCryptoCompare entries
     end)
    (fun error => Normal []).

(** [async function fetchCryptoPanicNews()]; [fresh i] is the
    identifier synthesised for the entry at index [i]. *)
Definition fetchCryptoPanicNews (upstream : fetched (news_payload cp_raw))
    (fresh : nat -> string) : completion (list NewsItem) :=
  try_catch
    (response ← upstream;
     _ ← validateResponse response "CryptoPanic";
     data ← json response;
     match data with
     | NoArray => Normal []
     | Items entries =>
         mapM (fun '(i, entry) => normalizeCryptoPanic (fresh i) entry)
              (zip (seq 0 (length entries)) entries)
     end)
    (fun error => Normal []).

(** ** Aggregator *)

(** [{ Data: any[] }] *)
Record news_response : Type := mkNews { Data : list NewsItem }.

(** The one statement of the [try] block of [fetchCryptoNews] that
    can throw is its first, [new AbortController()], in a runtime that
    has no such constructor: a [ReferenceError] when the name is not
    defined, a [TypeError] when it is bound to something that is no
    constructor.  Nothing else does: both adapters catch whatever
    happens in them, the controller's signal is given to no request,
    and spreading and sorting two arrays of objects throws nothing. *)
Inductive runtime_fault : Type := NotDefined | NotAConstructor.

Definition fault_error (f : runtime_fault) : js_error :=
  match f with
  | NotDefined => mkError "ReferenceError" "AbortController is not defined"
  | NotAConstructor => TypeError "AbortController is not a constructor"
  end.

(** What the outside world does during one pass through the [try]
    block of [fetchCryptoNews]: whether the runtime has the
    constructor ([fault], [None] when it has), and what the providers
    answer and when. *)
Record attempt : Type := mkAttempt {
  fault : option runtime_fault;
  cc_upstream : fetched (news_payload cc_raw);
  cc_latency : N;
  cp_upstream : fetched (news_payload cp_raw);
  cp_latency : N;
  cp_fresh : nat -> string
}.

(** What happens while [Promise.all] is awaited: the two requests
    run to their end and, when it is due before the later of them, the
    timer runs [controller.abort()].  The events come in the order of
    their times; at equal times the timer comes first and the requests
    in the order of the array. *)
Definition timeline (a : attempt) : list event :=
  let elapsed := N.max (cc_latency a) (cp_latency a) in
  snd <$> sort_by (fun x y => Some (fst x - fst y))
            ((if timer_fired 10000 elapsed then [(10000, EvAbort)] else []) ++
             [(Z.of_N (cc_latency a), EvSettled CryptoCompareNews);
              (Z.of_N (cp_latency a), EvSettled CryptoPanicNews)]).

Definition emit_each (events : list event) : Async unit :=
  foldr (fun ev rest => _ ← emit ev; rest) (mret tt) events.

(** [await Promise.all([fetchCryptoCompareNews(), fetchCryptoPanicNews()])]
    with the 10 s timer armed.  Neither adapter is given the
    controller's signal, so the timer's callback, when it runs, reaches
    no request.  The results come in the order of the array, not of
    completion. *)
Definition await_adapters (a : attempt) : Async (list NewsItem * list NewsItem) :=
  _ ← emit (EvFetch CryptoCompareNews);
  _ ← emit (EvFetch CryptoPanicNews);
  let elapsed := N.max (cc_latency a) (cp_latency a) in
  _ ← elapse elapsed;
  _ ← emit_each (timeline a);
  cryptoCompareNews ← lift (fetchCryptoCompareNews (cc_upstream a));
  cryptoPanicNews ← lift (fetchCryptoPanicNews (cp_upstream a) (cp_fresh a));
  mret (cryptoCompareNews, cryptoPanicNews).

(** The fresh-hit test of every cache: [entry && Date.now() -
    entry.timestamp < duration]. *)
Definition fresh_hit {T} (duration now : Z) (entry : option (cache_entry T)) : option T :=
  match entry with
  | Some e => if now - timestamp e <? duration then Some (data e) else None
  | None => None
  end.

(** The outer [try] block of [fetchCryptoNews]: one aggregation cycle.
    The inner [finally] clause only clears the timer. *)
Definition aggregation_cycle (a : attempt) : Async news_response :=
  _ ← match fault a with Some f => throw (fault_error f) | None => mret tt end;
  async_try_finally
    ('(cryptoCompareNews, cryptoPanicNews) ← await_adapters a;
     let allNews := sort_by newest_first (cryptoCompareNews ++ cryptoPanicNews) in
     now ← date_now;
     _ ← modify (set_newsCache (Some (mkEntry allNews now)));
     mret (mkNews allNews))
    (mret tt).

(** [export async function fetchCryptoNews(retryCount = 0)];
    [env k] is what happens during the attempt made with counter [k]. *)
Equations? fetchCryptoNews (env : nat -> attempt) (retryCount : nat)
  : Async news_response by wf (RATE_LIMIT.maxRetries - retryCount)%nat lt :=
fetchCryptoNews env retryCount :=
  now ← date_now;
  cache ← read newsCache;
  match fresh_hit NEWS_CACHE_DURATION now cache with
  | Some cached => mret (mkNews cached)
  | None =>
      async_try_catch
        (aggregation_cycle (env retryCount))
        (fun error =>
           if String.eqb (err_name error) "AbortError"
           then throw (Error "Request timeout - please try again")
           else
             match decide (retryCount < RATE_LIMIT.maxRetries)%nat with
             | left _ =>
                 let delayMs := RATE_LIMIT.baseDelay * 2 ^ Z.of_nat retryCount in
                 _ ← delay delayMs;
                 fetchCryptoNews env (S retryCount)
             | right _ =>
                 cache ← read newsCache;
                 mret (mkNews (default [] (data <$> cache)))
             end)
  end.
Proof. lia. Qed.

(** ** Sentiment classifier *)

(** The value of [data.choices?.[0]?.message?.content] in the body of
    the classifier's reply. *)
Inductive chat_content : Type :=
| ContentMissing              (* a link of the chain is undefined or null *)
| ContentText (s : string)
| ContentNotString.           (* present but no string: [.trim] is not a function *)

Record classifier_call : Type := mkClassifierCall {
  openai_upstream : fetched chat_content;
  openai_latency : N
}.

(** [{ choices: [{ message: { content } }] }] *)
Record sentiment_response : Type := mkSentiment { content : string }.

(** [s || 'NEUTRAL'] on a string. *)
Definition or_neutral (s : string) : string :=
  if String.eqb s "" then "NEUTRAL" else s.

(** [['POSITIVE', 'NEGATIVE'].includes(sentiment)] *)
Definition is_polar (sentiment : string) : bool :=
  existsb (String.eqb sentiment) ["POSITIVE"; "NEGATIVE"].

Definition cache_sentiment (text sentiment : string) (now : Z) (s : api_state) : api_state :=
  set_sentimentCache (<[text := mkEntry sentiment now]> (sentimentCache s)) s.

(** [export async function analyzeSentiment(text)] *)
Definition analyzeSentiment (text : string) (call : classifier_call)
  : Async sentiment_response :=
  cachedSentiment ← read (fun s => sentimentCache s !! text);
  now ← date_now;
  match fresh_hit SENTIMENT_CACHE_DURATION now cachedSentiment with
  | Some cached => mret (mkSentiment cached)
  | None =>
      async_try_catch
        (_ ← emit (EvFetch OpenAI);
         _ ← elapse (openai_latency call);
         _ ← emit (EvSettled OpenAI);
         response ← lift (openai_upstream call);
         _ ← (if ok response then mret tt else throw (Error "OpenAI API failed"));
         data ← lift (json response);
         sentiment ← lift
           match data with
           | ContentMissing => Normal "NEUTRAL"
           | ContentText s => Normal (or_neutral (JsString.toUpperCase (JsString.trim s)))
           | ContentNotString => Throw (TypeError "trim is not a function")
           end;
         now ← date_now;
         _ ← modify (cache_sentiment text sentiment now);
         mret (mkSentiment (if is_polar sentiment then sentiment else "NEUTRAL")))
        (fun error =>
           cachedSentiment ← read (fun s => sentimentCache s !! text);
           mret (mkSentiment
                   match cachedSentiment with
                   | Some entry => or_neutral (data entry)
                   | None => "NEUTRAL"
                   end))
  end.

(** ** Market snapshot *)

(** The five [Math.random()] draws of one mock snapshot, each in [0,1). *)
Record mock_draws : Type := mkDraws {
  draw_price : Q;
  draw_volume : Q;
  draw_cap : Q;
  draw_dominance : Q;
  draw_change : Q
}.

Definition half : Q := 1 # 2.

(** The [mockData] and [fallbackData] literals, in exact arithmetic:
    the program's figures are these rounded to doubles. *)
Definition mock_snapshot (r : mock_draws) : MarketData :=
  {| price := inject_Z 45000 + (draw_price r - half) * inject_Z 1000;
     volume24h := inject_Z 25000000000 + (draw_volume r - half) * inject_Z 5000000000;
     marketCap := inject_Z 850000000000 + (draw_cap r - half) * inject_Z 10000000000;
     dominance := (455 # 10) + (draw_dominance r - half) * inject_Z 2;
     change24h := (25 # 10) + (draw_change r - half) |}%Q.

(** The value of [data?.[symbol]] in CoinGecko's reply. *)
Inductive market_payload : Type :=
| NoCoin                                (* no body, or no truthy entry for the symbol *)
| Coin (usd usd_24h_vol usd_market_cap usd_24h_change : option Q).

(** [x || fallback] on an optional number. *)
Definition or_else (x : option Q) (fallback : Q) : Q :=
  match x with
  | Some q => if Qeq_bool q 0 then fallback else q
  | None => fallback
  end.

Record market_call : Type := mkMarketCall {
  mock : mock_draws;                    (* draws of [mockData] *)
  fallback : mock_draws;                (* draws of [fallbackData] *)
  market_upstream : fetched market_payload;
  market_latency : N
}.

Definition cache_market (snapshot : MarketData) : Async unit :=
  now ← date_now;
  modify (set_marketDataCache (Some (mkEntry snapshot now))).

(** [await fetch(url, { signal: controller.signal })] with the 5 s
    timer armed: when the timer is due first, the request is aborted
    and the call rejects with an [AbortError]. *)
Definition fetch_coingecko (call : market_call) : Async (response market_payload) :=
  _ ← emit (EvFetch CoinGeckoPrice);
  if timer_fired 5000 (market_latency call)
  then _ ← elapse 5000;
       _ ← emit EvAbort;
       _ ← emit (EvCancelled CoinGeckoPrice);
       throw AbortError
  else _ ← elapse (market_latency call);
       _ ← emit (EvSettled CoinGeckoPrice);
       lift (market_upstream call).

(** [export async function fetchMarketData(symbol = 'bitcoin')] *)
Definition fetchMarketData (symbol : string) (call : market_call) : Async MarketData :=
  now ← date_now;
  cache ← read marketDataCache;
  match fresh_hit MARKET_DATA_CACHE_DURATION now cache with
  | Some cached => mret cached
  | None =>
      async_try_catch
        (let mockData := mock_snapshot (mock call) in
         _ ← checkRateLimit;
         async_try_finally
           (response ← fetch_coingecko call;
            if status response =? 429
            then _ ← cache_market mockData; mret mockData
            else
              _ ← lift (validateResponse response "CoinGecko");
              data ← lift (json response);
              match data with
              | NoCoin => _ ← cache_market mockData; mret mockData
              | Coin usd usd_24h_vol usd_market_cap usd_24h_change =>
                  let marketData :=
                    {| price := or_else usd (price mockData);
                       volume24h := or_else usd_24h_vol (volume24h mockData);
                       marketCap := or_else usd_market_cap (marketCap mockData);
                       dominance := 455 # 10;
                       change24h := or_else usd_24h_change (change24h mockData) |} in
                  _ ← cache_market marketData;
                  mret marketData
              end)
           (mret tt))
        (fun error =>
           cache ← read marketDataCache;
           match cache with
           | Some entry => mret (data entry)
           | None =>
               let fallbackData := mock_snapshot (fallback call) in
               _ ← cache_market fallbackData;
               mret fallbackData
           end)
  end.

(** ** Enrichment (App.tsx) *)

(** [Math.floor(Math.random() * n)] for a draw [r].  The product here
    is the exact one; the program floors its rounding to a double, which
    for a draw below 1 stays below [n], so both lie in [0, n). *)
Definition random_below (n : Z) (r : Q) : Z := Qfloor (r * inject_Z n).

Definition urgency_keywords : list string :=
  ["urgent"; "breaking"; "alert"; "critical"; "major"].
Definition market_keywords : list string :=
  ["price"; "market"; "crash"; "surge"; "soar"; "plunge"].

(** The [reliability] closure; [item.body.length] throws when the item
    has no body. *)
Definition derive_reliability (item : NewsItem) (r : Q) : completion Z :=
  hasDetailedContent ←
    match body item with
    | Some b => Normal (200 <? Z.of_nat (String.length b))
    | None => Throw (TypeError "Cannot read properties of undefined")
    end;
  let isVerifiedSource := JsString.includes (source item) "CryptoCompare" in
  let baseReliability := random_below 20 r + 75 in
  let reliabilityScore := baseReliability in
  let reliabilityScore := if (hasDetailedContent : bool) then reliabilityScore + 5 else reliabilityScore in
  let reliabilityScore := if isVerifiedSource then reliabilityScore + 5 else reliabilityScore in
  Normal (Z.min reliabilityScore 100).

(** The [impact] closure. *)
Definition derive_impact (item : NewsItem) (sentiment : string) : impact_level :=
  let hasUrgentKeywords := JsString.test_alternatives_i urgency_keywords (title item) in
  let hasPriceKeywords := JsString.test_alternatives_i market_keywords (title item) in
  let sentimentStrength := if String.eqb sentiment "NEUTRAL" then 0 else 1 in
  if hasUrgentKeywords || (hasPriceKeywords && (0 <? sentimentStrength)) then High
  else if hasPriceKeywords || (0 <? sentimentStrength) then Medium
  else Low.

(** The [Math.random()] draws one item's enrichment may consume. *)
Record enrich_draws : Type := mkEnrichDraws {
  draw_base : Q;              (* base reliability, success path *)
  draw_fallback : Q;          (* fallback reliability *)
  draw_high : Q;              (* fallback impact, first draw *)
  draw_medium : Q             (* fallback impact, second draw *)
}.

Definition with_scores (item : NewsItem) (s : string) (r : Z) (i : impact_level) : NewsItem :=
  {| id := id item; title := title item; url := url item; source := source item;
     published_on := published_on item; imageurl := imageurl item; body := body item;
     sentiment := Some s; reliability := Some r; impact := Some i;
     votes := votes item |}.

(** The callback of [chunk.map]; [classified] is how
    [await analyzeSentiment(item.title)] completes. *)
Definition enrich (item : NewsItem) (classified : completion sentiment_response)
    (d : enrich_draws) : completion NewsItem :=
  try_catch
    (sentimentResponse ← classified;
     let sentiment := content sentimentResponse in
     reliability ← derive_reliability item (draw_base d);
     let impact := derive_impact item sentiment in
     Normal (with_scores item sentiment reliability impact))
    (fun error =>
       Normal (with_scores item "NEUTRAL"
                 (random_below 15 (draw_fallback d) + 70)
                 (if Qlt_le_dec (7 # 10) (draw_high d) then High
                  else if Qlt_le_dec (1 # 2) (draw_medium d) then Medium
                  else Low))).

(** ** Feed reconciliation (App.tsx, the [setNews] updater) *)

(** [Array.prototype.findIndex]; [None] stands for -1. *)
Fixpoint findIndex {A} (p : A -> bool) (l : list A) : option nat :=
  match l with
  | [] => None
  | x :: l' => if p x then Some 0%nat else S <$> findIndex p l'
  end.

(** The body of [processedChunk.forEach]. *)
Definition upsert (uniqueNews : list NewsItem) (item : NewsItem) : list NewsItem :=
  match findIndex (fun n => strict_eq (id n) (id item)) uniqueNews with
  | None => uniqueNews ++ [item]
  | Some index => <[index := item]> uniqueNews
  end.

(** [uniqueNews] after the [forEach], before the final sort. *)
Definition reconcile (prev processedChunk : list NewsItem) : list NewsItem :=
  fold_left upsert processedChunk prev.

(** [setNews(prev => ...)] *)
Definition setNews (prev processedChunk : list NewsItem) : list NewsItem :=
  sort_by newest_first (reconcile prev processedChunk).

(** The values the [news] state takes: [[]] at first, then whatever the
    updater makes of it, one processed chunk after the other. *)
Inductive feed_snapshot : list NewsItem -> Prop :=
| feed_initial : feed_snapshot []
| feed_updated prev processedChunk :
    feed_snapshot prev -> feed_snapshot (setNews prev processedChunk).

(** ** Vocabulary of the specification *)




(** The reliability rule in the specification's words, for a base
    value [base]. *)
Definition reliability_rule (base : Z) (detailed trusted : bool) : Z :=
  Z.min (base + (if detailed then 5 else 0) + (if trusted then 5 else 0)) 100.

Definition valid_sentiment (s : string) : Prop :=
  s = "POSITIVE" \/ s = "NEUTRAL" \/ s = "NEGATIVE".

(** A draw of [Math.random()]. *)
Definition unit_draw (r : Q) : Prop := (0 <= r)%Q /\ (r < 1)%Q.

(** The item has a date that is a number. *)
Definition dated (item : NewsItem) : Prop := is_Some (published_on item).

(** The items of [l] published at [k], in the order of [l]. *)
Definition published_at (k : Z) (l : list NewsItem) : list NewsItem :=
  filter (fun x => published_on x = Some k) l.

(** [l'] is [l] sorted newest first by a stable sort: items published
    at the same second keep the order they had. *)
Definition stable_sort_of (l l' : list NewsItem) : Prop :=
  Forall dated l' /\ sorted_desc l' /\ forall k, published_at k l' = published_at k l.

(** The cached news list, when there is one and all its dates are
    numbers, is newest first. *)
Definition cache_sorted (s : api_state) : Prop :=
  forall entry, newsCache s = Some entry ->
    Forall dated (data entry) -> sorted_desc (data entry).

(** No fresh news list in the cache: the next call starts a cycle. *)
Definition news_miss (s : api_state) : Prop :=
  fresh_hit NEWS_CACHE_DURATION (clock s) (newsCache s) = None.

Definition market_miss (s : api_state) : Prop :=
  fresh_hit MARKET_DATA_CACHE_DURATION (clock s) (marketDataCache s) = None.

(** The ways a provider's call fails, as the specification lists them:
    the request itself fails (network error, timeout), the status is
    not a success, the body cannot be parsed, or the array is missing. *)
Inductive upstream_failure {raw} : fetched (news_payload raw) -> Prop :=
| failure_network e : upstream_failure (Throw e)
| failure_status r : ok r = false -> upstream_failure (Normal r)
| failure_parse r e : json r = Throw e -> upstream_failure (Normal r)
| failure_shape r : json r = Normal NoArray -> upstream_failure (Normal r).

(** The ways the market call fails other than by a 429 or a body
    without the coin: network error, timeout, another error status, a
    body that cannot be parsed. *)
Inductive market_failure (call : market_call) : Prop :=
| market_timeout : timer_fired 5000 (market_latency call) = true -> market_failure call
| market_network e :
    timer_fired 5000 (market_latency call) = false ->
    market_upstream call = Throw e -> market_failure call
| market_status r :
    timer_fired 5000 (market_latency call) = false ->
    market_upstream call = Normal r -> status r <> 429 -> ok r = false ->
    market_failure call
| market_parse r e :
    timer_fired 5000 (market_latency call) = false ->
    market_upstream call = Normal r -> ok r = true -> json r = Throw e ->
    market_failure call.

(** The call is answered with status 429 before the timer is due. *)
Definition market_rate_limited (call : market_call) : Prop :=
  timer_fired 5000 (market_latency call) = false /\
  exists r, market_upstream call = Normal r /\ status r = 429.

(** The call is answered in time with a success status and a body that
    has no entry for the coin. *)
Definition market_malformed (call : market_call) : Prop :=
  timer_fired 5000 (market_latency call) = false /\
  exists r, market_upstream call = Normal r /\ ok r = true /\ json r = Normal NoCoin.

(** The market cache holds [snapshot], stamped with the current time,
    and every call made within the time to live is answered with it,
    without a request. *)
Definition serves_as_fresh (snapshot : MarketData) (s : api_state) : Prop :=
  marketDataCache s = Some (mkEntry snapshot (clock s)) /\
  forall symbol call s2,
    marketDataCache s2 = marketDataCache s ->
    clock s2 - clock s < MARKET_DATA_CACHE_DURATION ->
    fetchMarketData symbol call s2 = (Normal snapshot, s2).

(** The call is answered in time with real data for the coin. *)
Definition market_answered (call : market_call) (usd vol cap change : option Q) : Prop :=
  timer_fired 5000 (market_latency call) = false /\
  exists r, market_upstream call = Normal r /\ ok r = true /\
            json r = Normal (Coin usd vol cap change).

(** The snapshot built from real data. *)
Definition real_snapshot (call : market_call) (usd vol cap change : option Q) : MarketData :=
  let mockData := mock_snapshot (mock call) in
  {| price := or_else usd (price mockData);
     volume24h := or_else vol (volume24h mockData);
     marketCap := or_else cap (marketCap mockData);
     dominance := 455 # 10;
     change24h := or_else change (change24h mockData) |}.

(** [shown] is [sent || made_up]: the figure sent when there is one and
    it is not zero, the made-up one otherwise. *)
Definition filled (sent : option Q) (made_up shown : Q) : Prop :=
  (exists q, sent = Some q /\ ~ (q == 0)%Q /\ shown = q) \/
  ((sent = None \/ exists q, sent = Some q /\ (q == 0)%Q) /\ shown = made_up).

(** The delays among the events of [t], in order. *)
Definition delays_of (t : list event) : list Z :=
  omap (fun ev => match ev with EvDelay ms => Some ms | _ => None end) t.

(** What an adapter contributes to the merge. *)
Definition contribution (c : completion (list NewsItem)) : list NewsItem :=
  match c with
  | Normal l => l
  | Throw _ => []
  end.

(** The merged list of a cycle. *)
Definition merged_news (a : attempt) : list NewsItem :=
  sort_by newest_first
    (contribution (fetchCryptoCompareNews (cc_upstream a)) ++
     contribution (fetchCryptoPanicNews (cp_upstream a) (cp_fresh a))).

Definition cycle_duration (a : attempt) : N := N.max (cc_latency a) (cp_latency a).

(** What a cycle that completes lets the outside world see. *)
Definition cycle_events (a : attempt) : list event :=
  [EvFetch CryptoCompareNews; EvFetch CryptoPanicNews] ++ timeline a.

(** The module state a completed cycle leaves behind. *)
Definition after_cycle (a : attempt) (s : api_state) : api_state :=
  let now := clock s + Z.of_N (cycle_duration a) in
  mkState now (Some (mkEntry (merged_news a) now))
          (sentimentCache s) (marketDataCache s)
          (requestCount s) (lastRequestTime s)
          (trace s ++ cycle_events a).

(** The module state after [await delay(ms)]. *)
Definition after_delay (ms : Z) (s : api_state) : api_state :=
  mkState (clock s + Z.of_N (Z.to_N ms)) (newsCache s)
          (sentimentCache s) (marketDataCache s)
          (requestCount s) (lastRequestTime s)
          (trace s ++ [EvDelay ms]).

(** The attempt with counter [k] fails: an exception leaves its [try]
    block. *)
Definition fails_at (env : nat -> attempt) (k : nat) : Prop :=
  exists e s, fst (aggregation_cycle (env k) s) = Throw e.

(** An entry of CryptoPanic's [results] the adapter can read: an
    object that has a [source]. *)
Definition cp_readable (entry : option cp_raw) : Prop :=
  exists raw, entry = Some raw /\ is_Some (cp_source_title raw).

(** The item is the entry [raw] of CryptoCompare, normalised. *)
Definition cc_normalised (raw : cc_raw) (item : NewsItem) : Prop :=
  id item = cc_id raw /\ title item = cc_title raw /\ url item = cc_url raw /\
  source item = ("CryptoCompare - " ++ cc_source raw)%string /\
  published_on item = cc_published_on raw /\
  imageurl item = cc_imageurl raw /\ body item = cc_body raw.

(** The item is the entry [raw] of CryptoPanic, normalised; [fresh] is
    the identifier synthesised for it. *)
Definition cp_normalised (fresh : string) (raw : cp_raw) (item : NewsItem) : Prop :=
  id item = (if truthy (cp_id raw) then cp_id raw else JsStr fresh) /\
  title item = cp_title raw /\ url item = cp_url raw /\
  (exists source_title, cp_source_title raw = Some source_title /\
     source item = ("CryptoPanic - " ++ source_title)%string) /\
  published_on item = (fun ms => ms `div` 1000) <$> cp_published_at raw /\
  imageurl item = or_empty (cp_image_url raw) /\
  body item = Some (or_empty (cp_description raw)) /\
  votes item = cp_votes raw /\ sentiment item = cp_sentiment raw.

(** ** Sample inputs *)

Module Sample.

Definition cc_item (n : Z) (published : Z) : cc_raw :=
  mkCcRaw (JsNum n) "Bitcoin price surges" "https://example.org/a" "CoinDesk"
          (Some published) "" (Some "Bitcoin rose today.").

Definition cp_item (n : Z) (published_ms : Z) : cp_raw :=
  mkCpRaw (JsNum n) "Regulators weigh in" "https://example.org/b" (Some "Reuters")
          (Some published_ms) None (Some "A short note.") None None.

(** An entry whose [published_at] is missing or does not parse. *)
Definition cp_undated (n : Z) : cp_raw :=
  mkCpRaw (JsNum n) "Regulators weigh in" "https://example.org/b" (Some "Reuters")
          None None (Some "A short note.") None None.

Definition answers {raw} (entries : list raw) : fetched (news_payload raw) :=
  Normal (mkResponse 200 (Normal (Items (Some <$> entries)))).

Definition unreachable {raw} : fetched (news_payload raw) :=
  Throw (TypeError "Failed to fetch").

Definition no_fresh : nat -> string := fun _ => "1700000000000.5".

(** Every attempt fails: the runtime lacks the constructor. *)
Definition failing (f : runtime_fault) : nat -> attempt :=
  fun _ => mkAttempt (Some f) unreachable 0 unreachable 0 no_fresh.

(** Every attempt completes with the given answers and latencies. *)
Definition completing (cc : list cc_raw) (cc_ms : N) (cp : list cp_raw) (cp_ms : N)
  : nat -> attempt :=
  fun _ => mkAttempt None (answers cc) cc_ms (answers cp) cp_ms no_fresh.

(** The same module state, read at a later time [now]. *)
Definition later (now : Z) (s : api_state) : api_state := set_clock now s.

Definition draws (r : Q) : mock_draws := mkDraws r r r r r.

(** CoinGecko answers after 200 ms with real data. *)
Definition answered_call : market_call :=
  mkMarketCall (draws (3 # 4)) (draws (1 # 4))
    (Normal (mkResponse 200
       (Normal (Coin (Some (inject_Z 67000)) (Some (inject_Z 30000000000))
                     (Some (inject_Z 1300000000000)) (Some (12 # 10))))))
    200.

Definition real_data : MarketData :=
  mkMarketData (inject_Z 67000) (inject_Z 30000000000) (inject_Z 1300000000000)
               (455 # 10) (12 # 10).

(** CoinGecko answers 429 after 200 ms. *)
Definition rate_limited_call : market_call :=
  mkMarketCall (draws (3 # 4)) (draws (1 # 4)) (Normal (mkResponse 429 (Throw (Error "no JSON")))) 200.

(** The request to CoinGecko fails after 200 ms. *)
Definition network_down_call : market_call :=
  mkMarketCall (draws (3 # 4)) (draws (1 # 4)) (Throw (TypeError "Failed to fetch")) 200.

Definition scored (n : Z) (published : Z) (label : string) : NewsItem :=
  mkNewsItem (JsNum n) "Headline" "" "CryptoPanic - Reuters" (Some published) "" (Some "")
             (Some label) (Some 80) (Some Low) None.

End Sample.

(** ** More vocabulary: the classifier's failures *)

(** The ways a call to the classifier fails: the request itself, a
    status that is no success, a body that cannot be parsed, a content
    that is no string. *)
Inductive classifier_failure (call : classifier_call) : Prop :=
| classifier_network e : openai_upstream call = Throw e -> classifier_failure call
| classifier_status r :
    openai_upstream call = Normal r -> ok r = false -> classifier_failure call
| classifier_parse r e :
    openai_upstream call = Normal r -> ok r = true -> json r = Throw e ->
    classifier_failure call
| classifier_shape r :
    openai_upstream call = Normal r -> ok r = true -> json r = Normal ContentNotString ->
    classifier_failure call.

(** ** Price history (api.ts) *)

Module History.

(** [interface PriceHistoryData] *)
Record PriceHistoryData : Type := mkPoint {
  time : Z;
  price : Q;
  volume : Q
}.

(** The [Math.random()] draws of one mock history: the trend first,
    then, for the point of index [i], the change and the volume. *)
Record mock_history_draws : Type := mkHistoryDraws {
  draw_trend : Q;
  draw_change : nat -> Q;
  draw_volume : nat -> Q
}.

Definition basePrice : Q := inject_Z 45000.
Definition interval : Z := 86400 `div` 24.
Definition volatility : Q := 2 # 1000.

(** [timeRange === '7d' ? 7 * 24 : timeRange === '30d' ? 30 * 24 : 24] *)
Definition points_of (timeRange : string) : nat :=
  if String.eqb timeRange "7d" then 7 * 24
  else if String.eqb timeRange "30d" then 30 * 24
  else 24.

(** [Math.random() * 1000000000 + 500000000] *)
Definition random_volume (r : Q) : Q := (r * inject_Z 1000000000 + inject_Z 500000000)%Q.

(** The [for] loop of [generateMockPriceHistory], from index [i] on,
    with [remaining = points - i] turns to go.  The arithmetic is
    exact: the program's prices are these up to the rounding of each
    operation to a double. *)
Fixpoint mock_loop (draws : mock_history_draws) (now : Z) (points : nat)
    (remaining i : nat) (currentPrice : Q) : list PriceHistoryData :=
  match remaining with
  | O => []
  | S remaining' =>
      let timePoint := now - (Z.of_nat points - Z.of_nat i) * interval in
      let trend := ((draw_trend draws - half) * (1 # 1000))%Q in
      let randomChange := ((draw_change draws i - half) * inject_Z 2 * volatility + trend)%Q in
      let currentPrice := (currentPrice * (1 + randomChange))%Q in
      mkPoint timePoint currentPrice (random_volume (draw_volume draws i))
        :: mock_loop draws now points remaining' (S i) currentPrice
  end.

(** [function generateMockPriceHistory(now, timeRange)] *)
Definition generateMockPriceHistory (now : Z) (timeRange : string)
    (draws : mock_history_draws) : list PriceHistoryData :=
  let points := points_of timeRange in
  mock_loop draws now points points 0 basePrice.

(** An entry of [data.prices] as the callback of [map] destructures
    it. *)
Inductive price_entry : Type :=
| NotAPair                               (* not iterable: the destructuring throws *)
| Pair (timestamp price : option Q).     (* [None]: missing or not a number *)

(** The body of CoinGecko's market chart. *)
Inductive chart_payload : Type :=
| NoPrices                               (* no body, or [prices] missing or not an array *)
| Prices (prices : list price_entry)
         (total_volumes : list (option Q)).  (* [total_volumes?.[index]?.[1]] *)

Record chart_call : Type := mkChartCall {
  draws_try : mock_history_draws;        (* draws of [mockData] in the [try] block *)
  draws_catch : mock_history_draws;      (* draws of [mockData] in the [catch] clause *)
  volume_fill : nat -> Q;                (* the draw for a missing volume at an index *)
  chart_upstream : fetched chart_payload;
  chart_latency : N
}.

(** A request to the market chart endpoint: the query it carries. *)
Record chart_request : Type := mkChartRequest {
  req_symbol : string;
  req_days : Z;
  req_interval : string
}.

(** The module state with the price history cache, and the requests
    sent to the market chart endpoint, oldest first. *)
Record history_state : Type := mkHistory {
  api : api_state;
  priceHistoryCache : gmap string (cache_entry (list PriceHistoryData));
  chart_requests : list chart_request
}.

Definition initial_history (t0 : Z) : history_state :=
  mkHistory (initial_state t0) ∅ [].

Definition HAsync (A : Type) : Type := history_state -> completion A * history_state.

#[global] Instance hasync_ret : MRet HAsync := fun A a h => (Normal a, h).
#[global] Instance hasync_bind : MBind HAsync := fun A B f m h =>
  match m h with
  | (Normal a, h') => f a h'
  | (Throw e, h') => (Throw e, h')
  end.

(** A function of the module that knows nothing of this cache. *)
Definition lift_api {A} (m : Async A) : HAsync A := fun h =>
  match m (api h) with
  | (c, s') => (c, mkHistory s' (priceHistoryCache h) (chart_requests h))
  end.

Definition hthrow {A} (e : js_error) : HAsync A := fun h => (Throw e, h).
Definition hlift {A} (c : completion A) : HAsync A := fun h => (c, h).
Definition hread {A} (field : history_state -> A) : HAsync A := fun h => (Normal (field h), h).

Definition htry_catch {A} (body : HAsync A) (handler : js_error -> HAsync A) : HAsync A :=
  fun h =>
    match body h with
    | (Normal a, h') => (Normal a, h')
    | (Throw e, h') => handler e h'
    end.

Definition htry_finally {A} (body : HAsync A) (cleanup : HAsync unit) : HAsync A :=
  fun h =>
    match body h with
    | (c, h') => (c, snd (cleanup h'))
    end.

(** [priceHistoryCache.set(cacheKey, { data, timestamp: Date.now() })] *)
Definition cache_history (cacheKey : string) (points : list PriceHistoryData) : HAsync unit :=
  fun h =>
    (Normal tt,
     mkHistory (api h)
       (<[cacheKey := mkEntry points (clock (api h))]> (priceHistoryCache h))
       (chart_requests h)).

(** The [switch] on [timeRange]. *)
Definition days_of (timeRange : string) : Z :=
  if String.eqb timeRange "24h" then 1
  else if String.eqb timeRange "7d" then 7
  else if String.eqb timeRange "30d" then 30
  else 1.

(** [await fetch(url, { signal })] with the 5 s timer armed. *)
Definition fetch_chart (symbol : string) (days : Z) (call : chart_call)
  : HAsync (response chart_payload) :=
  fun h =>
    let request := mkChartRequest symbol days (if 1 <? days then "daily" else "hourly") in
    let h := mkHistory (api h) (priceHistoryCache h) (chart_requests h ++ [request]) in
    if timer_fired 5000 (chart_latency call)
    then lift_api (_ ← elapse 5000; _ ← emit EvAbort; throw AbortError) h
    else lift_api (_ ← elapse (chart_latency call); lift (chart_upstream call)) h.

(** Stands for [undefined] in [mockData[index] || mockData[0]]; never
    produced, since a mock history has at least 24 points. *)
Definition undefined_point : PriceHistoryData := mkPoint 0 0 0.

(** [typeof x === 'number' && x > 0] *)
Definition positive_number (x : option Q) : bool :=
  match x with
  | Some q => if Qlt_le_dec 0 q then true else false
  | None => false
  end.

(** The callback of [data.prices.map]. *)
Definition history_point (mockData : list PriceHistoryData) (total_volumes : list (option Q))
    (fill : nat -> Q) (index : nat) (entry : price_entry) : completion PriceHistoryData :=
  match entry with
  | NotAPair => Throw (TypeError "undefined is not iterable")
  | Pair timestamp price =>
      let isValidTimestamp := positive_number timestamp in
      let isValidPrice := positive_number price in
      if negb isValidTimestamp || negb isValidPrice
      then Normal (default (default undefined_point (mockData !! 0%nat)) (mockData !! index))
      else
        Normal {| time := Qfloor (default 0%Q timestamp / inject_Z 1000);
                  price := default 0%Q price;
                  volume := or_else (mjoin (total_volumes !! index))
                                    (random_volume (fill index)) |}
  end.

(** [export async function fetchPriceHistory(symbol = 'bitcoin',
    timeRange = '24h')] *)
Definition fetchPriceHistory (symbol timeRange : string) (call : chart_call)
  : HAsync (list PriceHistoryData) :=
  let cacheKey := (symbol ++ "-" ++ timeRange)%string in
  cached ← hread (fun h => priceHistoryCache h !! cacheKey);
  now ← lift_api date_now;
  match fresh_hit MARKET_DATA_CACHE_DURATION now cached with
  | Some points => mret points
  | None =>
      htry_catch
        (now_ms ← lift_api date_now;
         let now := now_ms `div` 1000 in
         let mockData := generateMockPriceHistory now timeRange (draws_try call) in
         _ ← lift_api checkRateLimit;
         let days := days_of timeRange in
         let use_fallback : HAsync (list PriceHistoryData) :=
           let fallbackData :=
             match cached with
             | Some entry => data entry
             | None => mockData
             end in
           _ ← cache_history cacheKey fallbackData;
           mret fallbackData in
         htry_finally
           (htry_catch
              (response ← fetch_chart symbol days call;
               if status response =? 429
               then use_fallback
               else
                 _ ← hlift (validateResponse response "CoinGecko History");
                 data ← hlift (json response);
                 match data with
                 | NoPrices => use_fallback
                 | Prices prices total_volumes =>
                     historyData ← hlift
                       (mapM (fun '(index, entry) =>
                                history_point mockData total_volumes (volume_fill call)
                                              index entry)
                             (zip (seq 0 (length prices)) prices));
                     _ ← cache_history cacheKey historyData;
                     mret historyData
                 end)
              (fun error =>
                 if String.eqb (err_name error) "AbortError"
                 then use_fallback
                 else hthrow error))
           (mret tt))
        (fun error =>
           match cached with
           | Some entry => mret (data entry)
           | None =>
               now_ms ← lift_api date_now;
               let mockData :=
                 generateMockPriceHistory (now_ms `div` 1000) timeRange (draws_catch call) in
               _ ← cache_history cacheKey mockData;
               mret mockData
           end)
  end.

(** The draws of a mock history are all in [0,1). *)
Definition unit_history_draws (draws : mock_history_draws) : Prop :=
  unit_draw (draw_trend draws) /\
  (forall i, unit_draw (draw_change draws i)) /\
  (forall i, unit_draw (draw_volume draws i)).

(** A point follows a price [previous] by a step of at most 0.26 %:
    the 0.25 % that the loop allows, and a margin that covers the
    rounding of the doubles. *)
Definition small_step (previous : Q) (point : PriceHistoryData) : Prop :=
  ((9974 # 10000) * previous <= price point /\ price point <= (10026 # 10000) * previous)%Q.

(** No fresh entry for the key: the next call sends a request. *)
Definition history_miss (cacheKey : string) (h : history_state) : Prop :=
  fresh_hit MARKET_DATA_CACHE_DURATION (clock (api h)) (priceHistoryCache h !! cacheKey) = None.

(** The failures that are answered with the fallback data inside the
    [try] block: a timeout, a 429, a body without the array. *)
Inductive chart_soft_failure (call : chart_call) : Prop :=
| chart_timeout : timer_fired 5000 (chart_latency call) = true -> chart_soft_failure call
| chart_rate_limited r :
    timer_fired 5000 (chart_latency call) = false ->
    chart_upstream call = Normal r -> status r = 429 -> chart_soft_failure call
| chart_malformed r :
    timer_fired 5000 (chart_latency call) = false ->
    chart_upstream call = Normal r -> ok r = true -> json r = Normal NoPrices ->
    chart_soft_failure call.

(** The failures that reach the outer [catch] clause: a network error,
    another error status, a body that cannot be parsed, an entry that
    is no pair. *)
Inductive chart_hard_failure (call : chart_call) : Prop :=
| chart_network e :
    timer_fired 5000 (chart_latency call) = false ->
    chart_upstream call = Throw e -> err_name e <> "AbortError" -> chart_hard_failure call
| chart_status r :
    timer_fired 5000 (chart_latency call) = false ->
    chart_upstream call = Normal r -> status r <> 429 -> ok r = false ->
    chart_hard_failure call
| chart_parse r e :
    timer_fired 5000 (chart_latency call) = false ->
    chart_upstream call = Normal r -> ok r = true -> json r = Throw e ->
    err_name e <> "AbortError" -> chart_hard_failure call
| chart_entry r prices total_volumes :
    timer_fired 5000 (chart_latency call) = false ->
    chart_upstream call = Normal r -> ok r = true ->
    json r = Normal (Prices prices total_volumes) -> In NotAPair prices ->
    chart_hard_failure call.

(** The call is answered in time with a list of pairs. *)
Definition chart_answered (call : chart_call) (prices : list price_entry)
    (total_volumes : list (option Q)) : Prop :=
  timer_fired 5000 (chart_latency call) = false /\
  (exists r, chart_upstream call = Normal r /\ ok r = true /\
             json r = Normal (Prices prices total_volumes)) /\
  ~ In NotAPair prices.

(** The request a call for [symbol] and [timeRange] sends. *)
Definition request_for (symbol timeRange : string) : chart_request :=
  mkChartRequest symbol (days_of timeRange)
    (if 1 <? days_of timeRange then "daily" else "hourly").

(** What the callback of [data.prices.map] returns for an entry that
    is a pair. *)
Definition point_of (mockData : list PriceHistoryData) (total_volumes : list (option Q))
    (fill : nat -> Q) (index : nat) (entry : price_entry) : PriceHistoryData :=
  match history_point mockData total_volumes fill index entry with
  | Normal point => point
  | Throw _ => undefined_point
  end.

(** The data a call falls back on inside the [try] block: the cached
    list, however old, or the mock history made at the start. *)
Definition fallback_data (symbol timeRange : string) (call : chart_call)
    (h : history_state) : list PriceHistoryData :=
  match priceHistoryCache h !! (symbol ++ "-" ++ timeRange)%string with
  | Some entry => data entry
  | None => generateMockPriceHistory (clock (api h) `div` 1000) timeRange (draws_try call)
  end.

End History.

(** Sample inputs for the price history. *)
Module HistorySample.

(** Every draw is 1/2: the mock prices stay at 45000. *)
Definition steady : History.mock_history_draws :=
  History.mkHistoryDraws (1 # 2) (fun _ => 1 # 2) (fun _ => 1 # 2).

Definition chart_call_with (upstream : fetched History.chart_payload) (latency : N)
  : History.chart_call :=
  History.mkChartCall steady steady (fun _ => 1 # 2) upstream latency.

(** Two good pairs around one whose price is missing. *)
Definition three_prices : list History.price_entry :=
  [History.Pair (Some (inject_Z 1700000000000)) (Some (inject_Z 67000));
   History.Pair (Some (inject_Z 1700003600000)) None;
   History.Pair (Some (inject_Z 1700007200000)) (Some (inject_Z 67100))].

Definition answered : History.chart_call :=
  chart_call_with
    (Normal (mkResponse 200 (Normal (History.Prices three_prices [Some (inject_Z 900)]))))
    200.

Definition rate_limited : History.chart_call :=
  chart_call_with (Normal (mkResponse 429 (Throw (Error "no JSON")))) 200.

Definition network_down : History.chart_call :=
  chart_call_with (Throw (TypeError "Failed to fetch")) 200.

(** The same state, read at a later time [now]. *)
Definition later (now : Z) (h : History.history_state) : History.history_state :=
  History.mkHistory (set_clock now (History.api h)) (History.priceHistoryCache h)
                    (History.chart_requests h).

Definition old_points : list History.PriceHistoryData :=
  [History.mkPoint 1699990000 (inject_Z 60000) (inject_Z 800)].

(** A state whose only entry, for bitcoin over 24 h, is 100 s old. *)
Definition expired : History.history_state :=
  History.mkHistory (initial_state 100000)
    {[ "bitcoin-24h" := mkEntry old_points 0 ]} [].

End HistorySample.

(** ** The chunk loop of [fetchNews] (App.tsx) *)

(** [Array.prototype.slice(start, end)]: a negative index counts from
    the end, and both are clamped to the length. *)
Definition slice {A} (start finish : Z) (l : list A) : list A :=
  let len := Z.of_nat (length l) in
  let clamp k := if k <? 0 then Z.max (len + k) 0 else Z.min k len in
  let from := clamp start in
  let to := clamp finish in
  take (Z.to_nat (to - from)) (drop (Z.to_nat from) l).

Definition chunkSize : nat := 5.

(** What the outside does while the loop runs.  The two checks of
    [isMounted && batchNumber === currentBatch] are answered per
    iteration (named by its start index [i]); the classifier and the
    random draws are given per item, by its index in [response.Data]. *)
Record loop_env : Type := mkLoopEnv {
  current_at_top : nat -> bool;
  current_at_update : nat -> bool;
  classified_at : nat -> completion sentiment_response;
  draws_at : nat -> enrich_draws
}.

(** The [news] state, the local [newsWithAnalysis] and the time spent
    in the pauses between two chunks. *)
Record loop_state : Type := mkLoop {
  news : list NewsItem;
  newsWithAnalysis : list NewsItem;
  waited : Z
}.

(** [Promise.all(chunk.map(async item => ...))] for the chunk that
    starts at index [i]. *)
Definition process_chunk (env : loop_env) (i : nat) (chunk : list NewsItem)
  : completion (list NewsItem) :=
  mapM (fun '(j, item) => enrich item (classified_at env (i + j)) (draws_at env (i + j)))
       (imap pair chunk).

(** [for (let i = ...; i < response.Data.length; i += chunkSize)],
    entered at index [i]. *)
Equations? process_chunks (env : loop_env) (Data : list NewsItem) (i : nat)
    (st : loop_state) : completion unit * loop_state
  by wf (length Data - i)%nat lt :=
process_chunks env Data i st with decide (i < length Data)%nat := {
  | right _ => (Normal tt, st)
  | left _ =>
      if negb (current_at_top env i) then (Normal tt, st)
      else
        let chunk := slice (Z.of_nat i) (Z.of_nat (i + chunkSize)) Data in
        match process_chunk env i chunk with
        | Throw e => (Throw e, st)
        | Normal processedChunk =>
            let newsWithAnalysis := newsWithAnalysis st ++ processedChunk in
            let news :=
              if current_at_update env i then setNews (news st) processedChunk
              else news st in
            process_chunks env Data (i + chunkSize)
              (mkLoop news newsWithAnalysis (waited st + 100))
        end }.
Proof. unfold chunkSize. lia. Qed.

(** The enriched version of the item of index [k]. *)
Definition enrichment (env : loop_env) (k : nat) (item : NewsItem) : NewsItem :=
  match enrich item (classified_at env k) (draws_at env k) with
  | Normal enriched => enriched
  | Throw _ => item
  end.

(** No unmount and no newer batch while the loop runs. *)
Definition undisturbed (env : loop_env) : Prop :=
  (forall i, current_at_top env i = true) /\ (forall i, current_at_update env i = true).

(** Sample inputs for the chunk loop. *)
Module FeedSample.

Definition raw (n : Z) : NewsItem :=
  mkNewsItem (JsNum n) "Bitcoin price surges" "https://example.org/a"
             "CryptoCompare - CoinDesk" (Some (1700000000 - n)) "" (Some "Bitcoin rose today.")
             None None None None.

(** Seven items, newest first, with the ids 1 to 7. *)
Definition seven : list NewsItem := raw <$> [1; 2; 3; 4; 5; 6; 7].

Definition even_draws : enrich_draws := mkEnrichDraws (1 # 2) (1 # 2) (1 # 2) (1 # 2).

(** Nothing disturbs the loop and every title is classified POSITIVE. *)
Definition calm : loop_env :=
  mkLoopEnv (fun _ => true) (fun _ => true)
            (fun _ => Normal (mkSentiment "POSITIVE")) (fun _ => even_draws).

(** A newer batch has started: no update check passes. *)
Definition superseded : loop_env :=
  mkLoopEnv (fun _ => true) (fun _ => false)
            (fun _ => Normal (mkSentiment "POSITIVE")) (fun _ => even_draws).

(** An enriched item. *)
Definition rated (n published r : Z) (level : impact_level) : NewsItem :=
  mkNewsItem (JsNum n) "Bitcoin rally" "https://example.org/a" "CryptoCompare - CoinDesk"
             (Some published) "" (Some "Prices rose.") (Some "POSITIVE") (Some r) (Some level)
             None.

(** An item that came without a body. *)
Definition bodiless : NewsItem :=
  mkNewsItem (JsNum 9) "Ethereum upgrade" "https://example.org/b" "CryptoCompare - CoinDesk"
             (Some 50) "" None (Some "NEUTRAL") (Some 75) (Some Low) None.

Definition three : list NewsItem :=
  [rated 1 300 95 High; rated 2 200 80 Low; rated 3 100 92 Medium].

Definition ten : list NewsItem := raw <$> [1; 2; 3; 4; 5; 6; 7; 8; 9; 10].

End FeedSample.

(** ** The list of the feed component (NewsFeed.tsx, useNewsSearch.ts) *)

Module NewsFeed.

Definition is_upper (c : ascii) : bool :=
  ((65 <=? N_of_ascii c) && (N_of_ascii c <=? 90))%N.

(** [String.prototype.toLowerCase] on one code unit (ASCII part). *)
Definition lower_char (c : ascii) : ascii :=
  if is_upper c then ascii_of_N (N_of_ascii c + 32) else c.

Definition toLowerCase (s : string) : string := JsString.map_chars lower_char s.

(** [item.reliability && item.reliability > 90] as a condition. *)
Definition is_verified (item : NewsItem) : bool :=
  match reliability item with
  | Some r => negb (r =? 0) && (90 <? r)
  | None => false
  end.

Definition is_high_impact (item : NewsItem) : bool :=
  match impact item with
  | Some High => true
  | _ => false
  end.

Definition matchesFilter (newsFilter : string) (item : NewsItem) : bool :=
  String.eqb newsFilter "all" ||
  (String.eqb newsFilter "verified" && is_verified item) ||
  (String.eqb newsFilter "high-impact" && is_high_impact item).

(** [item.body.toLowerCase()] throws when the item has no body; it is
    reached only when the query is not empty and the title does not
    contain it. *)
Definition matchesSearch (searchQuery : string) (item : NewsItem) : completion bool :=
  if String.eqb searchQuery "" then Normal true
  else if JsString.includes (toLowerCase (title item)) (toLowerCase searchQuery)
  then Normal true
  else
    match body item with
    | Some b => Normal (JsString.includes (toLowerCase b) (toLowerCase searchQuery))
    | None => Throw (TypeError "Cannot read properties of undefined (reading 'toLowerCase')")
    end.

(** The callback of [news.filter]. *)
Definition keeps (newsFilter searchQuery : string) (item : NewsItem) : completion bool :=
  let matchesFilter := matchesFilter newsFilter item in
  matchesSearch ← matchesSearch searchQuery item;
  Normal (matchesFilter && matchesSearch).

(** [Array.prototype.filter] with a callback that may throw. *)
Fixpoint filter_with {A} (p : A -> completion bool) (l : list A) : completion (list A) :=
  match l with
  | [] => Normal []
  | x :: l' =>
      keep ← p x;
      rest ← filter_with p l';
      Normal (if (keep : bool) then x :: rest else rest)
  end.

(** [useNewsSearch(news, searchQuery, newsFilter)], for the debounced
    query; the same filter is the first half of the component's own
    [filteredAndSortedNews]. *)
Definition filteredNews (news : list NewsItem) (debouncedSearchQuery newsFilter : string)
  : completion (list NewsItem) :=
  filter_with (keeps newsFilter debouncedSearchQuery) news.

Inductive sort_key : Type := ByDate | ByImpact | ByReliability.
Inductive sort_order : Type := Asc | Desc.

(** [impactOrder[item.impact] || 0] *)
Definition impactOrder (level : option impact_level) : Z :=
  match level with
  | Some High => 3
  | Some Medium => 2
  | Some Low => 1
  | None => 0
  end.

(** The comparator of the component's sort; by date it is [NaN] when
    one of the two dates is not a number. *)
Definition comparator (sortBy : sort_key) (sortOrder : sort_order) (a b : NewsItem)
  : option Z :=
  let comparison :=
    match sortBy with
    | ByDate => js_sub (published_on b) (published_on a)
    | ByImpact => Some (impactOrder (impact b) - impactOrder (impact a))
    | ByReliability => Some (default 0 (reliability b) - default 0 (reliability a))
    end in
  match sortOrder with
  | Asc => js_neg comparison
  | Desc => comparison
  end.

Definition filteredAndSortedNews (news : list NewsItem) (newsFilter searchQuery : string)
    (sortBy : sort_key) (sortOrder : sort_order) : completion (list NewsItem) :=
  filtered ← filter_with (keeps newsFilter searchQuery) news;
  Normal (sort_by (comparator sortBy sortOrder) filtered).

Definition itemsPerPage : Z := 8.

(** [Math.ceil(filteredAndSortedNews.length / itemsPerPage)] *)
Definition totalPages {A} (l : list A) : Z :=
  Qceiling (inject_Z (Z.of_nat (length l)) / inject_Z itemsPerPage).

(** [currentNews], the page shown. *)
Definition currentNews {A} (currentPage : Z) (l : list A) : list A :=
  let startIndex := (currentPage - 1) * itemsPerPage in
  let endIndex := startIndex + itemsPerPage in
  slice startIndex endIndex l.

(** The value an item is sorted by; a date may be no number. *)
Definition sort_value (sortBy : sort_key) (item : NewsItem) : option Z :=
  match sortBy with
  | ByDate => published_on item
  | ByImpact => Some (impactOrder (impact item))
  | ByReliability => Some (default 0 (reliability item))
  end.

(** The order asked for: never decreasing for [Asc], never increasing
    for [Desc]. *)
Definition in_order (sortBy : sort_key) (sortOrder : sort_order) (a b : NewsItem) : Prop :=
  match sortOrder with
  | Asc => js_le (sort_value sortBy a) (sort_value sortBy b)
  | Desc => js_le (sort_value sortBy b) (sort_value sortBy a)
  end.

(** The items of [l] with the sort value [k], in the order of [l]. *)
Definition valued (sortBy : sort_key) (k : Z) (l : list NewsItem) : list NewsItem :=
  filter (fun item => sort_value sortBy item = Some k) l.

End NewsFeed.

(** ** The figures of the analysis page (Analysis.tsx) *)

Module Analysis.

(** [Array.prototype.forEach] with a callback that updates a local
    object and may throw. *)
Fixpoint forEach {S A} (f : S -> A -> completion S) (l : list A) (s : S) : completion S :=
  match l with
  | [] => Normal s
  | x :: l' => s' ← f s x; forEach f l' s'
  end.

(** One entry of [distribution] in [sentimentData]: the fields
    [count], [impact] and [reliability]. *)
Record tally : Type := mkTally { count : Z; impactSum : Z; reliabilitySum : Z }.

Record distribution : Type := mkDistribution {
  POSITIVE : tally;
  NEUTRAL : tally;
  NEGATIVE : tally
}.

(** The property names an object literal inherits from
    [Object.prototype]: [distribution[name]] is then an object that is
    not one of the three entries, and the three updates go to that
    object. *)
Definition inherited_names : list string :=
  ["constructor"; "__proto__"; "hasOwnProperty"; "isPrototypeOf"; "propertyIsEnumerable";
   "toLocaleString"; "toString"; "valueOf"; "__defineGetter__"; "__defineSetter__";
   "__lookupGetter__"; "__lookupSetter__"].

(** [item.impact === 'High' ? 3 : item.impact === 'Medium' ? 2 : 1] *)
Definition impact_points (item : NewsItem) : Z :=
  match impact item with
  | Some High => 3
  | Some Medium => 2
  | _ => 1
  end.

Definition add_item (t : tally) (item : NewsItem) : tally :=
  mkTally (count t + 1) (impactSum t + impact_points item)
          (reliabilitySum t + default 0 (reliability item)).

(** The callback of [news.forEach] in [sentimentData]. *)
Definition tally_item (d : distribution) (item : NewsItem) : completion distribution :=
  match sentiment item with
  | None => Normal d
  | Some label =>
      if String.eqb label "" then Normal d
      else if String.eqb label "POSITIVE"
      then Normal (mkDistribution (add_item (POSITIVE d) item) (NEUTRAL d) (NEGATIVE d))
      else if String.eqb label "NEUTRAL"
      then Normal (mkDistribution (POSITIVE d) (add_item (NEUTRAL d) item) (NEGATIVE d))
      else if String.eqb label "NEGATIVE"
      then Normal (mkDistribution (POSITIVE d) (NEUTRAL d) (add_item (NEGATIVE d) item))
      else if bool_decide (label ∈ inherited_names) then Normal d
      else Throw (TypeError "Cannot read properties of undefined (reading 'count')")
  end.

(** A quotient of two counts; [None] when the divisor is 0 (the
    program then has [NaN] or an infinity). *)
Definition ratio (a b : Z) : option Q :=
  if b =? 0 then None else Some (inject_Z a / inject_Z b)%Q.

Record sentiment_entry : Type := mkSentimentEntry {
  name : string;
  value : Z;
  percentage : option Q;
  avgImpact : Q;
  avgReliability : Q
}.

(** [sentiment.charAt(0) + sentiment.slice(1).toLowerCase()] *)
Definition display_name (sentiment : string) : string :=
  match sentiment with
  | EmptyString => EmptyString
  | String c rest => String c (NewsFeed.toLowerCase rest)
  end.

(** The callback of [Object.entries(distribution).map]. *)
Definition entry_of (news : list NewsItem) (sentiment : string) (data : tally)
  : sentiment_entry :=
  {| name := display_name sentiment;
     value := count data;
     percentage :=
       (fun q => q * inject_Z 100)%Q <$> ratio (count data) (Z.of_nat (length news));
     avgImpact :=
       if 0 <? count data then (inject_Z (impactSum data) / inject_Z (count data))%Q else 0%Q;
     avgReliability :=
       if 0 <? count data
       then (inject_Z (reliabilitySum data) / inject_Z (count data))%Q else 0%Q |}.

Definition sentimentData (news : list NewsItem) : completion (list sentiment_entry) :=
  distribution ←
    forEach tally_item news
      (mkDistribution (mkTally 0 0 0) (mkTally 0 0 0) (mkTally 0 0 0));
  Normal [entry_of news "POSITIVE" (POSITIVE distribution);
          entry_of news "NEUTRAL" (NEUTRAL distribution);
          entry_of news "NEGATIVE" (NEGATIVE distribution)].

(** The table [timeframes] of [sentimentTrendData], in seconds. *)
Definition timeframes (selectedTimeframe : string) : option Z :=
  if String.eqb selectedTimeframe "1h" then Some 3600
  else if String.eqb selectedTimeframe "4h" then Some 14400
  else if String.eqb selectedTimeframe "12h" then Some 43200
  else if String.eqb selectedTimeframe "24h" then Some 86400
  else None.

(** One point of the trend; [midpoint] is the number of milliseconds
    the label is made of, [None] when it is [NaN]. *)
Record trend_point : Type := mkTrendPoint {
  midpoint : option Z;
  share : Q;                         (* [sentiment] *)
  upperBound : Q;
  lowerBound : Q;
  volume : Z
}.

(** What the loop pushes for the items [periodNews] of a period. *)
Definition point_for (midpoint : option Z) (periodNews : list NewsItem) : trend_point :=
  let positiveCount :=
    Z.of_nat (length (filter (fun item => sentiment item = Some "POSITIVE") periodNews)) in
  let totalCount :=
    if Z.of_nat (length periodNews) =? 0 then 1 else Z.of_nat (length periodNews) in
  let sentiment := (inject_Z positiveCount / inject_Z totalCount * inject_Z 100)%Q in
  let confidence :=
    Qmin (inject_Z (foldl (fun acc item => acc + default 0 (reliability item)) 0 periodNews)
            / inject_Z totalCount / inject_Z 100 * inject_Z 20)
         (inject_Z 15) in
  {| midpoint := midpoint;
     share := sentiment;
     upperBound := Qmin (sentiment + confidence) (inject_Z 100);
     lowerBound := Qmax (sentiment - confidence) 0;
     volume := Z.of_nat (length periodNews) |}.

(** The body of the loop for the period [i].  Every entry of the table
    is a multiple of 16, so the interval and its half are whole numbers
    of seconds; for a name that is not in the table the times are
    [NaN], and no item passes the two comparisons. *)
Definition period (news : list NewsItem) (currentTime : Z) (timeframe : option Z) (i : Z)
  : trend_point :=
  match timeframe with
  | Some timeframe =>
      let interval := timeframe `div` 8 in
      let startTime := currentTime - timeframe + i * interval in
      let endTime := startTime + interval in
      let periodNews :=
        filter (fun item => js_le (Some startTime) (published_on item) /\
                            js_lt (published_on item) (Some endTime))
               news in
      point_for (Some ((startTime + interval `div` 2) * 1000)) periodNews
  | None => point_for None []
  end.

(** [sentimentTrendData] at the time [now] (ms). *)
Definition sentimentTrendData (news : list NewsItem) (now : Z) (selectedTimeframe : string)
  : list trend_point :=
  let currentTime := now `div` 1000 in
  let timeframe := timeframes selectedTimeframe in
  period news currentTime timeframe <$> [0; 1; 2; 3; 4; 5; 6; 7].

(** The items the label [label] was given to. *)
Definition labelled (label : string) (news : list NewsItem) : list NewsItem :=
  filter (fun item => sentiment item = Some label) news.

(** A label [sentimentData] has an entry for, or none at all. *)
Definition standard_label (item : NewsItem) : Prop :=
  sentiment item = None \/ sentiment item = Some "" \/ sentiment item = Some "POSITIVE" \/
  sentiment item = Some "NEUTRAL" \/ sentiment item = Some "NEGATIVE".

(** The items published from [from] on and before [to]. *)
Definition published_within (from to : Z) (news : list NewsItem) : list NewsItem :=
  filter (fun item => js_le (Some from) (published_on item) /\
                      js_lt (published_on item) (Some to)) news.

End Analysis.

(** ** Strings *)

Section StringFacts.
Import JsString.







End StringFacts.

(** ** Sorting *)

Section SortFacts.
Context {A : Type} (comparefn : A -> A -> option Z).

Lemma insert_by_perm x l : Permutation (insert_by comparefn x l) (x :: l).
Proof.
  induction l as [|y l IH]; simpl; [reflexivity|].
  destruct (SortCompare comparefn x y <=? 0); [reflexivity|].
  rewrite IH. apply perm_swap.
Qed.

Lemma sort_by_perm l : Permutation (sort_by comparefn l) l.
Proof.
  induction l as [|x l IH]; simpl; [reflexivity|].
  rewrite insert_by_perm. by constructor.
Qed.

Lemma sort_by_elem x l : x ∈ sort_by comparefn l <-> x ∈ l.
Proof. by rewrite (sort_by_perm l). Qed.
End SortFacts.

(** Between two dated items the comparator is the difference of the
    dates; with an item that is not dated it is [NaN], taken for 0. *)
Lemma newest_first_dated x y tx ty :
  published_on x = Some tx -> published_on y = Some ty ->
  SortCompare newest_first x y = ty - tx.
Proof. unfold SortCompare, newest_first. by intros -> ->. Qed.

Lemma newest_first_undated x y :
  ~ dated x \/ ~ dated y -> SortCompare newest_first x y = 0.
Proof.
  unfold SortCompare, newest_first, dated.
  destruct (published_on x), (published_on y); simpl; try done;
    intros [H|H]; exfalso; apply H; by eexists.
Qed.

Lemma newer_or_equal_dated x y tx ty :
  published_on x = Some tx -> published_on y = Some ty ->
  newer_or_equal x y <-> ty <= tx.
Proof. unfold newer_or_equal. by intros -> ->. Qed.

Lemma insert_newest_first_sorted x l :
  dated x -> Forall dated l ->
  sorted_desc l -> sorted_desc (insert_by newest_first x l).
Proof.
  intros [tx Hx] Hdated. unfold sorted_desc. induction 1 as [|y l Hl IH Hy]; simpl.
  - repeat constructor.
  - apply Forall_cons in Hdated as [[ty Hty] Hdated].
    rewrite (newest_first_dated x y tx ty) by done.
    destruct (Z.leb_spec (ty - tx) 0).
    + constructor; [by constructor|].
      constructor; [apply (newer_or_equal_dated x y tx ty); (done || lia)|].
      eapply Forall_impl; [exact Hy|]. unfold newer_or_equal.
      intros z. rewrite Hx, Hty. destruct (published_on z); simpl; [lia | done].
    + constructor; [by apply IH|].
      rewrite (insert_by_perm newest_first x l).
      constructor; [apply (newer_or_equal_dated y x ty tx); (done || lia) | exact Hy].
Qed.

Lemma sort_newest_first_dated l : Forall dated l -> Forall dated (sort_by newest_first l).
Proof. by rewrite (sort_by_perm newest_first l). Qed.

Lemma sort_newest_first_sorted l :
  Forall dated l -> sorted_desc (sort_by newest_first l).
Proof.
  induction 1 as [|x l Hx Hl IH]; simpl; [constructor|].
  apply insert_newest_first_sorted; [done | by apply sort_newest_first_dated | done].
Qed.

Lemma insert_by_published_at k x l :
  published_at k (insert_by newest_first x l) = published_at k (x :: l).
Proof.
  unfold published_at. induction l as [|y l IH]; simpl; [done|].
  destruct (Z.leb_spec (SortCompare newest_first x y) 0) as [Hle|Hgt]; [done|].
  rewrite (filter_cons _ y), IH, !filter_cons.
  unfold SortCompare, newest_first in Hgt.
  destruct (published_on x) as [tx|], (published_on y) as [ty|]; simpl in Hgt; try lia.
  repeat case_decide; try done; simplify_eq; lia.
Qed.

(** [sort_by] is a stable sort. *)
Lemma sort_by_stable l : Forall dated l -> stable_sort_of l (sort_by newest_first l).
Proof.
  intros Hl.
  split; [by apply sort_newest_first_dated|]. split; [by apply sort_newest_first_sorted|].
  clear Hl. intros k. induction l as [|x l IH]; simpl; [done|].
  rewrite insert_by_published_at. unfold published_at in *.
  by rewrite !filter_cons, IH.
Qed.

Lemma sorted_desc_head_max x l y :
  sorted_desc (x :: l) -> y ∈ l -> newer_or_equal x y.
Proof.
  intros Hs Hy.
  apply StronglySorted_inv in Hs as [_ Hall].
  rewrite Forall_forall in Hall. by apply Hall.
Qed.

Lemma published_at_elem k l x :
  x ∈ published_at k l <-> published_on x = Some k /\ x ∈ l.
Proof. unfold published_at. by rewrite list_elem_of_filter. Qed.

(** Two lists of dated items sorted newest first that agree on the
    items of every second are equal: the stable sort of a list is
    unique, so every engine's [sort] gives the list [sort_by] gives. *)
Lemma sorted_desc_unique l1 l2 :
  Forall dated l1 -> Forall dated l2 ->
  sorted_desc l1 -> sorted_desc l2 ->
  (forall k, published_at k l1 = published_at k l2) -> l1 = l2.
Proof.
  revert l2. induction l1 as [|x l1 IH]; intros l2 Hd1 Hd2 Hs1 Hs2 Heq.
  - destruct l2 as [|y l2]; [done|]. exfalso.
    apply Forall_cons in Hd2 as [[ty Hy] _].
    specialize (Heq ty). unfold published_at in Heq.
    rewrite filter_cons_True in Heq by done. discriminate.
  - apply Forall_cons in Hd1 as [[tx Hx] Hd1].
    destruct l2 as [|y l2].
    { exfalso. specialize (Heq tx). unfold published_at in Heq.
      rewrite filter_cons_True in Heq by done. discriminate. }
    apply Forall_cons in Hd2 as [[ty Hy] Hd2].
    assert (ty <= tx) as Hyx.
    { assert (y ∈ x :: l1) as [->|Hin]%elem_of_cons.
      { apply (published_at_elem ty). rewrite Heq.
        apply published_at_elem. split; [done | left]. }
      - assert (tx = ty) by congruence. lia.
      - apply (newer_or_equal_dated x y tx ty); [done..|].
        by apply (sorted_desc_head_max x l1). }
    assert (tx <= ty) as Hxy.
    { assert (x ∈ y :: l2) as [->|Hin]%elem_of_cons.
      { apply (published_at_elem tx). rewrite <- Heq.
        apply published_at_elem. split; [done | left]. }
      - assert (tx = ty) by congruence. lia.
      - apply (newer_or_equal_dated y x ty tx); [done..|].
        by apply (sorted_desc_head_max y l2). }
    assert (tx = ty) as <- by lia.
    assert (x = y) as <-.
    { specialize (Heq tx). unfold published_at in Heq.
      rewrite !filter_cons_True in Heq by done. congruence. }
    f_equal. apply IH; [done | done | | |].
    + by apply StronglySorted_inv in Hs1 as [? _].
    + by apply StronglySorted_inv in Hs2 as [? _].
    + intros k. specialize (Heq k). unfold published_at in *.
      rewrite !filter_cons in Heq. case_decide; congruence.
Qed.

Lemma stable_sort_unique l l' :
  Forall dated l -> stable_sort_of l l' -> l' = sort_by newest_first l.
Proof.
  intros Hl (Hd & Hs & Heq). destruct (sort_by_stable l Hl) as (Hd' & Hs' & Heq').
  apply sorted_desc_unique; [done..|]. intros k. by rewrite Heq, Heq'.
Qed.

(** A list that is newest first is left as it is. *)
Lemma sort_by_sorted l : sorted_desc l -> sort_by newest_first l = l.
Proof.
  unfold sorted_desc. induction 1 as [|x l Hl IH Hx]; simpl; [done|].
  rewrite IH. destruct l as [|y l]; [done|]. simpl.
  apply Forall_inv in Hx. unfold newer_or_equal in Hx.
  unfold SortCompare, newest_first.
  destruct (published_on x) as [tx|], (published_on y) as [ty|]; simpl in *; try done.
  destruct (Z.leb_spec (ty - tx) 0); [done | lia].
Qed.

Lemma sort_by_NoDup_ids l :
  NoDup (id <$> l) -> NoDup (id <$> sort_by newest_first l).
Proof. by rewrite (sort_by_perm newest_first l). Qed.

(** ** Feed reconciliation *)

Lemma findIndex_Some {A} (p : A -> bool) l i :
  findIndex p l = Some i -> exists x, l !! i = Some x /\ p x = true.
Proof.
  revert i. induction l as [|y l IH]; intros i; simpl; [discriminate|].
  destruct (p y) eqn:Hp.
  - intros [= <-]. eauto.
  - destruct (findIndex p l) as [j|]; simpl; [|discriminate].
    intros [= <-]. destruct (IH j eq_refl) as (x & Hx & Hpx). eauto.
Qed.

Lemma findIndex_None {A} (p : A -> bool) l :
  findIndex p l = None -> forall x, x ∈ l -> p x = false.
Proof.
  induction l as [|y l IH]; simpl; intros H x Hx.
  - by apply elem_of_nil in Hx.
  - destruct (p y) eqn:Hp; [discriminate|].
    destruct (findIndex p l); [discriminate|].
    apply elem_of_cons in Hx as [->|Hx]; auto.
Qed.

Lemma strict_eq_true a b : strict_eq a b = true <-> a = b.
Proof. unfold strict_eq. apply bool_decide_eq_true. Qed.

Lemma strict_eq_false a b : strict_eq a b = false <-> a <> b.
Proof. unfold strict_eq. apply bool_decide_eq_false. Qed.

(** An upsert leaves the list of ids as it is when the id is known, and
    adds the id at the end when it is new. *)
Lemma upsert_ids l item :
  id <$> upsert l item =
  if decide (id item ∈ id <$> l) then id <$> l else (id <$> l) ++ [id item].
Proof.
  unfold upsert.
  destruct (findIndex _ l) as [i|] eqn:Hfind.
  - apply findIndex_Some in Hfind as (x & Hx & Heq).
    apply strict_eq_true in Heq.
    rewrite decide_True.
    + rewrite list_fmap_insert. apply list_insert_id.
      by rewrite list_lookup_fmap, Hx, <- Heq.
    + rewrite <- Heq. apply list_elem_of_fmap. exists x. split; [done|].
      eapply list_elem_of_lookup_2; eauto.
  - rewrite decide_False.
    + by rewrite fmap_app.
    + intros (x & Heq & Hx)%list_elem_of_fmap.
      pose proof (findIndex_None _ _ Hfind x Hx) as Hne.
      apply strict_eq_false in Hne. congruence.
Qed.

Lemma upsert_NoDup l item :
  NoDup (id <$> l) -> NoDup (id <$> upsert l item).
Proof.
  intros H. rewrite upsert_ids. case_decide; [done|].
  apply NoDup_app. split_and!; [done | | apply NoDup_singleton].
  intros x Hx Hx'. apply list_elem_of_singleton in Hx'. congruence.
Qed.

Lemma upsert_elem l item : item ∈ upsert l item.
Proof.
  unfold upsert. destruct (findIndex _ l) as [i|] eqn:Hfind.
  - apply findIndex_Some in Hfind as (x & Hx & _).
    eapply list_elem_of_lookup_2. apply list_lookup_insert_eq.
    eapply lookup_lt_Some; eauto.
  - apply elem_of_app. right. apply list_elem_of_singleton. done.
Qed.

(** An upsert with another id leaves every entry where it is. *)
Lemma upsert_lookup_other l item i x :
  l !! i = Some x -> id x <> id item -> upsert l item !! i = Some x.
Proof.
  intros Hx Hne. unfold upsert.
  destruct (findIndex _ l) as [j|] eqn:Hfind.
  - apply findIndex_Some in Hfind as (y & Hy & Heq).
    apply strict_eq_true in Heq.
    rewrite list_lookup_insert_ne; [done|].
    intros ->. congruence.
  - by apply lookup_app_l_Some.
Qed.

Lemma reconcile_ids_prefix prev chunk :
  (id <$> prev) `prefix_of` (id <$> reconcile prev chunk).
Proof.
  unfold reconcile. revert prev.
  induction chunk as [|item chunk IH]; intros prev; simpl; [done|].
  etrans; [|apply IH].
  rewrite upsert_ids. case_decide; [done | by apply prefix_app_r].
Qed.

Lemma reconcile_ids_elem prev chunk i :
  i ∈ id <$> reconcile prev chunk <-> i ∈ id <$> prev \/ i ∈ id <$> chunk.
Proof.
  unfold reconcile. revert prev.
  induction chunk as [|item chunk IH]; intros prev; simpl.
  - split; [tauto|]. intros [?|H]; [done|]. by apply elem_of_nil in H.
  - rewrite IH, upsert_ids, elem_of_cons. case_decide.
    + split; [tauto|]. intros [?|[->|?]]; auto.
    + rewrite elem_of_app, list_elem_of_singleton. tauto.
Qed.

Lemma reconcile_NoDup prev chunk :
  NoDup (id <$> prev) -> NoDup (id <$> reconcile prev chunk).
Proof.
  unfold reconcile. revert prev.
  induction chunk as [|item chunk IH]; intros prev H; simpl; [done|].
  by apply IH, upsert_NoDup.
Qed.

(** Entries whose id does not come again stay where they are. *)
Lemma reconcile_lookup_other prev chunk i x :
  prev !! i = Some x -> id x ∉ id <$> chunk -> reconcile prev chunk !! i = Some x.
Proof.
  unfold reconcile. revert prev.
  induction chunk as [|item chunk IH]; intros prev Hx Hid; simpl; [done|].
  simpl in Hid. rewrite not_elem_of_cons in Hid. destruct Hid as [Hne Hid].
  apply IH; [|done]. by apply upsert_lookup_other.
Qed.

(** Last seen wins: the last entry of the chunk that carries an id is
    the one the feed keeps. *)
Lemma reconcile_last_wins prev l1 item l2 :
  id item ∉ id <$> l2 -> item ∈ reconcile prev (l1 ++ item :: l2).
Proof.
  intros Hid. unfold reconcile. rewrite fold_left_app. simpl.
  pose proof (upsert_elem (fold_left upsert l1 prev) item) as Hin.
  apply list_elem_of_lookup in Hin as [i Hi].
  eapply list_elem_of_lookup_2.
  by apply (reconcile_lookup_other _ l2 i item).
Qed.

(** An id already in the feed keeps its position: the entry there is
    replaced, none is added. *)
Lemma reconcile_in_place prev chunk i x :
  prev !! i = Some x ->
  exists y, reconcile prev chunk !! i = Some y /\ id y = id x.
Proof.
  intros Hx.
  destruct (reconcile_ids_prefix prev chunk) as [new Hnew].
  assert ((id <$> reconcile prev chunk) !! i = Some (id x)) as Hi.
  { rewrite Hnew. apply lookup_app_l_Some. by rewrite list_lookup_fmap, Hx. }
  rewrite list_lookup_fmap in Hi.
  destruct (reconcile prev chunk !! i) as [y|]; simplify_eq/=. eauto.
Qed.

Lemma feed_snapshot_NoDup feed : feed_snapshot feed -> NoDup (id <$> feed).
Proof.
  induction 1 as [|prev chunk _ IH].
  - constructor.
  - unfold setNews. by apply sort_by_NoDup_ids, reconcile_NoDup.
Qed.

Lemma feed_snapshot_sorted feed :
  feed_snapshot feed -> Forall dated feed -> sorted_desc feed.
Proof.
  destruct 1; [constructor|]. unfold setNews. intros Hdated.
  apply sort_newest_first_sorted.
  by rewrite (sort_by_perm newest_first (reconcile prev processedChunk)) in Hdated.
Qed.

(** ** Provider adapters *)

Lemma fetchCryptoCompareNews_resolves upstream :
  fetchCryptoCompareNews upstream =
  Normal (contribution (fetchCryptoCompareNews upstream)).
Proof.
  unfold fetchCryptoCompareNews, try_catch.
  by destruct (_ ≫= _).
Qed.

Lemma fetchCryptoPanicNews_resolves upstream fresh :
  fetchCryptoPanicNews upstream fresh =
  Normal (contribution (fetchCryptoPanicNews upstream fresh)).
Proof.
  unfold fetchCryptoPanicNews, try_catch.
  by destruct (_ ≫= _).
Qed.

Lemma fetchCryptoCompareNews_failure upstream :
  upstream_failure upstream -> fetchCryptoCompareNews upstream = Normal [].
Proof.
  unfold fetchCryptoCompareNews, validateResponse.
  destruct 1 as [e | r Hok | r e Hjson | r Hjson]; simpl.
  - done.
  - by rewrite Hok.
  - destruct (ok r); simpl; [by rewrite Hjson | done].
  - destruct (ok r); simpl; [by rewrite Hjson | done].
Qed.

Lemma fetchCryptoPanicNews_failure upstream fresh :
  upstream_failure upstream -> fetchCryptoPanicNews upstream fresh = Normal [].
Proof.
  unfold fetchCryptoPanicNews, validateResponse.
  destruct 1 as [e | r Hok | r e Hjson | r Hjson]; simpl.
  - done.
  - by rewrite Hok.
  - destruct (ok r); simpl; [by rewrite Hjson | done].
  - destruct (ok r); simpl; [by rewrite Hjson | done].
Qed.

(** ** Aggregator *)

Lemma aggregation_cycle_fault a f s :
  fault a = Some f -> aggregation_cycle a s = (Throw (fault_error f), s).
Proof. intros H. unfold aggregation_cycle. by rewrite H. Qed.

Lemma fault_error_not_abort f : String.eqb (err_name (fault_error f)) "AbortError" = false.
Proof. by destruct f. Qed.

Lemma emit_each_run events s :
  emit_each events s =
  (Normal tt,
   mkState (clock s) (newsCache s) (sentimentCache s) (marketDataCache s)
           (requestCount s) (lastRequestTime s) (trace s ++ events)).
Proof.
  revert s. induction events as [|ev events IH]; intros s; simpl.
  - rewrite app_nil_r. by destruct s.
  - unfold mbind, async_bind, emit, modify. rewrite IH. simpl.
    by rewrite <- app_assoc.
Qed.

Lemma aggregation_cycle_completes a s :
  fault a = None ->
  aggregation_cycle a s = (Normal (mkNews (merged_news a)), after_cycle a s).
Proof.
  intros H. unfold aggregation_cycle, await_adapters. rewrite H.
  unfold merged_news, after_cycle, cycle_events, cycle_duration.
  rewrite (fetchCryptoCompareNews_resolves (cc_upstream a)).
  rewrite (fetchCryptoPanicNews_resolves (cp_upstream a) (cp_fresh a)).
  destruct s as [now nc sc mc rc lr tr].
  unfold async_try_finally.
  unfold mbind, async_bind, mret, async_ret, emit, elapse, modify, lift, date_now, read.
  cbn -[emit_each timeline sort_by]. rewrite emit_each_run.
  cbn -[timeline sort_by]. by rewrite <- !app_assoc.
Qed.

Lemma delay_run ms s : delay ms s = (Normal tt, after_delay ms s).
Proof. by destruct s. Qed.

Lemma news_miss_after_delay ms s : news_miss s -> news_miss (after_delay ms s).
Proof.
  unfold news_miss, fresh_hit, after_delay, NEWS_CACHE_DURATION. simpl.
  destruct (newsCache s) as [entry|]; [|done].
  destruct (Z.ltb_spec (clock s - timestamp entry) 60000); [discriminate|].
  intros _. destruct (Z.ltb_spec (clock s + Z.of_N (Z.to_N ms) - timestamp entry) 60000);
    [lia | done].
Qed.

Lemma fetchCryptoNews_hit env k s cached :
  fresh_hit NEWS_CACHE_DURATION (clock s) (newsCache s) = Some cached ->
  fetchCryptoNews env k s = (Normal (mkNews cached), s).
Proof.
  intros H. rewrite fetchCryptoNews_equation_1.
  unfold mbind, async_bind, date_now, read. by rewrite H.
Qed.

Lemma fetchCryptoNews_cycle env k s :
  news_miss s -> fault (env k) = None ->
  fetchCryptoNews env k s =
  (Normal (mkNews (merged_news (env k))), after_cycle (env k) s).
Proof.
  intros Hmiss Hfault. rewrite fetchCryptoNews_equation_1.
  unfold mbind at 1 2, async_bind, date_now, read. rewrite Hmiss.
  unfold async_try_catch. by rewrite aggregation_cycle_completes.
Qed.

(** A failure leaves the [try] block exactly when the runtime lacks
    the constructor, and it is never an [AbortError]. *)
Lemma fails_at_fault env k :
  fails_at env k <-> exists f, fault (env k) = Some f.
Proof.
  split.
  - intros (e & s & Hthrow). destruct (fault (env k)) as [f|] eqn:Hfault; [eauto|].
    by rewrite aggregation_cycle_completes in Hthrow.
  - intros (f & Hfault). exists (fault_error f), (initial_state 0).
    by rewrite (aggregation_cycle_fault _ f).
Qed.

Lemma fetchCryptoNews_retry env k s :
  news_miss s -> fails_at env k -> (k < RATE_LIMIT.maxRetries)%nat ->
  fetchCryptoNews env k s =
  fetchCryptoNews env (S k) (after_delay (RATE_LIMIT.baseDelay * 2 ^ Z.of_nat k) s).
Proof.
  intros Hmiss (f & Hfault)%fails_at_fault Hk. rewrite fetchCryptoNews_equation_1.
  unfold mbind at 1 2, async_bind, date_now, read. rewrite Hmiss.
  unfold async_try_catch. rewrite (aggregation_cycle_fault _ f) by done.
  rewrite fault_error_not_abort.
  rewrite decide_True by done. cbn zeta.
  unfold mbind, async_bind. by rewrite delay_run.
Qed.

Lemma fetchCryptoNews_give_up env k s :
  news_miss s -> fails_at env k -> (RATE_LIMIT.maxRetries <= k)%nat ->
  fetchCryptoNews env k s = (Normal (mkNews (default [] (data <$> newsCache s))), s).
Proof.
  intros Hmiss (f & Hfault)%fails_at_fault Hk. rewrite fetchCryptoNews_equation_1.
  unfold mbind at 1 2, async_bind, date_now, read. rewrite Hmiss.
  unfold async_try_catch. rewrite (aggregation_cycle_fault _ f) by done.
  rewrite fault_error_not_abort.
  rewrite decide_False by lia. reflexivity.
Qed.

(** The paths of a call: a fresh hit, a cycle that completes, a retry
    after a failure, the fallback after the last one. *)
Lemma fetchCryptoNews_paths env k s :
  (exists cached, fresh_hit NEWS_CACHE_DURATION (clock s) (newsCache s) = Some cached) \/
  (news_miss s /\ fault (env k) = None) \/
  (news_miss s /\ fails_at env k /\ (k < RATE_LIMIT.maxRetries)%nat) \/
  (news_miss s /\ fails_at env k /\ (RATE_LIMIT.maxRetries <= k)%nat).
Proof.
  destruct (fresh_hit NEWS_CACHE_DURATION (clock s) (newsCache s)) as [cached|] eqn:Hhit;
    [left; eauto|].
  right. destruct (fault (env k)) as [f|] eqn:Hfault; [|left; auto].
  assert (fails_at env k) by (apply fails_at_fault; eauto).
  right. destruct (decide (k < RATE_LIMIT.maxRetries)%nat); [left | right];
    split_and!; (done || lia).
Qed.

(** No call is ever rejected: every path of the function ends in a
    [return], but for the one that throws an [AbortError] again, and no
    failure of an attempt is an [AbortError]. *)
Lemma fetchCryptoNews_resolves env k s :
  is_rejected (fst (fetchCryptoNews env k s)) = false.
Proof.
  remember (RATE_LIMIT.maxRetries - k)%nat as n eqn:Hn.
  revert k s Hn. induction n as [n IH] using lt_wf_ind. intros k s Hn.
  destruct (fetchCryptoNews_paths env k s)
    as [(cached & Hhit) | [(Hmiss & Hfault) | [(Hmiss & Hfails & Hk) | (Hmiss & Hfails & Hk)]]].
  - by rewrite (fetchCryptoNews_hit _ _ _ cached).
  - by rewrite fetchCryptoNews_cycle.
  - rewrite fetchCryptoNews_retry by done.
    apply (IH (RATE_LIMIT.maxRetries - S k)%nat); [|done].
    unfold RATE_LIMIT.maxRetries in *. lia.
  - by rewrite fetchCryptoNews_give_up.
Qed.

(** C1: a failure that leaves an aggregation attempt made with counter
    [k < 3] makes [fetchCryptoNews] wait [1000 * 2^k] ms and call
    itself with counter [k + 1]; one that leaves the attempt made with
    counter 3 or more makes the call resolve with the cached list,
    stale as it is, or with the empty list when there is no cache.  So
    when the attempts 0 to 3 all fail, the delays are 1000, 2000 and
    4000 ms and the call resolves with that fallback.  The promise is
    never rejected, whatever the attempts do. *)
Theorem fetchCryptoNews_backoff (env : nat -> attempt) (s : api_state) :
  (forall k, news_miss s -> fails_at env k -> (k < RATE_LIMIT.maxRetries)%nat ->
     fetchCryptoNews env k s =
     fetchCryptoNews env (S k) (after_delay (RATE_LIMIT.baseDelay * 2 ^ Z.of_nat k) s)) /\
  (forall k, news_miss s -> fails_at env k -> (RATE_LIMIT.maxRetries <= k)%nat ->
     fetchCryptoNews env k s =
     (Normal (mkNews (default [] (data <$> newsCache s))), s)) /\
  (news_miss s -> (forall k, (k <= RATE_LIMIT.maxRetries)%nat -> fails_at env k) ->
     let s' := after_delay 4000 (after_delay 2000 (after_delay 1000 s)) in
     fetchCryptoNews env 0 s = (Normal (mkNews (default [] (data <$> newsCache s))), s') /\
     trace s' = trace s ++ [EvDelay 1000; EvDelay 2000; EvDelay 4000] /\
     clock s' = clock s + 7000 /\
     newsCache s' = newsCache s) /\
  (forall k, is_rejected (fst (fetchCryptoNews env k s)) = false).
Proof.
  split_and!.
  - intros k. apply fetchCryptoNews_retry.
  - intros k. apply fetchCryptoNews_give_up.
  - intros Hmiss Hfail. cbn zeta. split_and!.
    + assert (forall k, (k <= 3)%nat -> fails_at env k) as Hfail' by exact Hfail.
      rewrite (fetchCryptoNews_retry env 0); [|done|apply Hfail'; lia|compute; lia].
      rewrite (fetchCryptoNews_retry env 1);
        [|by apply news_miss_after_delay|apply Hfail'; lia|compute; lia].
      rewrite (fetchCryptoNews_retry env 2);
        [|by do 2 apply news_miss_after_delay|apply Hfail'; lia|compute; lia].
      rewrite (fetchCryptoNews_give_up env 3);
        [|by do 3 apply news_miss_after_delay|apply Hfail'; lia|compute; lia].
      reflexivity.
    + simpl. by rewrite <- !app_assoc.
    + simpl. lia.
    + reflexivity.
  - intros k. apply fetchCryptoNews_resolves.
Qed.

(** The theorem at work: a runtime without [AbortController], no
    cache, four failing attempts. *)
Lemma fetchCryptoNews_backoff_witness :
  let env := Sample.failing NotDefined in
  let s := initial_state 0 in
  (forall k, fails_at env k) /\
  fetchCryptoNews env 0 s =
    (Normal (mkNews []), after_delay 4000 (after_delay 2000 (after_delay 1000 s))) /\
  delays_of (trace (snd (fetchCryptoNews env 0 s))) = [1000; 2000; 4000].
Proof.
  intros env s.
  assert (forall k, fails_at env k) as Hfails.
  { intros k. exists (fault_error NotDefined), s. reflexivity. }
  split; [exact Hfails|].
  destruct (fetchCryptoNews_backoff env s) as (_ & _ & Hrun & _).
  destruct Hrun as (Heq & Htrace & _).
  - reflexivity.
  - intros k _. apply Hfails.
  - split; [exact Heq|]. rewrite Heq. reflexivity.
Defined.

(** The timer of a cycle reaches nothing: when the adapters take longer
    than the budget, [controller.abort()] runs, no request is cancelled,
    both adapters run to their end and the call resolves with the
    merged list as if there were no budget. *)
Lemma fetchCryptoNews_timer_inert env k s :
  news_miss s -> fault (env k) = None ->
  timer_fired 10000 (cycle_duration (env k)) = true ->
  fetchCryptoNews env k s =
    (Normal (mkNews (merged_news (env k))), after_cycle (env k) s) /\
  10000 <= clock (after_cycle (env k) s) - clock s /\
  EvAbort ∈ cycle_events (env k) /\
  (forall target, EvCancelled target ∉ cycle_events (env k)) /\
  EvSettled CryptoCompareNews ∈ cycle_events (env k) /\
  EvSettled CryptoPanicNews ∈ cycle_events (env k).
Proof.
  intros Hmiss Hfault Htimer. split; [by apply fetchCryptoNews_cycle|].
  assert (forall ev, ev ∈ cycle_events (env k) <->
            ev = EvFetch CryptoCompareNews \/ ev = EvFetch CryptoPanicNews \/
            ev = EvAbort \/ ev = EvSettled CryptoCompareNews \/
            ev = EvSettled CryptoPanicNews) as Hevents.
  { intros ev. unfold cycle_events, timeline. fold (cycle_duration (env k)).
    rewrite Htimer, elem_of_app, list_elem_of_fmap. split.
    - intros [Hf|(x & -> & Hx)].
      + rewrite !elem_of_cons, elem_of_nil in Hf. tauto.
      + apply sort_by_elem in Hx. simpl in Hx.
        rewrite !elem_of_cons, elem_of_nil in Hx.
        destruct Hx as [->|[->|[->|Hx]]]; simpl; tauto.
    - intros [->|[->|Hev]]; [left; rewrite !elem_of_cons; tauto..|]. right.
      destruct Hev as [->|[->| ->]]; eexists (_, _);
        (split; [reflexivity|]); apply sort_by_elem; simpl;
        rewrite !elem_of_cons; eauto. }
  split.
  { unfold after_cycle. simpl. unfold timer_fired in Htimer. apply Z.leb_le in Htimer. lia. }
  split_and!; try intros target; rewrite Hevents; intuition congruence.
Qed.

(** C2, the code at a failing input: CryptoCompare answers after 15 s.
    The 10 s timer runs [controller.abort()] but the call neither
    cancels the requests nor rejects: it resolves after 15 s with the
    merged list. *)
Lemma fetchCryptoNews_timeout_not_enforced :
  let env := Sample.completing [Sample.cc_item 1 1700000000] 15000 [] 100 in
  let s := initial_state 0 in
  exists item s',
    fetchCryptoNews env 0 s = (Normal (mkNews [item]), s') /\
    is_rejected (fst (fetchCryptoNews env 0 s)) = false /\
    clock s' = 15000 /\
    trace s' = [EvFetch CryptoCompareNews; EvFetch CryptoPanicNews;
                EvSettled CryptoPanicNews; EvAbort; EvSettled CryptoCompareNews].
Proof.
  intros env s.
  destruct (fetchCryptoNews_timer_inert env 0%nat s) as (Heq & _); [done..|].
  eexists _, _. rewrite Heq. repeat split.
Qed.

(** ** Sortedness *)

Lemma merged_news_sorted a : Forall dated (merged_news a) -> sorted_desc (merged_news a).
Proof.
  unfold merged_news. intros Hdated. apply sort_newest_first_sorted.
  by rewrite (sort_by_perm newest_first) in Hdated.
Qed.

Lemma after_cycle_sorted a s : cache_sorted (after_cycle a s).
Proof.
  intros entry [= <-]. apply merged_news_sorted.
Qed.

Lemma after_delay_sorted ms s : cache_sorted s -> cache_sorted (after_delay ms s).
Proof. done. Qed.

Lemma fetchCryptoNews_sorted env k s :
  cache_sorted s ->
  cache_sorted (snd (fetchCryptoNews env k s)) /\
  forall r, fst (fetchCryptoNews env k s) = Normal r ->
    Forall dated (Data r) -> sorted_desc (Data r).
Proof.
  remember (RATE_LIMIT.maxRetries - k)%nat as n eqn:Hn.
  revert k s Hn. induction n as [n IH] using lt_wf_ind. intros k s Hn Hsorted.
  destruct (fresh_hit NEWS_CACHE_DURATION (clock s) (newsCache s)) as [cached|] eqn:Hhit.
  { rewrite (fetchCryptoNews_hit _ _ _ cached) by done. split; [done|].
    intros r [= <-]. simpl.
    unfold fresh_hit in Hhit. destruct (newsCache s) as [entry|] eqn:Hcache; [|done].
    destruct (_ <? _); [|done]. injection Hhit as <-. by apply Hsorted. }
  destruct (fault (env k)) as [f|] eqn:Hfault.
  2: { rewrite fetchCryptoNews_cycle by done. split; [apply after_cycle_sorted|].
       intros r [= <-]. apply merged_news_sorted. }
  assert (fails_at env k) as Hfails by (apply fails_at_fault; eauto).
  destruct (decide (k < RATE_LIMIT.maxRetries)%nat) as [Hk|Hk].
  - rewrite fetchCryptoNews_retry by done.
    assert (RATE_LIMIT.maxRetries - S k < n)%nat as Hlt
      by (unfold RATE_LIMIT.maxRetries in *; lia).
    by apply (IH _ Hlt (S k) _ eq_refl), after_delay_sorted.
  - rewrite fetchCryptoNews_give_up by (done || lia). split; [done|].
    intros r [= <-]. simpl.
    destruct (newsCache s) as [entry|] eqn:Hcache; simpl; [by apply Hsorted | constructor].
Qed.

(** A list of two items or more that is newest first has no item
    without a date: such an item is neither before nor after another. *)
Lemma sorted_desc_dated l : sorted_desc l -> (2 <= length l)%nat -> Forall dated l.
Proof.
  unfold sorted_desc. induction 1 as [|x l Hl IH Hx]; simpl; [lia|]. intros Hlen.
  destruct l as [|y l]; [simpl in Hlen; lia|].
  assert (dated x) as Hdx.
  { apply Forall_inv in Hx. unfold newer_or_equal, dated in *.
    destruct (published_on x); [by eexists | by destruct (published_on y)]. }
  constructor; [done|].
  eapply Forall_impl; [exact Hx|]. intros z. unfold newer_or_equal, dated.
  destruct (published_on z); [by eexists | done].
Qed.

(** C4 as stated fails when a date is no number: CryptoPanic sends
    three entries and the [published_at] of the second does not parse.  The date of
    that item is [NaN], the comparator returns [NaN] for every pair it
    is part of, and the merged list keeps the item dated 1000 before
    the item dated 2000.  No arrangement of the three items is newest
    first, and the feed made of them is not either. *)
Lemma merged_list_with_unparsable_date_not_sorted :
  let env := Sample.completing [] 100
               [Sample.cp_item 1 1000000; Sample.cp_undated 2; Sample.cp_item 3 2000000]
               100 in
  exists r,
    fst (fetchCryptoNews env 0 (initial_state 0)) = Normal r /\
    published_on <$> Data r = [Some 1000; None; Some 2000] /\
    ~ sorted_desc (Data r) /\
    (forall l, l ≡ₚ Data r -> ~ sorted_desc l) /\
    feed_snapshot (setNews [] (Data r)) /\
    ~ sorted_desc (setNews [] (Data r)).
Proof.
  intros env. eexists. split; [vm_compute; reflexivity|]. split; [reflexivity|].
  match goal with
  | |- ~ sorted_desc ?data /\ _ =>
      assert (forall l, l ≡ₚ data -> ~ sorted_desc l) as Hnone
  end.
  { intros l Hperm Hsorted.
    apply sorted_desc_dated in Hsorted; [|rewrite Hperm; simpl; lia].
    rewrite Hperm in Hsorted.
    apply Forall_cons in Hsorted as [_ Hsorted].
    apply Forall_cons in Hsorted as [[t Ht] _]. discriminate Ht. }
  split_and!.
  - by apply Hnone.
  - exact Hnone.
  - apply feed_updated, feed_initial.
  - apply Hnone. unfold setNews. rewrite (sort_by_perm newest_first).
    by vm_compute.
Qed.

(** C4 (amended): a list merged by an aggregation cycle is newest
    first when the dates of its items are all numbers, whatever the
    adapters answered and whichever answered first (the latencies have
    no part in the result); so is every list [fetchCryptoNews] resolves
    with, the cached and the fallback lists included, and so is every
    value of the feed. *)
Theorem news_always_newest_first :
  (forall a, Forall dated (merged_news a) -> sorted_desc (merged_news a)) /\
  (forall a s, fault a = None ->
     aggregation_cycle a s = (Normal (mkNews (merged_news a)), after_cycle a s)) /\
  (forall a cc_ms cp_ms,
     merged_news (mkAttempt (fault a) (cc_upstream a) cc_ms (cp_upstream a) cp_ms (cp_fresh a))
     = merged_news a) /\
  (forall t0, cache_sorted (initial_state t0)) /\
  (forall env k s, cache_sorted s ->
     cache_sorted (snd (fetchCryptoNews env k s)) /\
     forall r, fst (fetchCryptoNews env k s) = Normal r ->
       Forall dated (Data r) -> sorted_desc (Data r)) /\
  (forall feed, feed_snapshot feed -> Forall dated feed -> sorted_desc feed).
Proof.
  split_and!.
  - apply merged_news_sorted.
  - intros a s. apply aggregation_cycle_completes.
  - reflexivity.
  - intros t0 entry. discriminate.
  - apply fetchCryptoNews_sorted.
  - apply feed_snapshot_sorted.
Qed.

(** The theorem at work: CryptoPanic answers first with the older item,
    CryptoCompare later with the newer one; the newer one comes first. *)
Lemma news_always_newest_first_witness :
  let env := Sample.completing [Sample.cc_item 1 2000] 900 [Sample.cp_item 2 1000000] 100 in
  exists r, fst (fetchCryptoNews env 0 (initial_state 0)) = Normal r /\
    Forall dated (Data r) /\
    sorted_desc (Data r) /\ published_on <$> Data r = [Some 2000; Some 1000].
Proof.
  intros env.
  destruct news_always_newest_first as (_ & _ & _ & Hinit & Hcall & _).
  destruct (Hcall env 0%nat (initial_state 0) (Hinit 0)) as [_ Hsorted].
  eexists. split; [vm_compute; reflexivity|].
  assert (Forall dated (merged_news (env 0%nat))) as Hdated
    by (repeat constructor; by eexists).
  split; [exact Hdated|].
  split; [apply Hsorted; [vm_compute; reflexivity | exact Hdated] | reflexivity].
Defined.

(** ** Isolation of the adapters *)

Lemma fetchCryptoCompareNews_null r entries :
  ok r = true -> json r = Normal (Items entries) -> None ∈ entries ->
  fetchCryptoCompareNews (Normal r) = Normal [].
Proof.
  intros Hok Hjson Hnull.
  unfold fetchCryptoCompareNews, validateResponse. simpl. rewrite Hok. simpl.
  rewrite Hjson. simpl.
  destruct (mapM normalizeCryptoCompare entries) as [l|e] eqn:Hmap; [|done].
  exfalso. clear Hjson. revert l Hmap.
  induction entries as [|entry entries IH]; intros l Hmap.
  - by apply elem_of_nil in Hnull.
  - apply elem_of_cons in Hnull as [<-|Hnull]; [discriminate|].
    simpl in Hmap. destruct (normalizeCryptoCompare entry); [|discriminate].
    destruct (mapM normalizeCryptoCompare entries) as [rest|] eqn:Hrest;
      simpl in Hmap; [|discriminate].
    by apply (IH Hnull rest).
Qed.

Lemma mapM_cc_normalised raws :
  exists items,
    mapM normalizeCryptoCompare (Some <$> raws) = Normal items /\
    Forall2 cc_normalised raws items.
Proof.
  induction raws as [|raw raws (items & Hitems & Hall)].
  - exists []. split; [done | constructor].
  - eexists (_ :: items). cbn [fmap list_fmap mapM]. split.
    + change (list_fmap _ _ Some raws) with (Some <$> raws). rewrite Hitems. reflexivity.
    + constructor; [by repeat split | done].
Qed.

Lemma fetchCryptoCompareNews_answered r raws :
  ok r = true -> json r = Normal (Items (Some <$> raws)) ->
  exists items,
    fetchCryptoCompareNews (Normal r) = Normal items /\ Forall2 cc_normalised raws items.
Proof.
  intros Hok Hjson. destruct (mapM_cc_normalised raws) as (items & Hitems & Hall).
  exists items. split; [|done].
  unfold fetchCryptoCompareNews, validateResponse. simpl. rewrite Hok. simpl.
  rewrite Hjson. simpl. by rewrite Hitems.
Qed.

Lemma normalizeCryptoPanic_readable fresh entry :
  cp_readable entry ->
  exists raw item,
    entry = Some raw /\ normalizeCryptoPanic fresh entry = Normal item /\
    cp_normalised fresh raw item /\
    is_Some (body item) /\
    JsString.startsWith "CryptoPanic - " (source item) = true /\
    reliability item = None /\ impact item = None.
Proof.
  intros (raw & -> & t & Ht). unfold normalizeCryptoPanic. rewrite Ht.
  eexists raw, _. split; [done|]. split; [reflexivity|].
  split_and!; try reflexivity; [|by eexists].
  unfold cp_normalised. simpl. split_and!; try reflexivity. by exists t.
Qed.

Lemma normalizeCryptoPanic_unreadable fresh entry :
  ~ cp_readable entry -> is_rejected (normalizeCryptoPanic fresh entry) = true.
Proof.
  intros Hbad. unfold normalizeCryptoPanic.
  destruct entry as [raw|]; [|done].
  destruct (cp_source_title raw) as [t|] eqn:Ht; [|done].
  exfalso. apply Hbad. exists raw. split; [done|]. by rewrite Ht.
Qed.

Lemma mapM_cp_readable fresh start entries :
  Forall cp_readable entries ->
  exists items,
    mapM (fun '(i, entry) => normalizeCryptoPanic (fresh i) entry)
         (zip (seq start (length entries)) entries) = Normal items /\
    length items = length entries /\
    forall i entry, entries !! i = Some entry ->
      exists item, items !! i = Some item /\
                   normalizeCryptoPanic (fresh (start + i)%nat) entry = Normal item.
Proof.
  intros Hall. revert start.
  induction Hall as [|entry entries Hentry Hall IH]; intros start.
  - exists []. split_and!; [done | done | intros i entry Hi; by rewrite lookup_nil in Hi].
  - destruct (normalizeCryptoPanic_readable (fresh start) entry Hentry)
      as (raw & item & -> & Hitem & _).
    destruct (IH (S start)) as (items & Hitems & Hlen & Hlookup).
    exists (item :: items). split_and!.
    + cbn [length seq zip zip_with mapM]. rewrite Hitem. cbn.
      change (zip_with pair (seq (S start) (length entries)) entries)
        with (zip (seq (S start) (length entries)) entries).
      by rewrite Hitems.
    + simpl. by rewrite Hlen.
    + intros [|i] e He; simpl in He.
      * injection He as <-. exists item. by rewrite Nat.add_0_r.
      * destruct (Hlookup i e He) as (x & Hx & Hnorm).
        exists x. split; [done|]. by replace (start + S i)%nat with (S start + i)%nat by lia.
Qed.

Lemma mapM_cp_unreadable fresh start entries :
  Exists (fun entry => ~ cp_readable entry) entries ->
  is_rejected (mapM (fun '(i, entry) => normalizeCryptoPanic (fresh i) entry)
                    (zip (seq start (length entries)) entries)) = true.
Proof.
  intros Hbad. revert start.
  induction Hbad as [entry entries Hentry | entry entries Hbad IH]; intros start;
    cbn [length seq zip zip_with mapM].
  - apply (normalizeCryptoPanic_unreadable (fresh start)) in Hentry.
    by destruct (normalizeCryptoPanic (fresh start) entry).
  - destruct (normalizeCryptoPanic (fresh start) entry); [|done]. cbn.
    specialize (IH (S start)).
    change (zip_with pair (seq (S start) (length entries)) entries)
      with (zip (seq (S start) (length entries)) entries).
    by destruct (mapM _ _).
Qed.

Lemma fetchCryptoPanicNews_answered r raws fresh :
  ok r = true -> json r = Normal (Items (Some <$> raws)) ->
  Forall (fun raw => is_Some (cp_source_title raw)) raws ->
  exists items,
    fetchCryptoPanicNews (Normal r) fresh = Normal items /\
    length items = length raws /\
    forall i raw, raws !! i = Some raw ->
      exists item, items !! i = Some item /\ cp_normalised (fresh i) raw item.
Proof.
  intros Hok Hjson Hall.
  assert (Forall cp_readable (Some <$> raws)) as Hreadable.
  { apply Forall_fmap. eapply Forall_impl; [exact Hall|]. intros raw Hraw. by exists raw. }
  destruct (mapM_cp_readable fresh 0 _ Hreadable) as (items & Hitems & Hlen & Hlookup).
  exists items. split_and!.
  - unfold fetchCryptoPanicNews, validateResponse, try_catch.
    cbn. rewrite Hok. cbn. rewrite Hjson. cbn. by rewrite Hitems.
  - by rewrite Hlen, length_fmap.
  - intros i raw Hi.
    destruct (Hlookup i (Some raw)) as (item & Hitem & Hnorm);
      [by rewrite list_lookup_fmap, Hi|].
    exists item. split; [done|].
    rewrite Forall_forall in Hreadable.
    destruct (normalizeCryptoPanic_readable (fresh i) (Some raw)) as
      (raw' & item' & [= <-] & Hnorm' & Hfields & _).
    { apply Hreadable, list_elem_of_fmap. exists raw. split; [done|].
      by eapply list_elem_of_lookup_2. }
    change (0 + i)%nat with i in Hnorm. by assert (item' = item) as <- by congruence.
Qed.

(** C6: however a provider's call fails (the request itself, a status
    that is no success, a body that cannot be parsed or has no array,
    or an exception while the entries are read), the adapter resolves,
    and with the empty list; a provider that answers with entries that
    can be read contributes one normalised item per entry, in order.
    So a cycle completes whatever the providers do, and when one of
    them fails the merged list is made of the items of the other, one
    per entry the other sent, none dropped and none added. *)
Theorem adapters_isolate_failures :
  (forall upstream, is_rejected (fetchCryptoCompareNews upstream) = false) /\
  (forall upstream fresh, is_rejected (fetchCryptoPanicNews upstream fresh) = false) /\
  (forall upstream, upstream_failure upstream ->
     fetchCryptoCompareNews upstream = Normal []) /\
  (forall upstream fresh, upstream_failure upstream ->
     fetchCryptoPanicNews upstream fresh = Normal []) /\
  (forall r entries, ok r = true -> json r = Normal (Items entries) -> None ∈ entries ->
     fetchCryptoCompareNews (Normal r) = Normal []) /\
  (forall r raws, ok r = true -> json r = Normal (Items (Some <$> raws)) ->
     exists items,
       fetchCryptoCompareNews (Normal r) = Normal items /\
       Forall2 cc_normalised raws items) /\
  (forall r raws fresh, ok r = true -> json r = Normal (Items (Some <$> raws)) ->
     Forall (fun raw => is_Some (cp_source_title raw)) raws ->
     exists items,
       fetchCryptoPanicNews (Normal r) fresh = Normal items /\
       length items = length raws /\
       forall i raw, raws !! i = Some raw ->
         exists item, items !! i = Some item /\ cp_normalised (fresh i) raw item) /\
  (forall env k s, news_miss s -> fault (env k) = None ->
     fst (fetchCryptoNews env k s) = Normal (mkNews (merged_news (env k)))) /\
  (forall a, upstream_failure (cc_upstream a) ->
     let survivors := contribution (fetchCryptoPanicNews (cp_upstream a) (cp_fresh a)) in
     merged_news a = sort_by newest_first survivors /\ merged_news a ≡ₚ survivors) /\
  (forall a, upstream_failure (cp_upstream a) ->
     let survivors := contribution (fetchCryptoCompareNews (cc_upstream a)) in
     merged_news a = sort_by newest_first survivors /\ merged_news a ≡ₚ survivors) /\
  (forall a r raws, upstream_failure (cp_upstream a) ->
     cc_upstream a = Normal r -> ok r = true -> json r = Normal (Items (Some <$> raws)) ->
     exists items,
       Forall2 cc_normalised raws items /\
       merged_news a = sort_by newest_first items /\ merged_news a ≡ₚ items) /\
  (forall a r raws, upstream_failure (cc_upstream a) ->
     cp_upstream a = Normal r -> ok r = true -> json r = Normal (Items (Some <$> raws)) ->
     Forall (fun raw => is_Some (cp_source_title raw)) raws ->
     exists items,
       length items = length raws /\
       (forall i raw, raws !! i = Some raw ->
          exists item, items !! i = Some item /\ cp_normalised (cp_fresh a i) raw item) /\
       merged_news a = sort_by newest_first items /\ merged_news a ≡ₚ items).
Proof.
  split_and!.
  - intros u. by rewrite fetchCryptoCompareNews_resolves.
  - intros u fresh. by rewrite fetchCryptoPanicNews_resolves.
  - apply @fetchCryptoCompareNews_failure.
  - apply @fetchCryptoPanicNews_failure.
  - apply fetchCryptoCompareNews_null.
  - apply fetchCryptoCompareNews_answered.
  - apply fetchCryptoPanicNews_answered.
  - intros env k s Hmiss Hfault. by rewrite fetchCryptoNews_cycle.
  - intros a Hfail. cbn zeta. unfold merged_news.
    rewrite (fetchCryptoCompareNews_failure _ Hfail). simpl.
    split; [done | apply sort_by_perm].
  - intros a Hfail. cbn zeta. unfold merged_news.
    rewrite (fetchCryptoPanicNews_failure _ _ Hfail). simpl. rewrite app_nil_r.
    split; [done | apply sort_by_perm].
  - intros a r raws Hfail Hup Hok Hjson.
    destruct (fetchCryptoCompareNews_answered r raws Hok Hjson) as (items & Hrun & Hall).
    exists items. split; [done|]. unfold merged_news.
    rewrite (fetchCryptoPanicNews_failure _ _ Hfail), Hup, Hrun. simpl. rewrite app_nil_r.
    split; [done | apply sort_by_perm].
  - intros a r raws Hfail Hup Hok Hjson Hreadable.
    destruct (fetchCryptoPanicNews_answered r raws (cp_fresh a) Hok Hjson Hreadable)
      as (items & Hrun & Hlen & Hlookup).
    exists items. split; [done|]. split; [done|]. unfold merged_news.
    rewrite (fetchCryptoCompareNews_failure _ Hfail), Hup, Hrun. simpl.
    split; [done | apply sort_by_perm].
Qed.

(** The theorem at work: CryptoCompare answers 503, CryptoPanic answers
    with one item. *)
Lemma adapters_isolate_failures_witness :
  let down : fetched (news_payload cc_raw) := Normal (mkResponse 503 (Throw (Error "no JSON"))) in
  let a := mkAttempt None down 40 (Sample.answers [Sample.cp_item 2 1000000]) 100
                     Sample.no_fresh in
  fetchCryptoCompareNews down = Normal [] /\
  exists item,
    merged_news a = [item] /\
    cp_normalised (Sample.no_fresh 0%nat) (Sample.cp_item 2 1000000) item /\
    id item = JsNum 2 /\ published_on item = Some 1000.
Proof.
  intros down a.
  destruct adapters_isolate_failures
    as (_ & _ & Hcc & _ & _ & _ & _ & _ & _ & _ & _ & Hmerge).
  assert (upstream_failure down) as Hdown by (by apply failure_status).
  split; [by apply Hcc|].
  destruct (Hmerge a _ [Sample.cp_item 2 1000000] Hdown eq_refl eq_refl eq_refl)
    as (items & Hlen & Hlookup & Hmerged & _).
  { repeat constructor. by eexists. }
  destruct (Hlookup 0%nat _ eq_refl) as (item & Hitem & Hnormalised).
  destruct items as [|x [|y items]]; try discriminate.
  injection Hitem as ->. exists item. split; [by rewrite Hmerged|].
  split; [exact Hnormalised|].
  destruct Hnormalised as (Hid & _ & _ & _ & Hdate & _). by rewrite Hid, Hdate.
Defined.

(** ** The news cache *)

(** Whatever path a call takes, when it resolves and leaves a cache
    entry behind, the list it resolved with is the cached one. *)
Lemma fetchCryptoNews_returns_cache env k s r s1 entry :
  fetchCryptoNews env k s = (Normal r, s1) ->
  newsCache s1 = Some entry -> r = mkNews (data entry).
Proof.
  remember (RATE_LIMIT.maxRetries - k)%nat as n eqn:Hn.
  revert k s Hn. induction n as [n IH] using lt_wf_ind. intros k s Hn.
  destruct (fresh_hit NEWS_CACHE_DURATION (clock s) (newsCache s)) as [cached|] eqn:Hhit.
  { rewrite (fetchCryptoNews_hit _ _ _ cached) by done. intros [= <- <-] Hentry.
    unfold fresh_hit in Hhit. rewrite Hentry in Hhit.
    destruct (_ <? _); by simplify_eq. }
  destruct (fault (env k)) as [f|] eqn:Hfault.
  2: { rewrite fetchCryptoNews_cycle by done. by intros [= <- <-] [= <-]. }
  assert (fails_at env k) as Hfails by (apply fails_at_fault; eauto).
  destruct (decide (k < RATE_LIMIT.maxRetries)%nat) as [Hk|Hk].
  - rewrite fetchCryptoNews_retry by done.
    assert (RATE_LIMIT.maxRetries - S k < n)%nat as Hlt
      by (unfold RATE_LIMIT.maxRetries in *; lia).
    by apply (IH _ Hlt (S k) _ eq_refl).
  - rewrite fetchCryptoNews_give_up by (done || lia).
    intros [= <- <-] Hentry. by rewrite Hentry.
Qed.

Lemma fresh_hit_Some {T} duration now (entry : cache_entry T) :
  now - timestamp entry < duration ->
  fresh_hit duration now (Some entry) = Some (data entry).
Proof.
  intros H. unfold fresh_hit. by destruct (Z.ltb_spec (now - timestamp entry) duration); [|lia].
Qed.

(** C7 as stated fails: the time to live runs from the moment the
    entry was written, not from the previous call.  A first cycle ends
    50 ms after the module was loaded; a call at 59 s is answered from
    its entry; the next call, 2 s later, finds the entry expired,
    invokes the adapters and resolves with another list. *)
Lemma second_call_after_expiry_refetches :
  let before := Sample.completing [Sample.cc_item 1 1000] 50 [] 50 in
  let after := Sample.completing [] 50 [] 50 in
  let s0 := snd (fetchCryptoNews before 0 (initial_state 0)) in
  let first := fetchCryptoNews after 0 (Sample.later 59000 s0) in
  let second := fetchCryptoNews after 0 (Sample.later 61000 (snd first)) in
  (exists item, fst first = Normal (mkNews [item])) /\
  trace (snd first) = trace s0 /\
  61000 - 59000 < NEWS_CACHE_DURATION /\
  fst second = Normal (mkNews []) /\
  trace (snd second) =
    trace s0 ++ [EvFetch CryptoCompareNews; EvFetch CryptoPanicNews;
                 EvSettled CryptoCompareNews; EvSettled CryptoPanicNews].
Proof. vm_compute. split_and!; try reflexivity. eexists. reflexivity. Qed.

(** C7 (amended): a call made less than 60 s after the time stamp of
    the cache entry returns the cached list at once and touches nothing
    (no adapter is invoked); so when a call resolves and leaves an
    entry behind, every later call made within 60 s of that entry's
    time stamp resolves with the same list.  A completed cycle stamps
    its entry when it ends: a second call that starts after the cycle
    ended and less than 60 s after it began is such a hit. *)
Theorem news_cache_hit_within_ttl :
  (forall env k s entry,
     newsCache s = Some entry -> clock s - timestamp entry < NEWS_CACHE_DURATION ->
     fetchCryptoNews env k s = (Normal (mkNews (data entry)), s)) /\
  (forall env k s r s1 entry env' k' s2,
     fetchCryptoNews env k s = (Normal r, s1) -> newsCache s1 = Some entry ->
     newsCache s2 = newsCache s1 ->
     clock s2 - timestamp entry < NEWS_CACHE_DURATION ->
     fetchCryptoNews env' k' s2 = (Normal r, s2)) /\
  (forall env k s env' k' s2,
     news_miss s -> fault (env k) = None ->
     let s1 := snd (fetchCryptoNews env k s) in
     newsCache s2 = newsCache s1 -> clock s1 <= clock s2 ->
     clock s2 - clock s < NEWS_CACHE_DURATION ->
     fetchCryptoNews env' k' s2 = (fst (fetchCryptoNews env k s), s2)).
Proof.
  assert (forall env k s entry,
     newsCache s = Some entry -> clock s - timestamp entry < NEWS_CACHE_DURATION ->
     fetchCryptoNews env k s = (Normal (mkNews (data entry)), s)) as Hhit.
  { intros env k s entry Hentry Hfresh. apply fetchCryptoNews_hit.
    rewrite Hentry. by apply fresh_hit_Some. }
  split_and!.
  - exact Hhit.
  - intros env k s r s1 entry env' k' s2 Hcall Hentry Hsame Hfresh.
    rewrite (fetchCryptoNews_returns_cache _ _ _ _ _ _ Hcall Hentry).
    apply Hhit; [congruence | done].
  - intros env k s env' k' s2 Hmiss Hfault. cbn zeta.
    rewrite fetchCryptoNews_cycle by done. simpl. intros Hsame Hafter Hfresh.
    rewrite (Hhit env' k' s2 _ Hsame); [done|]. simpl. lia.
Qed.

(** The theorem at work: a cycle that takes 900 ms, then a second call
    30 s after the first one began. *)
Lemma news_cache_hit_within_ttl_witness :
  let env := Sample.completing [Sample.cc_item 1 2000] 900 [] 100 in
  let s := initial_state 0 in
  let s1 := snd (fetchCryptoNews env 0 s) in
  let s2 := set_clock 30000 s1 in
  fetchCryptoNews (Sample.failing NotDefined) 0 s2 = (fst (fetchCryptoNews env 0 s), s2).
Proof.
  intros env s s1 s2.
  destruct news_cache_hit_within_ttl as (_ & _ & Htwo).
  apply (Htwo env 0%nat s); [reflexivity | reflexivity | reflexivity | |].
  - vm_compute. discriminate.
  - reflexivity.
Defined.

(** ** Identifiers in the feed *)

Lemma NoDup_fmap_eq {A B} (f : A -> B) (l : list A) x y :
  NoDup (f <$> l) -> x ∈ l -> y ∈ l -> f x = f y -> x = y.
Proof.
  induction l as [|z l IH]; simpl; intros Hnd Hx Hy Heq.
  - by apply elem_of_nil in Hx.
  - apply NoDup_cons in Hnd as [Hz Hnd].
    apply elem_of_cons in Hx as [->|Hx]; apply elem_of_cons in Hy as [->|Hy]; auto.
    + exfalso. apply Hz. rewrite Heq. by apply list_elem_of_fmap_2.
    + exfalso. apply Hz. rewrite <- Heq. by apply list_elem_of_fmap_2.
Qed.

(** C3 as stated fails for the aggregator: it concatenates and sorts,
    and two provider results that share an id are both in the merged
    list. *)
Lemma aggregator_keeps_duplicate_ids :
  let env := Sample.completing [Sample.cc_item 7 2000] 50 [Sample.cp_item 7 1000000] 50 in
  exists a b,
    fst (fetchCryptoNews env 0 (initial_state 0)) = Normal (mkNews [a; b]) /\
    id a = JsNum 7 /\ id b = JsNum 7 /\
    ~ NoDup (id <$> [a; b]).
Proof.
  eexists _, _. split_and!; [vm_compute; reflexivity | reflexivity | reflexivity |].
  intros Hnd. apply NoDup_cons in Hnd as [Hnot _]. apply Hnot. simpl. left.
Qed.

(** C3 (amended): the aggregator's merged list holds every item of
    both providers (it does not look at ids).  It is the feed that is
    reconciled by id: an id already in the feed keeps its position and
    gets the incoming entry (so the ids of the previous feed are a
    prefix of the new ones, before the sort), a new id is appended, the
    last entry of a chunk that carries an id is the one kept, entries
    whose id does not come again are kept, and ids stay unique; so in
    every value of the feed each id has exactly one entry. *)
Theorem feed_reconciled_by_id :
  (forall env k s, news_miss s -> fault (env k) = None ->
     fst (fetchCryptoNews env k s) = Normal (mkNews (merged_news (env k)))) /\
  (forall a,
     merged_news a ≡ₚ
       contribution (fetchCryptoCompareNews (cc_upstream a)) ++
       contribution (fetchCryptoPanicNews (cp_upstream a) (cp_fresh a))) /\
  (forall prev chunk, (id <$> prev) `prefix_of` (id <$> reconcile prev chunk)) /\
  (forall prev chunk i x, prev !! i = Some x ->
     exists y, reconcile prev chunk !! i = Some y /\ id y = id x) /\
  (forall prev chunk i,
     i ∈ id <$> setNews prev chunk <-> i ∈ id <$> prev \/ i ∈ id <$> chunk) /\
  (forall prev l1 item l2,
     id item ∉ id <$> l2 -> item ∈ setNews prev (l1 ++ item :: l2)) /\
  (forall prev chunk x, x ∈ prev -> id x ∉ id <$> chunk -> x ∈ setNews prev chunk) /\
  (forall prev chunk, NoDup (id <$> prev) -> NoDup (id <$> setNews prev chunk)) /\
  (forall feed, feed_snapshot feed -> NoDup (id <$> feed)) /\
  (forall feed x y, feed_snapshot feed -> x ∈ feed -> y ∈ feed -> id x = id y -> x = y).
Proof.
  split_and!.
  - intros env k s Hmiss Hfault. by rewrite fetchCryptoNews_cycle.
  - intros a. apply sort_by_perm.
  - apply reconcile_ids_prefix.
  - apply reconcile_in_place.
  - intros prev chunk i. unfold setNews.
    rewrite (sort_by_perm newest_first (reconcile prev chunk)).
    apply reconcile_ids_elem.
  - intros prev l1 item l2 Hid. apply sort_by_elem. by apply reconcile_last_wins.
  - intros prev chunk x Hx Hid. apply sort_by_elem.
    apply list_elem_of_lookup in Hx as [i Hi].
    eapply list_elem_of_lookup_2. by apply reconcile_lookup_other.
  - intros prev chunk Hnd. by apply sort_by_NoDup_ids, reconcile_NoDup.
  - apply feed_snapshot_NoDup.
  - intros feed x y Hfeed. apply NoDup_fmap_eq. by apply feed_snapshot_NoDup.
Qed.

(** ** Sentiment classifier *)

Lemma is_polar_valid s : valid_sentiment (if is_polar s then s else "NEUTRAL").
Proof.
  unfold is_polar, valid_sentiment. simpl.
  destruct (String.eqb_spec s "POSITIVE") as [->|_]; simpl; [auto|].
  destruct (String.eqb_spec s "NEGATIVE") as [->|_]; simpl; auto.
Qed.

(** A call that is no fresh hit and gets a reply with a text label. *)
Lemma analyzeSentiment_reply text call s r c :
  fresh_hit SENTIMENT_CACHE_DURATION (clock s) (sentimentCache s !! text) = None ->
  openai_upstream call = Normal r -> ok r = true -> json r = Normal (ContentText c) ->
  let raw := or_neutral (JsString.toUpperCase (JsString.trim c)) in
  let now := clock s + Z.of_N (openai_latency call) in
  analyzeSentiment text call s =
  (Normal (mkSentiment (if is_polar raw then raw else "NEUTRAL")),
   cache_sentiment text raw now
     (add_event (EvSettled OpenAI) (set_clock now (add_event (EvFetch OpenAI) s)))).
Proof.
  intros Hmiss Hup Hok Hjson. unfold analyzeSentiment.
  unfold mbind at 1 2, async_bind, date_now, read. cbn beta iota. rewrite Hmiss.
  unfold async_try_catch, mbind, async_bind, emit, elapse, modify, lift, mret, async_ret.
  simpl. rewrite Hup, Hok, Hjson. reflexivity.
Qed.

(** The value returned for a reply of the classifier itself is
    coerced: it is one of the three labels. *)
Lemma analyzeSentiment_reply_coerced text call s r c :
  fresh_hit SENTIMENT_CACHE_DURATION (clock s) (sentimentCache s !! text) = None ->
  openai_upstream call = Normal r -> ok r = true -> json r = Normal (ContentText c) ->
  exists label, fst (analyzeSentiment text call s) = Normal (mkSentiment label) /\
                valid_sentiment label.
Proof.
  intros Hmiss Hup Hok Hjson.
  rewrite (analyzeSentiment_reply _ _ _ r c) by done.
  eexists. split; [reflexivity | apply is_polar_valid].
Qed.

(** What the cache keeps of a reply is the label before coercion, and
    that is what a fresh hit returns. *)
Lemma analyzeSentiment_caches_raw_label text call s r c :
  fresh_hit SENTIMENT_CACHE_DURATION (clock s) (sentimentCache s !! text) = None ->
  openai_upstream call = Normal r -> ok r = true -> json r = Normal (ContentText c) ->
  let raw := or_neutral (JsString.toUpperCase (JsString.trim c)) in
  let s1 := snd (analyzeSentiment text call s) in
  sentimentCache s1 !! text = Some (mkEntry raw (clock s1)) /\
  forall call' s2,
    sentimentCache s2 !! text = sentimentCache s1 !! text ->
    clock s2 - clock s1 < SENTIMENT_CACHE_DURATION ->
    analyzeSentiment text call' s2 = (Normal (mkSentiment raw), s2).
Proof.
  intros Hmiss Hup Hok Hjson. cbn zeta.
  rewrite (analyzeSentiment_reply _ _ _ r c) by done. simpl.
  rewrite lookup_insert_eq. split; [done|].
  intros call' s2 Hsame Hfresh. unfold analyzeSentiment.
  unfold mbind at 1 2, async_bind, date_now, read. cbn beta iota.
  rewrite Hsame, fresh_hit_Some by done. reflexivity.
Qed.

(** The classifier call itself never rejects: its [catch] clause
    returns on every path. *)
Lemma analyzeSentiment_resolves text call s :
  is_rejected (fst (analyzeSentiment text call s)) = false.
Proof.
  unfold analyzeSentiment.
  unfold mbind at 1 2, async_bind, date_now, read. cbn beta iota.
  destruct (fresh_hit _ _ _); [done|].
  unfold async_try_catch.
  match goal with |- context [match ?body s with _ => _ end] => destruct (body s) as [[?|?] ?] end;
    reflexivity.
Qed.

(** C5, the code at a failing input: the classifier answers "bullish".
    The first call returns NEUTRAL but caches BULLISH; the second call,
    one second later, is answered from the cache with BULLISH, which is
    none of the three labels. *)
Lemma analyzeSentiment_cache_hit_not_coerced :
  let text := "Bitcoin to the moon" in
  let call := mkClassifierCall (Normal (mkResponse 200 (Normal (ContentText "bullish")))) 300 in
  let first := analyzeSentiment text call (initial_state 0) in
  let s1 := set_clock (clock (snd first) + 1000) (snd first) in
  let second := analyzeSentiment text call s1 in
  fst first = Normal (mkSentiment "NEUTRAL") /\
  fst second = Normal (mkSentiment "BULLISH") /\
  snd second = s1 /\
  ~ valid_sentiment "BULLISH".
Proof.
  split_and!; [vm_compute; reflexivity..|].
  intros [H|[H|H]]; discriminate.
Qed.

(** ** Enrichment *)

Lemma Qfloor_draw_bounds n r :
  0 < n -> unit_draw r -> 0 <= random_below n r < n.
Proof.
  intros Hn [Hlo Hhi]. unfold random_below.
  assert (0 <= r * inject_Z n)%Q as Hnonneg.
  { apply Qmult_le_0_compat; [done|]. change 0%Q with (inject_Z 0).
    rewrite <- Zle_Qle. lia. }
  assert (r * inject_Z n < inject_Z n)%Q as Hlt.
  { rewrite <- (Qmult_1_l (inject_Z n)) at 2.
    apply Qmult_lt_compat_r; [|done]. change 0%Q with (inject_Z 0).
    rewrite <- Zlt_Qlt. lia. }
  split.
  - change 0 with (Qfloor (inject_Z 0)) at 1. rewrite Qfloor_Z.
    rewrite <- (Qfloor_Z 0). by apply Qfloor_resp_le.
  - rewrite Zlt_Qlt. eapply Qle_lt_trans; [apply Qfloor_le | exact Hlt].
Qed.



(** The success path of the enrichment: the classifier answered and
    the item has a body. *)
Lemma enrich_success item response d b :
  body item = Some b ->
  enrich item (Normal response) d =
  Normal (with_scores item (content response)
            (reliability_rule (random_below 20 (draw_base d) + 75)
               (200 <? Z.of_nat (String.length b))
               (JsString.includes (source item) "CryptoCompare"))
            (derive_impact item (content response))).
Proof.
  intros Hbody. unfold enrich, derive_reliability, reliability_rule. rewrite Hbody. simpl.
  do 2 f_equal.
  destruct (200 <? Z.of_nat (String.length b));
    destruct (JsString.includes (source item) "CryptoCompare"); f_equal; lia.
Qed.

(** The failure path: the classifier's promise was rejected, or the
    item has no body to measure. *)
Lemma enrich_failure item classified d :
  (exists e, classified = Throw e) \/ body item = None ->
  enrich item classified d =
  Normal (with_scores item "NEUTRAL" (random_below 15 (draw_fallback d) + 70)
            (if Qlt_le_dec (7 # 10) (draw_high d) then High
             else if Qlt_le_dec (1 # 2) (draw_medium d) then Medium
             else Low)).
Proof.
  unfold enrich, derive_reliability.
  intros [[e ->] | Hbody]; [done|].
  destruct classified; [|done]. simpl. by rewrite Hbody.
Qed.




(** C9: the enrichment of an item always yields an item with an
    integer reliability.  On the success path it is a base in [75,95)
    plus 5 when the body is longer than 200 characters plus 5 when the
    source label names the trusted provider (which every item of the
    CryptoCompare adapter does), capped at 100, hence between 75 and
    100; when the enrichment of the item fails it is a fallback value
    in [70,85). *)
Theorem reliability_ranges (item : NewsItem)
    (classified : completion sentiment_response) (d : enrich_draws) :
  unit_draw (draw_base d) -> unit_draw (draw_fallback d) ->
  exists enriched value,
    enrich item classified d = Normal enriched /\
    reliability enriched = Some value /\
    match classified, body item with
    | Normal _, Some b =>
        exists base, 75 <= base < 95 /\
          value = reliability_rule base (200 <? Z.of_nat (String.length b))
                    (JsString.includes (source item) "CryptoCompare") /\
          75 <= value <= 100
    | _, _ => 70 <= value < 85
    end /\
    forall raw trusted, normalizeCryptoCompare (Some raw) = Normal trusted ->
      JsString.includes (source trusted) "CryptoCompare" = true.
Proof.
  intros Hbase Hfallback.
  pose proof (Qfloor_draw_bounds 20 _ ltac:(lia) Hbase) as Hb.
  pose proof (Qfloor_draw_bounds 15 _ ltac:(lia) Hfallback) as Hf.
  assert (forall raw trusted, normalizeCryptoCompare (Some raw) = Normal trusted ->
            JsString.includes (source trusted) "CryptoCompare" = true) as Htrusted.
  { intros raw trusted [= <-]. reflexivity. }
  destruct classified as [response|e]; [destruct (body item) as [b|] eqn:Hbody|].
  - rewrite (enrich_success _ _ _ b Hbody).
    eexists _, _. do 2 (split; [reflexivity|]). split; [|exact Htrusted].
    exists (random_below 20 (draw_base d) + 75). split; [lia|]. split; [done|].
    unfold reliability_rule.
    destruct (200 <? Z.of_nat (String.length b));
      destruct (JsString.includes (source item) "CryptoCompare"); lia.
  - rewrite enrich_failure by auto.
    eexists _, _. do 2 (split; [reflexivity|]). split; [simpl; lia | exact Htrusted].
  - rewrite enrich_failure by eauto.
    eexists _, _. do 2 (split; [reflexivity|]). split; [simpl; lia | exact Htrusted].
Qed.

(** The theorem at work: a long CryptoCompare item with the highest
    base gets 100. *)
Lemma reliability_ranges_witness :
  let item := mkNewsItem (JsNum 1) "Bitcoin" "" "CryptoCompare - CoinDesk" (Some 0) ""
                (Some (String.concat "" (repeat "0123456789" 21))) None None None None in
  let d := mkEnrichDraws (99 # 100) (1 # 2) 0 0 in
  exists enriched,
    enrich item (Normal (mkSentiment "POSITIVE")) d = Normal enriched /\
    reliability enriched = Some 100.
Proof.
  intros item d.
  destruct (reliability_ranges item (Normal (mkSentiment "POSITIVE")) d)
    as (enriched & value & Henrich & Hvalue & _).
  - split; [discriminate | reflexivity].
  - split; [discriminate | reflexivity].
  - exists enriched. split; [exact Henrich|].
    vm_compute in Henrich. injection Henrich as <-. reflexivity.
Defined.

(** ** Market snapshot *)

Ltac run_async :=
  unfold cache_market, delay;
  unfold mbind, async_bind, mret, async_ret, emit, elapse, modify, lift, throw,
         date_now, read;
  cbn beta iota.

(** The rate limiter never throws, leaves the market cache alone and
    can only let time pass. *)
Lemma checkRateLimit_run s :
  exists s', checkRateLimit s = (Normal tt, s') /\
             marketDataCache s' = marketDataCache s /\
             clock s <= clock s'.
Proof.
  unfold checkRateLimit. run_async.
  destruct (RATE_LIMIT.timeWindow <? clock s - lastRequestTime s); cbn.
  all: repeat match goal with
       | |- context [if ?b then _ else _] => destruct b; cbn
       end.
  all: eexists; split; [reflexivity|]; cbn; split; [reflexivity | lia].
Qed.

(** Enters [fetchMarketData] on a miss, up to the request. *)
Ltac enter_fetchMarketData Hmiss s0 Hcache Hclock :=
  let Hrl := fresh "Hrl" in
  match goal with
  | |- context [fetchMarketData _ _ ?s] =>
      destruct (checkRateLimit_run s) as (s0 & Hrl & Hcache & Hclock);
      unfold fetchMarketData;
      unfold mbind at 1 2, async_bind, date_now, read; cbn beta iota;
      unfold market_miss in Hmiss; rewrite Hmiss;
      unfold async_try_catch, async_try_finally; cbn zeta;
      unfold mbind at 1, async_bind; rewrite Hrl;
      unfold fetch_coingecko
  end.

Lemma fetchMarketData_hit symbol call s entry :
  marketDataCache s = Some entry ->
  clock s - timestamp entry < MARKET_DATA_CACHE_DURATION ->
  fetchMarketData symbol call s = (Normal (data entry), s).
Proof.
  intros Hentry Hfresh. unfold fetchMarketData.
  unfold mbind at 1 2, async_bind, date_now, read. cbn beta iota.
  rewrite Hentry, fresh_hit_Some by done. reflexivity.
Qed.

Lemma serves_as_fresh_intro snapshot s :
  marketDataCache s = Some (mkEntry snapshot (clock s)) -> serves_as_fresh snapshot s.
Proof.
  intros Hentry. split; [exact Hentry|].
  intros symbol call s2 Hsame Hfresh.
  apply (fetchMarketData_hit symbol call s2 (mkEntry snapshot (clock s))); [congruence | done].
Qed.

Lemma ok_not_429 {P} (r : response P) : ok r = true -> (status r =? 429) = false.
Proof. unfold ok. intros H. apply Z.eqb_neq. lia. Qed.

Lemma fetchMarketData_rate_limited symbol call s :
  market_miss s -> market_rate_limited call ->
  exists s', fetchMarketData symbol call s = (Normal (mock_snapshot (mock call)), s') /\
             serves_as_fresh (mock_snapshot (mock call)) s' /\ clock s <= clock s'.
Proof.
  intros Hmiss (Htimer & r & Hup & Hstatus).
  enter_fetchMarketData Hmiss s0 Hcache Hclock. rewrite Htimer.
  run_async. rewrite Hup. cbn beta iota. rewrite Hstatus. cbn.
  eexists. split_and!; [reflexivity | by apply serves_as_fresh_intro | cbn; lia].
Qed.

Lemma fetchMarketData_malformed symbol call s :
  market_miss s -> market_malformed call ->
  exists s', fetchMarketData symbol call s = (Normal (mock_snapshot (mock call)), s') /\
             serves_as_fresh (mock_snapshot (mock call)) s' /\ clock s <= clock s'.
Proof.
  intros Hmiss (Htimer & r & Hup & Hok & Hjson).
  enter_fetchMarketData Hmiss s0 Hcache Hclock. rewrite Htimer.
  unfold validateResponse.
  run_async. rewrite Hup. cbn beta iota. rewrite (ok_not_429 r Hok), Hok, Hjson. cbn.
  eexists. split_and!; [reflexivity | by apply serves_as_fresh_intro | cbn; lia].
Qed.

Lemma fetchMarketData_answered symbol call s usd vol cap change :
  market_miss s -> market_answered call usd vol cap change ->
  exists s', fetchMarketData symbol call s =
               (Normal (real_snapshot call usd vol cap change), s') /\
             serves_as_fresh (real_snapshot call usd vol cap change) s' /\
             clock s <= clock s'.
Proof.
  intros Hmiss (Htimer & r & Hup & Hok & Hjson).
  enter_fetchMarketData Hmiss s0 Hcache Hclock. rewrite Htimer.
  unfold validateResponse.
  run_async. rewrite Hup. cbn beta iota. rewrite (ok_not_429 r Hok), Hok, Hjson. cbn.
  eexists. split_and!; [reflexivity | by apply serves_as_fresh_intro | cbn; lia].
Qed.

(** On the failures that reach the [catch] clause, the body of the
    [try] has not written the cache, and the clause decides on what
    the cache holds. *)
Lemma fetchMarketData_caught symbol call s :
  market_miss s -> market_failure call ->
  exists s0, clock s <= clock s0 /\
    fetchMarketData symbol call s =
    match marketDataCache s with
    | Some entry => (Normal (data entry), s0)
    | None =>
        (Normal (mock_snapshot (fallback call)),
         set_marketDataCache (Some (mkEntry (mock_snapshot (fallback call)) (clock s0))) s0)
    end /\
    marketDataCache s0 = marketDataCache s.
Proof.
  intros Hmiss Hfail.
  enter_fetchMarketData Hmiss s0 Hcache Hclock.
  destruct Hfail as [Htimer | e Htimer Hup | r Htimer Hup H429 Hok | r e Htimer Hup Hok Hjson];
    rewrite Htimer; unfold validateResponse; run_async.
  - cbn. rewrite Hcache.
    eexists. split; [|split; [destruct (marketDataCache s); reflexivity | cbn; exact Hcache]].
    cbn. lia.
  - rewrite Hup. cbn. rewrite Hcache.
    eexists. split; [|split; [destruct (marketDataCache s); reflexivity | cbn; exact Hcache]].
    cbn. lia.
  - rewrite Hup. cbn beta iota. apply Z.eqb_neq in H429. rewrite H429, Hok. cbn.
    rewrite Hcache.
    eexists. split; [|split; [destruct (marketDataCache s); reflexivity | cbn; exact Hcache]].
    cbn. lia.
  - rewrite Hup. cbn beta iota. rewrite (ok_not_429 r Hok), Hok, Hjson. cbn.
    rewrite Hcache.
    eexists. split; [|split; [destruct (marketDataCache s); reflexivity | cbn; exact Hcache]].
    cbn. lia.
Qed.

(** C10 as stated fails on the failures that reach the [catch] clause
    when the cache holds an older snapshot.  Real data is cached at
    200 ms; at 40 s the entry has expired and the request fails with a
    network error: the call returns the real snapshot and writes
    nothing, so the entry stays expired and the next call, one second
    later, sends a request again. *)
Lemma network_error_keeps_stale_snapshot :
  let s0 := snd (fetchMarketData "bitcoin" Sample.answered_call (initial_state 0)) in
  let first := fetchMarketData "bitcoin" Sample.network_down_call (Sample.later 40000 s0) in
  let second :=
    fetchMarketData "bitcoin" Sample.network_down_call (Sample.later 41000 (snd first)) in
  marketDataCache s0 = Some (mkEntry Sample.real_data 200) /\
  fst first = Normal Sample.real_data /\
  marketDataCache (snd first) = Some (mkEntry Sample.real_data 200) /\
  trace (snd first) = trace s0 ++ [EvFetch CoinGeckoPrice; EvSettled CoinGeckoPrice] /\
  trace (snd second) = trace (snd first) ++ [EvFetch CoinGeckoPrice; EvSettled CoinGeckoPrice].
Proof. vm_compute. split_and!; reflexivity. Qed.

(** C10 (amended): a call of [fetchMarketData] that is no cache hit and
    fails caches made-up data as if it were real.  On a 429 and on a
    body without the coin it writes the mock snapshot with the current
    time, whatever the cache held; on the failures that reach the
    [catch] clause (network error, timeout, another error status, a
    body that cannot be parsed) it writes the fallback snapshot with
    the current time when the cache is empty, and returns the older
    snapshot, leaving the cache as it is, when there is one.  What was
    written is served as a fresh hit, without a request, to every call
    of the next 30 s, exactly as a snapshot built from real data is. *)
Theorem market_failures_cache_mock_data (symbol : string) (call : market_call)
    (s : api_state) :
  market_miss s ->
  (market_rate_limited call \/ market_malformed call ->
     exists s', fetchMarketData symbol call s = (Normal (mock_snapshot (mock call)), s') /\
                serves_as_fresh (mock_snapshot (mock call)) s' /\ clock s <= clock s') /\
  (market_failure call -> marketDataCache s = None ->
     exists s', fetchMarketData symbol call s = (Normal (mock_snapshot (fallback call)), s') /\
                serves_as_fresh (mock_snapshot (fallback call)) s' /\ clock s <= clock s') /\
  (market_failure call -> forall entry, marketDataCache s = Some entry ->
     exists s', fetchMarketData symbol call s = (Normal (data entry), s') /\
                marketDataCache s' = Some entry) /\
  (forall usd vol cap change, market_answered call usd vol cap change ->
     exists s', fetchMarketData symbol call s =
                  (Normal (real_snapshot call usd vol cap change), s') /\
                serves_as_fresh (real_snapshot call usd vol cap change) s' /\
                clock s <= clock s').
Proof.
  intros Hmiss. split_and!.
  - intros [H|H].
    + by apply fetchMarketData_rate_limited.
    + by apply fetchMarketData_malformed.
  - intros Hfail Hempty.
    destruct (fetchMarketData_caught symbol call s Hmiss Hfail) as (s0 & Hclock & Hrun & Hcache).
    rewrite Hempty in Hrun. eexists. split; [exact Hrun|].
    split; [by apply serves_as_fresh_intro | exact Hclock].
  - intros Hfail entry Hentry.
    destruct (fetchMarketData_caught symbol call s Hmiss Hfail) as (s0 & Hclock & Hrun & Hcache).
    rewrite Hentry in Hrun. eexists. split; [exact Hrun | congruence].
  - intros usd vol cap change. by apply fetchMarketData_answered.
Qed.

(** The theorem at work: real data is cached at 200 ms; at 40 s the
    entry has expired and CoinGecko answers 429: the mock snapshot
    replaces the real one and answers the call made 10 s later. *)
Lemma market_failures_cache_mock_data_witness :
  let s0 := snd (fetchMarketData "bitcoin" Sample.answered_call (initial_state 0)) in
  let s := Sample.later 40000 s0 in
  let call := Sample.rate_limited_call in
  let fabricated := mock_snapshot (mock call) in
  exists s',
    marketDataCache s = Some (mkEntry Sample.real_data 200) /\
    fetchMarketData "bitcoin" call s = (Normal fabricated, s') /\
    fabricated <> Sample.real_data /\
    fetchMarketData "bitcoin" Sample.network_down_call (Sample.later (clock s' + 10000) s')
      = (Normal fabricated, Sample.later (clock s' + 10000) s').
Proof.
  intros s0 s call fabricated.
  destruct (market_failures_cache_mock_data "bitcoin" call s) as (Hmock & _).
  { reflexivity. }
  destruct Hmock as (s' & Hrun & [Hentry Hserve] & _).
  { left. split; [reflexivity|]. eexists. split; reflexivity. }
  exists s'. split; [reflexivity|]. split; [exact Hrun|]. split; [discriminate|].
  apply Hserve; [reflexivity | simpl; unfold MARKET_DATA_CACHE_DURATION; lia].
Defined.

(** The theorem on the feed at work: a feed of two items gets a chunk
    that brings item 2 twice and a new item 3. *)
Lemma feed_reconciled_by_id_witness :
  let feed := setNews [] [Sample.scored 1 300 "NEUTRAL"; Sample.scored 2 200 "NEUTRAL"] in
  let chunk := [Sample.scored 2 200 "POSITIVE"; Sample.scored 3 100 "NEUTRAL";
                Sample.scored 2 200 "NEGATIVE"] in
  NoDup (id <$> setNews feed chunk) /\
  Sample.scored 2 200 "NEGATIVE" ∈ setNews feed chunk /\
  Sample.scored 1 300 "NEUTRAL" ∈ setNews feed chunk /\
  id <$> setNews feed chunk = [JsNum 1; JsNum 2; JsNum 3].
Proof.
  intros feed chunk.
  destruct feed_reconciled_by_id as (_ & _ & _ & _ & _ & Hlast & Hkept & _ & Hnodup & _).
  split_and!.
  - apply Hnodup. subst feed. repeat constructor.
  - apply (Hlast feed [Sample.scored 2 200 "POSITIVE"; Sample.scored 3 100 "NEUTRAL"]
             (Sample.scored 2 200 "NEGATIVE") []).
    apply not_elem_of_nil.
  - apply Hkept.
    + vm_compute. apply list_elem_of_here.
    + intros H. cbn in H.
      repeat (apply elem_of_cons in H as [H|H]; [discriminate H|]).
      by apply elem_of_nil in H.
  - reflexivity.
Defined.

(** * Further properties of the code *)

(** ** Rate limiter *)

(** X1: the limiter keeps the count of a window within the quota.  From
    a state whose count is within the quota, a call never throws and
    leaves a count between 1 and [maxRequests]; the one exception is a
    call made with the quota used up exactly [timeWindow] ms after the
    window began (see below). *)
Theorem checkRateLimit_keeps_quota (s : api_state) :
  0 <= requestCount s <= RATE_LIMIT.maxRequests ->
  requestCount s < RATE_LIMIT.maxRequests \/
    clock s - lastRequestTime s <> RATE_LIMIT.timeWindow ->
  fst (checkRateLimit s) = Normal tt /\
  1 <= requestCount (snd (checkRateLimit s)) <= RATE_LIMIT.maxRequests.
Proof.
  unfold RATE_LIMIT.maxRequests, RATE_LIMIT.timeWindow. intros Hcount Hedge.
  unfold checkRateLimit. run_async.
  unfold RATE_LIMIT.maxRequests, RATE_LIMIT.timeWindow.
  destruct (Z.ltb_spec 60000 (clock s - lastRequestTime s)); cbn.
  - split; [reflexivity | lia].
  - destruct (Z.leb_spec 10 (requestCount s)); cbn.
    + destruct (Z.ltb_spec 0 (60000 - (clock s - lastRequestTime s))); cbn.
      * split; [reflexivity | lia].
      * lia.
    + split; [reflexivity | lia].
Qed.

Lemma checkRateLimit_keeps_quota_witness :
  let s := mkState 5000 None ∅ None 10 1000 [] in
  fst (checkRateLimit s) = Normal tt /\
  1 <= requestCount (snd (checkRateLimit s)) <= RATE_LIMIT.maxRequests.
Proof.
  apply checkRateLimit_keeps_quota.
  - unfold RATE_LIMIT.maxRequests. simpl. lia.
  - right. unfold RATE_LIMIT.timeWindow. simpl. lia.
Defined.

(** X2: with the quota used up inside the window, the call waits for
    what is left of the window, not a millisecond more, and opens a new
    window with itself as the first request: it resumes exactly
    [timeWindow] ms after the old window began. *)
Theorem checkRateLimit_waits_for_window_end (s : api_state) :
  RATE_LIMIT.maxRequests <= requestCount s ->
  0 <= clock s - lastRequestTime s < RATE_LIMIT.timeWindow ->
  let s' := snd (checkRateLimit s) in
  trace s' = trace s ++ [EvDelay (RATE_LIMIT.timeWindow - (clock s - lastRequestTime s))] /\
  clock s' = lastRequestTime s + RATE_LIMIT.timeWindow /\
  lastRequestTime s' = clock s' /\
  requestCount s' = 1.
Proof.
  unfold RATE_LIMIT.maxRequests, RATE_LIMIT.timeWindow. intros Hcount Hwindow.
  unfold checkRateLimit. run_async.
  unfold RATE_LIMIT.maxRequests, RATE_LIMIT.timeWindow.
  destruct (Z.ltb_spec 60000 (clock s - lastRequestTime s)); [lia|]. cbn.
  destruct (Z.leb_spec 10 (requestCount s)); [|lia]. cbn.
  destruct (Z.ltb_spec 0 (60000 - (clock s - lastRequestTime s))); [|lia]. cbn.
  split_and!; try reflexivity. rewrite Z2N.id by lia. lia.
Qed.

Lemma checkRateLimit_waits_for_window_end_witness :
  let s := mkState 45000 None ∅ None 10 1000 [] in
  let s' := snd (checkRateLimit s) in
  trace s' = [EvDelay 16000] /\ clock s' = 61000 /\ lastRequestTime s' = clock s' /\
  requestCount s' = 1.
Proof.
  apply (checkRateLimit_waits_for_window_end (mkState 45000 None ∅ None 10 1000 []));
    unfold RATE_LIMIT.maxRequests, RATE_LIMIT.timeWindow; simpl; lia.
Defined.

(** X3: below the quota, or once the window is over, the call is
    granted at once: no delay, the clock does not move; a window that
    is over is replaced by a new one that starts now. *)
Theorem checkRateLimit_grants_at_once (s : api_state) :
  requestCount s < RATE_LIMIT.maxRequests \/
    RATE_LIMIT.timeWindow < clock s - lastRequestTime s ->
  let s' := snd (checkRateLimit s) in
  trace s' = trace s /\ clock s' = clock s /\
  (if RATE_LIMIT.timeWindow <? clock s - lastRequestTime s
   then requestCount s' = 1 /\ lastRequestTime s' = clock s
   else requestCount s' = requestCount s + 1 /\ lastRequestTime s' = lastRequestTime s).
Proof.
  unfold RATE_LIMIT.maxRequests, RATE_LIMIT.timeWindow. intros Hfree.
  unfold checkRateLimit. run_async.
  unfold RATE_LIMIT.maxRequests, RATE_LIMIT.timeWindow.
  destruct (Z.ltb_spec 60000 (clock s - lastRequestTime s)); cbn.
  - split_and!; reflexivity.
  - destruct (Z.leb_spec 10 (requestCount s)); [lia|]. cbn. split_and!; reflexivity.
Qed.

Lemma checkRateLimit_grants_at_once_witness :
  let s := mkState 70000 None ∅ None 10 1000 [] in
  let s' := snd (checkRateLimit s) in
  trace s' = [] /\ clock s' = 70000 /\ requestCount s' = 1 /\ lastRequestTime s' = 70000.
Proof.
  destruct (checkRateLimit_grants_at_once (mkState 70000 None ∅ None 10 1000 []))
    as (Ht & Hc & Hr).
  - right. unfold RATE_LIMIT.timeWindow. simpl. lia.
  - cbn zeta. split_and!; [exact Ht | exact Hc | apply Hr | apply Hr].
Defined.

(** X4: the boundary the quota misses.  A call made with the quota used
    up exactly [timeWindow] ms after the window began is neither
    delayed nor counted in a new window (the reset asks for more than
    [timeWindow] ms, the wait for less): it is granted at once and the
    count goes over the quota. *)
Theorem checkRateLimit_boundary_overshoots (s : api_state) :
  RATE_LIMIT.maxRequests <= requestCount s ->
  clock s - lastRequestTime s = RATE_LIMIT.timeWindow ->
  let s' := snd (checkRateLimit s) in
  trace s' = trace s /\ clock s' = clock s /\
  lastRequestTime s' = lastRequestTime s /\
  requestCount s' = requestCount s + 1 /\
  RATE_LIMIT.maxRequests < requestCount s'.
Proof.
  unfold RATE_LIMIT.maxRequests, RATE_LIMIT.timeWindow. intros Hcount Hedge.
  unfold checkRateLimit. run_async.
  unfold RATE_LIMIT.maxRequests, RATE_LIMIT.timeWindow.
  destruct (Z.ltb_spec 60000 (clock s - lastRequestTime s)); [lia|]. cbn.
  destruct (Z.leb_spec 10 (requestCount s)); [|lia]. cbn.
  destruct (Z.ltb_spec 0 (60000 - (clock s - lastRequestTime s))); [lia|]. cbn.
  split_and!; (reflexivity || lia).
Qed.

Lemma checkRateLimit_boundary_overshoots_witness :
  let s := mkState 61000 None ∅ None 10 1000 [] in
  requestCount (snd (checkRateLimit s)) = 11 /\ trace (snd (checkRateLimit s)) = [].
Proof.
  destruct (checkRateLimit_boundary_overshoots (mkState 61000 None ∅ None 10 1000 []))
    as (Ht & _ & _ & Hr & _).
  - unfold RATE_LIMIT.maxRequests. simpl. lia.
  - reflexivity.
  - cbn zeta. split; [exact Hr | exact Ht].
Defined.

(** ** Market snapshot *)

(** X5: [fetchMarketData] never rejects: whatever the rate limiter,
    the network and the body do, the call resolves with a snapshot. *)
Theorem fetchMarketData_resolves (symbol : string) (call : market_call) (s : api_state) :
  is_rejected (fst (fetchMarketData symbol call s)) = false.
Proof.
  unfold fetchMarketData.
  unfold mbind at 1 2, async_bind, date_now, read. cbn beta iota.
  destruct (fresh_hit _ _ _); [done|].
  unfold async_try_catch.
  match goal with
  | |- context [match ?body s with _ => _ end] => destruct (body s) as [[snapshot|e] s0]
  end; [reflexivity|].
  run_async. destruct (marketDataCache s0); reflexivity.
Qed.

(** X6: the market cache is not keyed by the symbol.  Once a call for
    one symbol has cached its answer, a call for any other symbol made
    within the time to live is answered with that snapshot, without a
    request. *)
Theorem market_cache_ignores_symbol (symbol other : string) (call call' : market_call)
    (s s2 : api_state) (usd vol cap change : option Q) :
  market_miss s -> market_answered call usd vol cap change ->
  let s1 := snd (fetchMarketData symbol call s) in
  marketDataCache s2 = marketDataCache s1 ->
  clock s2 - clock s1 < MARKET_DATA_CACHE_DURATION ->
  fetchMarketData other call' s2 = (fst (fetchMarketData symbol call s), s2) /\
  fst (fetchMarketData symbol call s) = Normal (real_snapshot call usd vol cap change).
Proof.
  intros Hmiss Hanswered. cbn zeta.
  destruct (fetchMarketData_answered symbol call s usd vol cap change Hmiss Hanswered)
    as (s1 & Hrun & [_ Hserve] & _).
  rewrite Hrun. simpl. intros Hsame Hfresh. split; [by apply Hserve | reflexivity].
Qed.

Lemma market_cache_ignores_symbol_witness :
  let s1 := snd (fetchMarketData "bitcoin" Sample.answered_call (initial_state 0)) in
  fetchMarketData "ethereum" Sample.network_down_call (Sample.later 20000 s1) =
  (Normal Sample.real_data, Sample.later 20000 s1).
Proof.
  intros s1.
  destruct (market_cache_ignores_symbol "bitcoin" "ethereum" Sample.answered_call
              Sample.network_down_call (initial_state 0) (Sample.later 20000 s1)
              (Some (inject_Z 67000)) (Some (inject_Z 30000000000))
              (Some (inject_Z 1300000000000)) (Some (12 # 10))) as [Hrun _].
  - reflexivity.
  - split; [reflexivity|]. eexists. split_and!; reflexivity.
  - reflexivity.
  - reflexivity.
  - rewrite Hrun. reflexivity.
Defined.

Lemma centred_draw_range (centre width r : Q) :
  (0 < width)%Q -> unit_draw r ->
  (centre - width * (1 # 2) <= centre + (r - half) * width)%Q /\
  (centre + (r - half) * width < centre + width * (1 # 2))%Q.
Proof.
  unfold unit_draw, half. intros Hw [Hlo Hhi]. split; nra.
Qed.

(** X7: the made-up snapshots look plausible by construction: for draws
    in [0,1) the price is between 44500 and 45500, the volume between
    22.5e9 and 27.5e9, the market cap between 845e9 and 855e9, the
    dominance between 44.5 and 46.5 and the change between 2 and 3,
    ends included. *)
Theorem mock_snapshot_ranges (r : mock_draws) :
  unit_draw (draw_price r) -> unit_draw (draw_volume r) -> unit_draw (draw_cap r) ->
  unit_draw (draw_dominance r) -> unit_draw (draw_change r) ->
  let m := mock_snapshot r in
  (inject_Z 44500 <= price m /\ price m <= inject_Z 45500)%Q /\
  (inject_Z 22500000000 <= volume24h m /\ volume24h m <= inject_Z 27500000000)%Q /\
  (inject_Z 845000000000 <= marketCap m /\ marketCap m <= inject_Z 855000000000)%Q /\
  (445 # 10 <= dominance m /\ dominance m <= 465 # 10)%Q /\
  (2 <= change24h m /\ change24h m <= 3)%Q.
Proof.
  unfold unit_draw, mock_snapshot, half, inject_Z. simpl.
  intros [? ?] [? ?] [? ?] [? ?] [? ?]. repeat split; lra.
Qed.

Lemma mock_snapshot_ranges_witness :
  let m := mock_snapshot (Sample.draws (3 # 4)) in
  unit_draw (3 # 4) /\
  (inject_Z 44500 <= price m /\ price m <= inject_Z 45500)%Q /\
  (2 <= change24h m /\ change24h m <= 3)%Q.
Proof.
  assert (unit_draw (3 # 4)) as H by (split; [discriminate | reflexivity]).
  destruct (mock_snapshot_ranges (Sample.draws (3 # 4)) H H H H H)
    as (Hprice & _ & _ & _ & Hchange).
  split; [exact H|]. split; [exact Hprice | exact Hchange].
Defined.

Lemma or_else_cases (x : option Q) (fallback : Q) :
  (exists q, x = Some q /\ ~ (q == 0)%Q /\ or_else x fallback = q) \/
  ((x = None \/ exists q, x = Some q /\ (q == 0)%Q) /\ or_else x fallback = fallback).
Proof.
  destruct x as [q|]; simpl; [|right; auto].
  destruct (Qeq_bool q 0) eqn:Hq.
  - right. split; [|reflexivity]. right. exists q. split; [done|]. by apply Qeq_bool_iff.
  - left. exists q. split_and!; [done | | done]. intros H. apply Qeq_bool_iff in H. congruence.
Qed.

Lemma or_else_filled (sent : option Q) (made_up : Q) :
  filled sent made_up (or_else sent made_up).
Proof.
  unfold filled. destruct (or_else_cases sent made_up) as [(q & -> & Hq & ->) | [Hgap ->]].
  - left. by exists q.
  - by right.
Qed.

Lemma filled_not_zero (sent : option Q) (made_up shown : Q) :
  filled sent made_up shown -> ~ (made_up == 0)%Q -> ~ (shown == 0)%Q.
Proof. by intros [(q & _ & Hq & ->) | [_ ->]]. Qed.

(** X8: a snapshot built from an answer takes each of the price, the
    volume, the market cap and the change from the answer when it is
    there and not zero, and from the mock snapshot otherwise, where the
    price is between 44500 and 45500, the volume between 22.5e9 and
    27.5e9, the market cap between 845e9 and 855e9 and the change
    between 2 and 3; so a figure that is missing or 0 is shown as a
    made-up one, and no figure returned is zero.  The dominance is
    always the constant 45.5. *)
Theorem real_snapshot_fills_gaps (symbol : string) (call : market_call) (s : api_state)
    (usd vol cap change : option Q) :
  market_miss s -> market_answered call usd vol cap change ->
  unit_draw (draw_price (mock call)) -> unit_draw (draw_volume (mock call)) ->
  unit_draw (draw_cap (mock call)) -> unit_draw (draw_change (mock call)) ->
  let made_up := mock_snapshot (mock call) in
  exists snapshot,
    fst (fetchMarketData symbol call s) = Normal snapshot /\
    filled usd (price made_up) (price snapshot) /\
    filled vol (volume24h made_up) (volume24h snapshot) /\
    filled cap (marketCap made_up) (marketCap snapshot) /\
    filled change (change24h made_up) (change24h snapshot) /\
    dominance snapshot = 455 # 10 /\
    (inject_Z 44500 <= price made_up /\ price made_up <= inject_Z 45500)%Q /\
    (inject_Z 22500000000 <= volume24h made_up /\
     volume24h made_up <= inject_Z 27500000000)%Q /\
    (inject_Z 845000000000 <= marketCap made_up /\
     marketCap made_up <= inject_Z 855000000000)%Q /\
    (2 <= change24h made_up /\ change24h made_up <= 3)%Q /\
    ~ (price snapshot == 0)%Q /\ ~ (volume24h snapshot == 0)%Q /\
    ~ (marketCap snapshot == 0)%Q /\ ~ (change24h snapshot == 0)%Q.
Proof.
  intros Hmiss Hanswered Hprice Hvolume Hcap Hchange. cbn zeta.
  destruct (fetchMarketData_answered symbol call s usd vol cap change Hmiss Hanswered)
    as (s1 & Hrun & _).
  rewrite Hrun. eexists. split; [reflexivity|].
  pose proof (or_else_filled usd (price (mock_snapshot (mock call)))) as Hp.
  pose proof (or_else_filled vol (volume24h (mock_snapshot (mock call)))) as Hv.
  pose proof (or_else_filled cap (marketCap (mock_snapshot (mock call)))) as Hc.
  pose proof (or_else_filled change (change24h (mock_snapshot (mock call)))) as Hd.
  assert ((inject_Z 44500 <= price (mock_snapshot (mock call)) /\
           price (mock_snapshot (mock call)) <= inject_Z 45500)%Q /\
          (inject_Z 22500000000 <= volume24h (mock_snapshot (mock call)) /\
           volume24h (mock_snapshot (mock call)) <= inject_Z 27500000000)%Q /\
          (inject_Z 845000000000 <= marketCap (mock_snapshot (mock call)) /\
           marketCap (mock_snapshot (mock call)) <= inject_Z 855000000000)%Q /\
          (2 <= change24h (mock_snapshot (mock call)) /\
           change24h (mock_snapshot (mock call)) <= 3)%Q)
    as (Hrp & Hrv & Hrc & Hrd).
  { unfold unit_draw, mock_snapshot, half, inject_Z in *. simpl.
    destruct Hprice, Hvolume, Hcap, Hchange. repeat split; lra. }
  split; [exact Hp|]. split; [exact Hv|]. split; [exact Hc|]. split; [exact Hd|].
  split; [reflexivity|].
  split; [exact Hrp|]. split; [exact Hrv|]. split; [exact Hrc|]. split; [exact Hrd|].
  split_and!.
  - apply (filled_not_zero _ _ _ Hp). unfold inject_Z in Hrp. lra.
  - apply (filled_not_zero _ _ _ Hv). unfold inject_Z in Hrv. lra.
  - apply (filled_not_zero _ _ _ Hc). unfold inject_Z in Hrc. lra.
  - apply (filled_not_zero _ _ _ Hd). lra.
Qed.

Lemma real_snapshot_fills_gaps_witness :
  let call := mkMarketCall (Sample.draws (3 # 4)) (Sample.draws (1 # 4))
                (Normal (mkResponse 200
                   (Normal (Coin (Some 0%Q) None (Some (inject_Z 1300000000000)) None))))
                200 in
  exists snapshot,
    fst (fetchMarketData "bitcoin" call (initial_state 0)) = Normal snapshot /\
    (price snapshot == inject_Z 45250)%Q /\
    (marketCap snapshot == inject_Z 1300000000000)%Q /\
    ~ (volume24h snapshot == 0)%Q.
Proof.
  intros call.
  assert (unit_draw (3 # 4)) as H by (split; [discriminate | reflexivity]).
  destruct (real_snapshot_fills_gaps "bitcoin" call (initial_state 0)
              (Some 0%Q) None (Some (inject_Z 1300000000000)) None)
    as (snapshot & Hrun & _ & _ & _ & _ & _ & _ & _ & _ & _ & _ & Hvol & _);
    [reflexivity | | exact H | exact H | exact H | exact H |].
  - split; [reflexivity|]. eexists. split_and!; reflexivity.
  - exists snapshot. split; [exact Hrun|].
    split; [|split; [|exact Hvol]];
      vm_compute in Hrun; injection Hrun as <-; reflexivity.
Defined.

(** ** Sentiment classifier *)

Lemma analyzeSentiment_failure_run text call s :
  fresh_hit SENTIMENT_CACHE_DURATION (clock s) (sentimentCache s !! text) = None ->
  classifier_failure call ->
  analyzeSentiment text call s =
  (Normal (mkSentiment match sentimentCache s !! text with
                       | Some entry => or_neutral (data entry)
                       | None => "NEUTRAL"
                       end),
   add_event (EvSettled OpenAI)
     (set_clock (clock s + Z.of_N (openai_latency call)) (add_event (EvFetch OpenAI) s))).
Proof.
  intros Hmiss Hfail. unfold analyzeSentiment.
  unfold mbind at 1 2, async_bind, date_now, read. cbn beta iota. rewrite Hmiss.
  unfold async_try_catch, mbind, async_bind, emit, elapse, modify, lift, mret, async_ret,
    throw, read.
  destruct Hfail as [e Hup | r Hup Hok | r e Hup Hok Hjson | r Hup Hok Hjson];
    simpl; rewrite Hup; simpl; rewrite ?Hok, ?Hjson; reflexivity.
Qed.

(** X9: [analyzeSentiment] never rejects, and when the call to the
    classifier fails (network, status, unparsable body, content that is
    no string) it answers with the label cached for that text, however
    old, or NEUTRAL when there is none, and caches nothing: the
    fallback does not stick, the next call asks the classifier
    again. *)
Theorem analyzeSentiment_failure_falls_back (text : string) (call : classifier_call)
    (s : api_state) :
  is_rejected (fst (analyzeSentiment text call s)) = false /\
  (fresh_hit SENTIMENT_CACHE_DURATION (clock s) (sentimentCache s !! text) = None ->
   classifier_failure call ->
   fst (analyzeSentiment text call s) =
     Normal (mkSentiment match sentimentCache s !! text with
                         | Some entry => or_neutral (data entry)
                         | None => "NEUTRAL"
                         end) /\
   sentimentCache (snd (analyzeSentiment text call s)) = sentimentCache s).
Proof.
  split; [apply analyzeSentiment_resolves|].
  intros Hmiss Hfail. rewrite analyzeSentiment_failure_run by done. split; reflexivity.
Qed.

Lemma analyzeSentiment_failure_falls_back_witness :
  let call := mkClassifierCall (Normal (mkResponse 500 (Throw (Error "no JSON")))) 300 in
  analyzeSentiment "Bitcoin to the moon" call (initial_state 0) =
  (Normal (mkSentiment "NEUTRAL"),
   add_event (EvSettled OpenAI) (set_clock 300 (add_event (EvFetch OpenAI) (initial_state 0)))).
Proof.
  intros call.
  destruct (analyzeSentiment_failure_falls_back "Bitcoin to the moon" call (initial_state 0))
    as [_ Hfail].
  destruct Hfail as [Hlabel Hcache].
  - reflexivity.
  - by apply (classifier_status call (mkResponse 500 (Throw (Error "no JSON")))).
  - reflexivity.
Defined.

(** ** Price history *)

Section HistoryFacts.
Import History.

Lemma points_are_days timeRange :
  Z.of_nat (points_of timeRange) = 24 * days_of timeRange.
Proof.
  unfold points_of, days_of.
  destruct (String.eqb_spec timeRange "24h") as [->|_]; [reflexivity|].
  destruct (String.eqb_spec timeRange "7d") as [->|_]; [reflexivity|].
  destruct (String.eqb_spec timeRange "30d") as [->|_]; reflexivity.
Qed.

Lemma mock_loop_length draws now points remaining i currentPrice :
  length (mock_loop draws now points remaining i currentPrice) = remaining.
Proof.
  revert i currentPrice. induction remaining as [|r IH]; intros i p; simpl; [done|].
  by rewrite IH.
Qed.

Lemma mock_loop_time draws now points remaining i currentPrice j point :
  mock_loop draws now points remaining i currentPrice !! j = Some point ->
  time point = now - (Z.of_nat points - Z.of_nat (i + j)) * interval.
Proof.
  revert i currentPrice j. induction remaining as [|r IH]; intros i p j; simpl; [done|].
  destruct j as [|j]; simpl.
  - intros [= <-]. simpl. by rewrite Nat.add_0_r.
  - intros H. apply IH in H. rewrite H. do 3 f_equal. lia.
Qed.

(** X10: a mock history has 24 points per day of the range asked for
    (24 for '24h' and for any unknown range, 168 for '7d', 720 for
    '30d', the same number of days the request to CoinGecko carries),
    one per hour: the point of index [j] is [points - j] hours before
    [now], so the times go up by 3600 s and end one hour before
    [now]. *)
Theorem generateMockPriceHistory_shape (now : Z) (timeRange : string)
    (draws : mock_history_draws) :
  let mockData := generateMockPriceHistory now timeRange draws in
  Z.of_nat (length mockData) = 24 * days_of timeRange /\
  (24 <= length mockData)%nat /\
  (forall j point, mockData !! j = Some point ->
     time point = now - (Z.of_nat (length mockData) - Z.of_nat j) * 3600) /\
  (forall j p q, mockData !! j = Some p -> mockData !! S j = Some q ->
     time q = time p + 3600) /\
  (forall point, last mockData = Some point -> time point = now - 3600).
Proof.
  cbn zeta. unfold generateMockPriceHistory.
  rewrite mock_loop_length.
  assert (forall j point,
            mock_loop draws now (points_of timeRange) (points_of timeRange) 0 basePrice !! j
              = Some point ->
            time point = now - (Z.of_nat (points_of timeRange) - Z.of_nat j) * 3600) as Htime.
  { intros j point H. by apply mock_loop_time in H. }
  split_and!.
  - apply points_are_days.
  - unfold points_of. repeat case_match; lia.
  - exact Htime.
  - intros j p q Hp Hq. rewrite (Htime _ _ Hp), (Htime _ _ Hq). lia.
  - intros point Hlast. rewrite last_lookup, mock_loop_length in Hlast.
    rewrite (Htime _ _ Hlast).
    assert (0 < points_of timeRange)%nat by (unfold points_of; repeat case_match; lia).
    lia.
Qed.

Lemma random_change_range (trend change : Q) :
  unit_draw trend -> unit_draw change ->
  let randomChange :=
    ((change - half) * inject_Z 2 * volatility + (trend - half) * (1 # 1000))%Q in
  (- (25 # 10000) <= randomChange /\ randomChange < 25 # 10000)%Q.
Proof.
  unfold unit_draw, half, volatility, inject_Z. intros [? ?] [? ?]. cbn zeta. split; lra.
Qed.

Lemma random_volume_range r :
  unit_draw r ->
  (inject_Z 500000000 <= random_volume r /\ random_volume r <= inject_Z 1500000000)%Q.
Proof. unfold unit_draw, random_volume, inject_Z. intros [? ?]. split; lra. Qed.

Lemma mock_loop_values draws now points remaining i currentPrice :
  unit_history_draws draws -> (0 < currentPrice)%Q ->
  let l := mock_loop draws now points remaining i currentPrice in
  Forall (fun point =>
            (0 < price point)%Q /\
            (inject_Z 500000000 <= volume point /\ volume point <= inject_Z 1500000000)%Q) l /\
  (forall point, l !! 0%nat = Some point -> small_step currentPrice point) /\
  (forall j p q, l !! j = Some p -> l !! S j = Some q -> small_step (price p) q).
Proof.
  intros (Htrend & Hchange & Hvolume). cbn zeta.
  revert i currentPrice. induction remaining as [|r IH]; intros i cur Hcur; simpl.
  { split_and!; [constructor | done | done]. }
  pose proof (random_change_range _ _ Htrend (Hchange i)) as Hrc. cbn zeta in Hrc.
  set (rc := ((draw_change draws i - half) * inject_Z 2 * volatility +
              (draw_trend draws - half) * (1 # 1000))%Q) in *.
  assert (0 < cur * (1 + rc))%Q as Hnext by (destruct Hrc; nra).
  destruct (IH (S i) _ Hnext) as (Hall & Hhead & Hsteps).
  split_and!.
  - constructor; [|exact Hall]. simpl. split; [exact Hnext | by apply random_volume_range].
  - intros point [= <-]. unfold small_step. simpl. destruct Hrc. split; nra.
  - intros [|j] p q; simpl.
    + intros [= <-] Hq. simpl. by apply Hhead.
    + apply Hsteps.
Qed.

(** X11: for draws in [0,1), every point of a mock history has a
    positive price and a volume between 5e8 and 1.5e9, ends included;
    the first price is within 0.26 % of 45000 and every price within
    0.26 % of the one before. *)
Theorem generateMockPriceHistory_values (now : Z) (timeRange : string)
    (draws : mock_history_draws) :
  unit_history_draws draws ->
  let mockData := generateMockPriceHistory now timeRange draws in
  Forall (fun point =>
            (0 < price point)%Q /\
            (inject_Z 500000000 <= volume point /\ volume point <= inject_Z 1500000000)%Q)
         mockData /\
  (forall point, mockData !! 0%nat = Some point -> small_step basePrice point) /\
  (forall j p q, mockData !! j = Some p -> mockData !! S j = Some q ->
     small_step (price p) q).
Proof.
  intros Hdraws. apply mock_loop_values; [exact Hdraws | reflexivity].
Qed.

Lemma steady_unit_draws : unit_history_draws HistorySample.steady.
Proof. by repeat split. Qed.

Lemma generateMockPriceHistory_values_witness :
  unit_history_draws HistorySample.steady /\
  Forall (fun point =>
            (0 < price point)%Q /\
            (inject_Z 500000000 <= volume point /\ volume point <= inject_Z 1500000000)%Q)
         (generateMockPriceHistory 1700000000 "7d" HistorySample.steady).
Proof.
  split; [exact steady_unit_draws|].
  exact (proj1 (generateMockPriceHistory_values 1700000000 "7d" HistorySample.steady
                  steady_unit_draws)).
Defined.

End HistoryFacts.

Section PriceHistoryFacts.
Import History.

Ltac run_hasync :=
  unfold cache_history, hread, hlift, hthrow, lift_api;
  unfold mbind, hasync_bind, async_bind, mret, hasync_ret, async_ret,
         emit, elapse, modify, lift, throw, date_now, read;
  cbn beta iota.

Ltac hstep := cbn beta iota zeta; cbn [api priceHistoryCache chart_requests fst snd].

(** Enters [fetchPriceHistory] on a miss, up to the request. *)
Ltac enter_fetchPriceHistory Hmiss s0 Hclock :=
  let Hrl := fresh "Hrl" in
  match goal with
  | |- context [fetchPriceHistory _ _ _ ?h] =>
      destruct (checkRateLimit_run (api h)) as (s0 & Hrl & _ & Hclock);
      unfold fetchPriceHistory, htry_catch, htry_finally, fetch_chart; run_hasync; hstep;
      unfold history_miss in Hmiss; rewrite Hmiss; hstep; rewrite Hrl; hstep
  end.

Lemma fetchPriceHistory_hit symbol timeRange call h entry :
  priceHistoryCache h !! (symbol ++ "-" ++ timeRange)%string = Some entry ->
  clock (api h) - timestamp entry < MARKET_DATA_CACHE_DURATION ->
  fetchPriceHistory symbol timeRange call h = (Normal (data entry), h).
Proof.
  intros Hentry Hfresh.
  unfold fetchPriceHistory. run_hasync. hstep.
  rewrite Hentry, fresh_hit_Some by done. by destruct h.
Qed.

Lemma fetchPriceHistory_soft symbol timeRange call h :
  history_miss (symbol ++ "-" ++ timeRange)%string h -> chart_soft_failure call ->
  exists h',
    fetchPriceHistory symbol timeRange call h =
      (Normal (fallback_data symbol timeRange call h), h') /\
    priceHistoryCache h' =
      <[(symbol ++ "-" ++ timeRange)%string :=
          mkEntry (fallback_data symbol timeRange call h) (clock (api h'))]>
        (priceHistoryCache h) /\
    chart_requests h' = chart_requests h ++ [request_for symbol timeRange] /\
    clock (api h) <= clock (api h').
Proof.
  intros Hmiss Hfail. unfold fallback_data, request_for.
  enter_fetchPriceHistory Hmiss s0 Hclock.
  destruct Hfail as [Htimer | r Htimer Hup Hstatus | r Htimer Hup Hok Hjson];
    rewrite Htimer; hstep.
  - eexists. split_and!; [reflexivity | reflexivity | reflexivity | cbn; lia].
  - rewrite Hup. hstep. rewrite Hstatus. hstep.
    eexists. split_and!; [reflexivity | reflexivity | reflexivity | cbn; lia].
  - rewrite Hup. hstep. unfold validateResponse. rewrite (ok_not_429 r Hok), Hok, Hjson. hstep.
    eexists. split_and!; [reflexivity | reflexivity | reflexivity | cbn; lia].
Qed.

Lemma history_point_pair mockData total_volumes fill index entry :
  entry <> NotAPair ->
  history_point mockData total_volumes fill index entry =
  Normal (point_of mockData total_volumes fill index entry).
Proof.
  intros Hentry. unfold point_of. destruct entry as [|t p]; [done|]. simpl.
  by destruct (negb (positive_number t) || negb (positive_number p)).
Qed.

Lemma mapM_history_points mockData total_volumes fill prices i :
  ~ In NotAPair prices ->
  mapM (fun '(index, entry) => history_point mockData total_volumes fill index entry)
       (zip (seq i (length prices)) prices) =
  Normal (imap (fun j => point_of mockData total_volumes fill (i + j)) prices).
Proof.
  revert i. induction prices as [|entry prices IH]; intros i Hin; [reflexivity|].
  cbn [length seq zip zip_with mapM].
  rewrite history_point_pair by (intros ->; apply Hin; by left).
  cbn [mbind completion_bind]. rewrite IH by (intros H; apply Hin; by right).
  cbn [mbind completion_bind mret completion_ret imap]. rewrite Nat.add_0_r.
  do 2 f_equal. apply imap_ext. intros j x _. simpl. f_equal. lia.
Qed.

Lemma mapM_history_points_throw mockData total_volumes fill prices i :
  In NotAPair prices ->
  mapM (fun '(index, entry) => history_point mockData total_volumes fill index entry)
       (zip (seq i (length prices)) prices) =
  Throw (TypeError "undefined is not iterable").
Proof.
  revert i. induction prices as [|entry prices IH]; intros i Hin; [done|].
  cbn [length seq zip zip_with mapM].
  destruct entry as [|t p]; [reflexivity|].
  rewrite history_point_pair by done. cbn [mbind completion_bind].
  rewrite IH; [reflexivity|]. by destruct Hin.
Qed.

Lemma Error_not_abort msg : String.eqb (err_name (Error msg)) "AbortError" = false.
Proof. reflexivity. Qed.

Lemma TypeError_not_abort msg : String.eqb (err_name (TypeError msg)) "AbortError" = false.
Proof. reflexivity. Qed.

Lemma fetchPriceHistory_hard symbol timeRange call h :
  history_miss (symbol ++ "-" ++ timeRange)%string h -> chart_hard_failure call ->
  exists h',
    fetchPriceHistory symbol timeRange call h =
      (Normal match priceHistoryCache h !! (symbol ++ "-" ++ timeRange)%string with
              | Some entry => data entry
              | None => generateMockPriceHistory (clock (api h') `div` 1000) timeRange
                          (draws_catch call)
              end, h') /\
    priceHistoryCache h' =
      match priceHistoryCache h !! (symbol ++ "-" ++ timeRange)%string with
      | Some entry => priceHistoryCache h
      | None =>
          <[(symbol ++ "-" ++ timeRange)%string :=
              mkEntry (generateMockPriceHistory (clock (api h') `div` 1000) timeRange
                         (draws_catch call)) (clock (api h'))]>
            (priceHistoryCache h)
      end /\
    chart_requests h' = chart_requests h ++ [request_for symbol timeRange] /\
    clock (api h) <= clock (api h').
Proof.
  intros Hmiss Hfail. unfold request_for.
  enter_fetchPriceHistory Hmiss s0 Hclock.
  destruct Hfail as [e Htimer Hup Hname | r Htimer Hup H429 Hok
                    | r e Htimer Hup Hok Hjson Hname
                    | r prices vols Htimer Hup Hok Hjson Hin];
    rewrite Htimer; hstep; rewrite Hup; hstep.
  - apply String.eqb_neq in Hname. rewrite Hname. hstep.
    destruct (priceHistoryCache h !! _); hstep;
      eexists (mkHistory _ _ _);
      (split_and!; [reflexivity | reflexivity | reflexivity | cbn; lia]).
  - apply Z.eqb_neq in H429. unfold validateResponse. rewrite H429, Hok. hstep.
    rewrite Error_not_abort.
    destruct (priceHistoryCache h !! _); hstep;
      eexists (mkHistory _ _ _);
      (split_and!; [reflexivity | reflexivity | reflexivity | cbn; lia]).
  - unfold validateResponse. rewrite (ok_not_429 r Hok), Hok, Hjson. hstep.
    apply String.eqb_neq in Hname. rewrite Hname. hstep.
    destruct (priceHistoryCache h !! _); hstep;
      eexists (mkHistory _ _ _);
      (split_and!; [reflexivity | reflexivity | reflexivity | cbn; lia]).
  - unfold validateResponse. rewrite (ok_not_429 r Hok), Hok, Hjson. hstep.
    rewrite mapM_history_points_throw by done. hstep.
    rewrite TypeError_not_abort.
    destruct (priceHistoryCache h !! _); hstep;
      eexists (mkHistory _ _ _);
      (split_and!; [reflexivity | reflexivity | reflexivity | cbn; lia]).
Qed.

Lemma fetchPriceHistory_answered symbol timeRange call h prices total_volumes :
  history_miss (symbol ++ "-" ++ timeRange)%string h ->
  chart_answered call prices total_volumes ->
  exists h',
    let mockData :=
      generateMockPriceHistory (clock (api h) `div` 1000) timeRange (draws_try call) in
    let points := imap (point_of mockData total_volumes (volume_fill call)) prices in
    fetchPriceHistory symbol timeRange call h = (Normal points, h') /\
    priceHistoryCache h' =
      <[(symbol ++ "-" ++ timeRange)%string := mkEntry points (clock (api h'))]>
        (priceHistoryCache h) /\
    chart_requests h' = chart_requests h ++ [request_for symbol timeRange] /\
    clock (api h) <= clock (api h').
Proof.
  intros Hmiss (Htimer & (r & Hup & Hok & Hjson) & Hin). unfold request_for.
  enter_fetchPriceHistory Hmiss s0 Hclock.
  rewrite Htimer. hstep. rewrite Hup. hstep.
  unfold validateResponse. rewrite (ok_not_429 r Hok), Hok, Hjson. hstep.
  rewrite mapM_history_points by done. hstep.
  eexists. split_and!; [reflexivity | reflexivity | reflexivity | cbn; lia].
Qed.

Lemma fresh_hit_None_later {T} duration now now' (entry : option (cache_entry T)) :
  fresh_hit duration now entry = None -> now <= now' ->
  fresh_hit duration now' entry = None.
Proof.
  unfold fresh_hit. destruct entry as [e|]; [|done].
  destruct (Z.ltb_spec (now - timestamp e) duration); [done|].
  intros _ Hle. destruct (Z.ltb_spec (now' - timestamp e) duration); [lia | done].
Qed.

(** X12: [fetchPriceHistory] never rejects: every failure ends in
    cached or mock data. *)
Theorem fetchPriceHistory_resolves (symbol timeRange : string) (call : chart_call)
    (h : history_state) :
  is_rejected (fst (fetchPriceHistory symbol timeRange call h)) = false.
Proof.
  unfold fetchPriceHistory.
  unfold mbind at 1, hasync_bind at 1, hread at 1. cbn beta iota.
  unfold mbind at 1, hasync_bind at 1, lift_api at 1, date_now at 1, read at 1. cbn beta iota.
  destruct (fresh_hit _ _ _); [reflexivity|].
  unfold htry_catch at 1.
  match goal with
  | |- context [match ?body ?h0 with _ => _ end] => destruct (body h0) as [[points|e] h1]
  end; [reflexivity|].
  destruct (priceHistoryCache h !! _); reflexivity.
Qed.

(** X13: on a timeout, a 429 or a body without the array of prices, a
    call that found an expired entry returns the expired list and
    stamps it with the current time: old data becomes fresh again and
    answers every call of the next 30 s for that symbol and range
    without a request.  With no entry it is the mock history that is
    returned and cached so. *)
Theorem fetchPriceHistory_soft_failure_restamps (symbol timeRange : string)
    (call : chart_call) (h : history_state) :
  history_miss (symbol ++ "-" ++ timeRange)%string h -> chart_soft_failure call ->
  let key := (symbol ++ "-" ++ timeRange)%string in
  let points := fallback_data symbol timeRange call h in
  exists h',
    fetchPriceHistory symbol timeRange call h = (Normal points, h') /\
    (forall entry, priceHistoryCache h !! key = Some entry -> points = data entry) /\
    priceHistoryCache h' !! key = Some (mkEntry points (clock (api h'))) /\
    forall call' h2,
      priceHistoryCache h2 !! key = priceHistoryCache h' !! key ->
      clock (api h2) - clock (api h') < MARKET_DATA_CACHE_DURATION ->
      fetchPriceHistory symbol timeRange call' h2 = (Normal points, h2).
Proof.
  intros Hmiss Hfail. cbn zeta.
  destruct (fetchPriceHistory_soft symbol timeRange call h Hmiss Hfail)
    as (h' & Hrun & Hcache & _ & _).
  assert (priceHistoryCache h' !! (symbol ++ "-" ++ timeRange)%string =
          Some (mkEntry (fallback_data symbol timeRange call h) (clock (api h')))) as Hentry.
  { rewrite Hcache. apply lookup_insert_eq. }
  exists h'. split_and!; [exact Hrun | | exact Hentry |].
  - intros entry He. unfold fallback_data. by rewrite He.
  - intros call' h2 Hsame Hfresh.
    apply (fetchPriceHistory_hit symbol timeRange call' h2
             (mkEntry (fallback_data symbol timeRange call h) (clock (api h'))));
      [congruence | exact Hfresh].
Qed.

Lemma fetchPriceHistory_soft_failure_restamps_witness :
  history_miss "bitcoin-24h" HistorySample.expired /\
  chart_soft_failure HistorySample.rate_limited /\
  exists h',
    fetchPriceHistory "bitcoin" "24h" HistorySample.rate_limited HistorySample.expired =
      (Normal HistorySample.old_points, h') /\
    fetchPriceHistory "bitcoin" "24h" HistorySample.network_down
      (HistorySample.later (clock (api h') + 29999) h') =
      (Normal HistorySample.old_points, HistorySample.later (clock (api h') + 29999) h').
Proof.
  assert (history_miss "bitcoin-24h" HistorySample.expired) as Hmiss by reflexivity.
  assert (chart_soft_failure HistorySample.rate_limited) as Hfail
    by (eapply chart_rate_limited; reflexivity).
  split; [exact Hmiss|]. split; [exact Hfail|].
  destruct (fetchPriceHistory_soft_failure_restamps "bitcoin" "24h"
              HistorySample.rate_limited HistorySample.expired Hmiss Hfail)
    as (h' & Hrun & _ & _ & Hnext).
  exists h'. split; [exact Hrun|].
  apply Hnext; [reflexivity|]. simpl. unfold MARKET_DATA_CACHE_DURATION. lia.
Defined.

(** X14: on the failures that reach the outer [catch] clause (network
    error, another error status, an unparsable body, an entry that is
    no pair) a call that found an expired entry returns the expired
    list and leaves the cache as it is, so the entry stays expired;
    with no entry it returns a mock history made at that moment and
    caches it with the current time. *)
Theorem fetchPriceHistory_hard_failure (symbol timeRange : string) (call : chart_call)
    (h : history_state) :
  history_miss (symbol ++ "-" ++ timeRange)%string h -> chart_hard_failure call ->
  let key := (symbol ++ "-" ++ timeRange)%string in
  exists h',
    match priceHistoryCache h !! key with
    | Some entry =>
        fetchPriceHistory symbol timeRange call h = (Normal (data entry), h') /\
        priceHistoryCache h' = priceHistoryCache h /\
        history_miss key h'
    | None =>
        let mockData :=
          generateMockPriceHistory (clock (api h') `div` 1000) timeRange (draws_catch call) in
        fetchPriceHistory symbol timeRange call h = (Normal mockData, h') /\
        priceHistoryCache h' !! key = Some (mkEntry mockData (clock (api h')))
    end.
Proof.
  intros Hmiss Hfail. cbn zeta.
  destruct (fetchPriceHistory_hard symbol timeRange call h Hmiss Hfail)
    as (h' & Hrun & Hcache & _ & Hclock).
  exists h'. unfold history_miss in *.
  destruct (priceHistoryCache h !! (symbol ++ "-" ++ timeRange)%string) as [entry|] eqn:He.
  - split_and!; [exact Hrun | exact Hcache |].
    rewrite Hcache, He. by apply (fresh_hit_None_later _ (clock (api h))).
  - split; [exact Hrun|]. rewrite Hcache. apply lookup_insert_eq.
Qed.

Lemma fetchPriceHistory_hard_failure_witness :
  history_miss "bitcoin-24h" HistorySample.expired /\
  chart_hard_failure HistorySample.network_down /\
  exists h',
    fetchPriceHistory "bitcoin" "24h" HistorySample.network_down HistorySample.expired =
      (Normal HistorySample.old_points, h') /\
    priceHistoryCache h' = priceHistoryCache HistorySample.expired /\
    history_miss "bitcoin-24h" h'.
Proof.
  assert (history_miss "bitcoin-24h" HistorySample.expired) as Hmiss by reflexivity.
  assert (chart_hard_failure HistorySample.network_down) as Hfail
    by (eapply chart_network; [reflexivity | reflexivity | discriminate]).
  split; [exact Hmiss|]. split; [exact Hfail|].
  exact (fetchPriceHistory_hard_failure "bitcoin" "24h" HistorySample.network_down
           HistorySample.expired Hmiss Hfail).
Defined.

Lemma mock_history_nonempty now timeRange draws :
  (0 < length (generateMockPriceHistory now timeRange draws))%nat.
Proof.
  unfold generateMockPriceHistory. rewrite mock_loop_length.
  unfold points_of. repeat case_match; lia.
Qed.

Lemma mock_history_positive now timeRange draws :
  unit_history_draws draws ->
  Forall (fun point => (0 < price point)%Q) (generateMockPriceHistory now timeRange draws).
Proof.
  intros Hdraws.
  destruct (mock_loop_values draws now (points_of timeRange) (points_of timeRange) 0
              basePrice Hdraws eq_refl) as (Hall & _).
  eapply Forall_impl; [exact Hall|]. by intros point [H _].
Qed.

Lemma point_of_cases mockData total_volumes fill index t p :
  (exists qt qp, t = Some qt /\ p = Some qp /\ (0 < qt)%Q /\ (0 < qp)%Q /\
     point_of mockData total_volumes fill index (Pair t p) =
     {| time := Qfloor (qt / inject_Z 1000); price := qp;
        volume := or_else (mjoin (total_volumes !! index)) (random_volume (fill index)) |}) \/
  ((positive_number t = false \/ positive_number p = false) /\
   point_of mockData total_volumes fill index (Pair t p) =
   default (default undefined_point (mockData !! 0%nat)) (mockData !! index)).
Proof.
  unfold point_of, history_point.
  destruct (positive_number t) eqn:Ht; [destruct (positive_number p) eqn:Hp|]; simpl.
  - left. destruct t as [qt|]; [|done]. destruct p as [qp|]; [|done].
    simpl in *. destruct (Qlt_le_dec 0 qt); [|done]. destruct (Qlt_le_dec 0 qp); [|done].
    exists qt, qp. auto.
  - right. auto.
  - right. auto.
Qed.

(** X15: a list of prices that came in time is returned point for
    point: as many points as pairs; a pair of positive numbers gives
    its time in seconds and its price unchanged, with the volume of
    that index when there is one that is not zero; a pair whose time or
    price is missing or not positive is replaced by a point of the mock
    history (the one of the same index, or the first).  So for draws
    in [0,1) no point of the result has a price that is not positive.
    The result is cached with the current time. *)
Theorem fetchPriceHistory_maps_prices (symbol timeRange : string) (call : chart_call)
    (h : history_state) (prices : list price_entry) (total_volumes : list (option Q)) :
  history_miss (symbol ++ "-" ++ timeRange)%string h ->
  chart_answered call prices total_volumes ->
  unit_history_draws (draws_try call) ->
  let key := (symbol ++ "-" ++ timeRange)%string in
  let mockData :=
    generateMockPriceHistory (clock (api h) `div` 1000) timeRange (draws_try call) in
  exists points h',
    fetchPriceHistory symbol timeRange call h = (Normal points, h') /\
    length points = length prices /\
    (forall i t p, prices !! i = Some (Pair (Some t) (Some p)) -> (0 < t)%Q -> (0 < p)%Q ->
       points !! i =
       Some {| time := Qfloor (t / inject_Z 1000); price := p;
               volume := or_else (mjoin (total_volumes !! i))
                                 (random_volume (volume_fill call i)) |}) /\
    (forall i t p, prices !! i = Some (Pair t p) ->
       positive_number t = false \/ positive_number p = false ->
       exists point, points !! i = Some point /\ point ∈ mockData /\
                     (forall m, mockData !! i = Some m -> point = m)) /\
    Forall (fun point => (0 < price point)%Q) points /\
    priceHistoryCache h' !! key = Some (mkEntry points (clock (api h'))).
Proof.
  intros Hmiss Hanswered Hdraws. cbn zeta.
  destruct (fetchPriceHistory_answered symbol timeRange call h prices total_volumes
              Hmiss Hanswered) as (h' & Hrun & Hcache & _ & _).
  cbn zeta in Hrun, Hcache.
  set (mockData := generateMockPriceHistory (clock (api h) `div` 1000) timeRange
                     (draws_try call)) in *.
  pose proof (mock_history_positive (clock (api h) `div` 1000) timeRange
                (draws_try call) Hdraws) as Hvalues. fold mockData in Hvalues.
  pose proof (mock_history_nonempty (clock (api h) `div` 1000) timeRange
                (draws_try call)) as Hlen. fold mockData in Hlen.
  assert (forall i, default (default undefined_point (mockData !! 0%nat)) (mockData !! i)
                    ∈ mockData) as Hmock.
  { intros i. destruct (mockData !! i) as [m|] eqn:Hm; simpl.
    - by eapply list_elem_of_lookup_2.
    - destruct (mockData !! 0%nat) as [m|] eqn:H0; simpl.
      + by eapply list_elem_of_lookup_2.
      + apply lookup_ge_None in H0. lia. }
  eexists _, h'. split; [exact Hrun|]. split_and!.
  - by rewrite length_imap.
  - intros i t p Hi Ht Hp. rewrite list_lookup_imap, Hi. simpl. f_equal.
    destruct (point_of_cases mockData total_volumes (volume_fill call) i (Some t) (Some p))
      as [(qt & qp & [= <-] & [= <-] & _ & _ & ->) | [[H|H] _]]; [reflexivity | |];
      simpl in H.
    + destruct (Qlt_le_dec 0 t) as [|Hle]; [done|]. by destruct (Qlt_not_le _ _ Ht Hle).
    + destruct (Qlt_le_dec 0 p) as [|Hle]; [done|]. by destruct (Qlt_not_le _ _ Hp Hle).
  - intros i t p Hi Hbad. rewrite list_lookup_imap, Hi. simpl.
    destruct (point_of_cases mockData total_volumes (volume_fill call) i t p)
      as [(qt & qp & -> & -> & Hqt & Hqp & _) | [_ ->]].
    + exfalso. simpl in Hbad.
      destruct (Qlt_le_dec 0 qt) as [|Hlt]; [|by destruct (Qlt_not_le _ _ Hqt Hlt)].
      destruct (Qlt_le_dec 0 qp) as [|Hlp]; [|by destruct (Qlt_not_le _ _ Hqp Hlp)].
      by destruct Hbad.
    + eexists. split; [reflexivity|]. split; [apply Hmock|].
      intros m Hm. by rewrite Hm.
  - apply Forall_forall. intros point Hpoint.
    apply list_elem_of_lookup in Hpoint as [i Hi].
    rewrite list_lookup_imap in Hi.
    destruct (prices !! i) as [entry|] eqn:Hentry; [|done]. simpl in Hi.
    injection Hi as <-.
    destruct entry as [|t p].
    { exfalso. destruct Hanswered as (_ & _ & Hin). apply Hin.
      apply list_elem_of_In. by eapply list_elem_of_lookup_2. }
    destruct (point_of_cases mockData total_volumes (volume_fill call) i t p)
      as [(qt & qp & -> & -> & Hqt & Hqp & ->) | [_ ->]]; [exact Hqp|].
    rewrite Forall_forall in Hvalues. by apply Hvalues.
  - rewrite Hcache. apply lookup_insert_eq.
Qed.

Lemma fetchPriceHistory_maps_prices_witness :
  history_miss "bitcoin-24h" (initial_history 1700010000000) /\
  chart_answered HistorySample.answered HistorySample.three_prices [Some (inject_Z 900)] /\
  unit_history_draws (draws_try HistorySample.answered) /\
  exists points h',
    fetchPriceHistory "bitcoin" "24h" HistorySample.answered
      (initial_history 1700010000000) = (Normal points, h') /\
    length points = 3%nat /\
    points !! 0%nat = Some (mkPoint 1700000000 (inject_Z 67000) (inject_Z 900)) /\
    Forall (fun point => (0 < price point)%Q) points.
Proof.
  assert (history_miss "bitcoin-24h" (initial_history 1700010000000)) as Hmiss
    by reflexivity.
  assert (chart_answered HistorySample.answered HistorySample.three_prices
            [Some (inject_Z 900)]) as Hanswered.
  { split; [reflexivity|]. split; [by eexists|].
    intros [H|[H|[H|[]]]]; discriminate. }
  split; [exact Hmiss|]. split; [exact Hanswered|]. split; [exact steady_unit_draws|].
  destruct (fetchPriceHistory_maps_prices "bitcoin" "24h" HistorySample.answered
              (initial_history 1700010000000) HistorySample.three_prices
              [Some (inject_Z 900)] Hmiss Hanswered steady_unit_draws)
    as (points & h' & Hrun & Hlen & Hgood & _ & Hpositive & _).
  exists points, h'. split_and!; [exact Hrun | exact Hlen | | exact Hpositive].
  by rewrite (Hgood 0%nat (inject_Z 1700000000000) (inject_Z 67000)).
Defined.

Lemma fetchPriceHistory_sends_one_request symbol timeRange call h :
  history_miss (symbol ++ "-" ++ timeRange)%string h ->
  chart_requests (snd (fetchPriceHistory symbol timeRange call h)) =
  chart_requests h ++ [request_for symbol timeRange].
Proof.
  intros Hmiss. unfold request_for.
  enter_fetchPriceHistory Hmiss s0 Hclock.
  destruct (timer_fired 5000 (chart_latency call)); hstep.
  - destruct (priceHistoryCache h !! _); reflexivity.
  - destruct (chart_upstream call) as [r|e]; hstep.
    + destruct (status r =? 429); hstep; [destruct (priceHistoryCache h !! _); reflexivity|].
      unfold validateResponse. destruct (ok r); hstep.
      * destruct (json r) as [[|prices vols]|e]; hstep.
        -- destruct (priceHistoryCache h !! _); reflexivity.
        -- destruct (mapM _ _) as [points|e]; hstep; [reflexivity|].
           destruct (String.eqb (err_name e) "AbortError"); hstep;
             destruct (priceHistoryCache h !! _); reflexivity.
        -- destruct (String.eqb (err_name e) "AbortError"); hstep;
             destruct (priceHistoryCache h !! _); reflexivity.
      * rewrite Error_not_abort. hstep. destruct (priceHistoryCache h !! _); reflexivity.
    + destruct (String.eqb (err_name e) "AbortError"); hstep;
        destruct (priceHistoryCache h !! _); reflexivity.
Qed.

(** X16: a call that is no fresh hit sends exactly one request to the
    market chart endpoint, whatever happens next, and a fresh hit sends
    none.  The request asks for 1 day of hourly data for '24h' and for
    any unknown range, 7 days of daily data for '7d' and 30 days of
    daily data for '30d'. *)
Theorem fetchPriceHistory_requests (symbol timeRange : string) (call : chart_call)
    (h : history_state) :
  let key := (symbol ++ "-" ++ timeRange)%string in
  let h' := snd (fetchPriceHistory symbol timeRange call h) in
  (history_miss key h ->
     chart_requests h' = chart_requests h ++ [request_for symbol timeRange]) /\
  (~ history_miss key h -> h' = h) /\
  request_for symbol timeRange =
    if String.eqb timeRange "7d" then mkChartRequest symbol 7 "daily"
    else if String.eqb timeRange "30d" then mkChartRequest symbol 30 "daily"
    else mkChartRequest symbol 1 "hourly".
Proof.
  cbn zeta. split_and!.
  - apply fetchPriceHistory_sends_one_request.
  - unfold history_miss. intros Hhit.
    destruct (priceHistoryCache h !! (symbol ++ "-" ++ timeRange)%string) as [entry|] eqn:He;
      [|done].
    rewrite (fetchPriceHistory_hit symbol timeRange call h entry He); [done|].
    unfold fresh_hit in Hhit.
    destruct (Z.ltb_spec (clock (api h) - timestamp entry) MARKET_DATA_CACHE_DURATION);
      [done | by exfalso; apply Hhit].
  - unfold request_for, days_of.
    destruct (String.eqb_spec timeRange "24h") as [->|_]; [reflexivity|].
    destruct (String.eqb_spec timeRange "7d") as [->|_]; [reflexivity|].
    destruct (String.eqb_spec timeRange "30d") as [->|_]; reflexivity.
Qed.

End PriceHistoryFacts.

(** ** The enrichment of one item and the chunk loop (App.tsx) *)

Section LoopFacts.

(** X17: the enrichment of an item never rejects and changes nothing
    but the three scores: id, title, url, source, date, image, body and
    votes are the item's own, and the label, the reliability and the
    impact are always set (a label the provider sent is overwritten).
    The label is the classifier's when the classifier answered and the
    item has a body; an item without a body gets NEUTRAL whatever the
    classifier said, as does one whose classification failed. *)
Theorem enrich_keeps_item (item : NewsItem) (classified : completion sentiment_response)
    (d : enrich_draws) :
  exists enriched label value level,
    enrich item classified d = Normal enriched /\
    enriched = with_scores item label value level /\
    (id enriched, title enriched, url enriched, source enriched) =
      (id item, title item, url item, source item) /\
    (published_on enriched, imageurl enriched, body enriched, votes enriched) =
      (published_on item, imageurl item, body item, votes item) /\
    (sentiment enriched, reliability enriched, impact enriched) =
      (Some label, Some value, Some level) /\
    label =
      match classified, body item with
      | Normal response, Some _ => content response
      | _, _ => "NEUTRAL"
      end.
Proof.
  destruct classified as [response|e]; [destruct (body item) as [b|] eqn:Hbody|].
  - rewrite (enrich_success _ _ _ b Hbody).
    eexists _, _, _, _. split_and!; try reflexivity. simpl. by rewrite Hbody.
  - rewrite enrich_failure by auto.
    eexists _, _, _, _. split_and!; try reflexivity. simpl. by rewrite Hbody.
  - rewrite enrich_failure by eauto.
    eexists _, _, _, _. split_and!; reflexivity.
Qed.


Lemma slice_nat {A} (a b : nat) (l : list A) :
  slice (Z.of_nat a) (Z.of_nat b) l = take (b - a) (drop a l).
Proof.
  unfold slice.
  destruct (Z.ltb_spec (Z.of_nat a) 0) as [?|_]; [lia|].
  destruct (Z.ltb_spec (Z.of_nat b) 0) as [?|_]; [lia|].
  destruct (decide (a <= length l)%nat) as [Ha|Ha].
  - rewrite (Z.min_l (Z.of_nat a)) by lia. rewrite Nat2Z.id.
    destruct (decide (b <= length l)%nat) as [Hb|Hb].
    + rewrite (Z.min_l (Z.of_nat b)) by lia. f_equal. lia.
    + rewrite (Z.min_r (Z.of_nat b)) by lia.
      rewrite !take_ge; [done | rewrite length_drop; lia | rewrite length_drop; lia].
  - rewrite (Z.min_r (Z.of_nat a)) by lia. rewrite Nat2Z.id.
    rewrite !drop_ge by lia. by rewrite !take_nil.
Qed.

Lemma process_chunks_step env Data i st :
  process_chunks env Data i st =
  if decide (i < length Data)%nat then
    if negb (current_at_top env i) then (Normal tt, st)
    else
      match process_chunk env i (slice (Z.of_nat i) (Z.of_nat (i + chunkSize)) Data) with
      | Throw e => (Throw e, st)
      | Normal processedChunk =>
          process_chunks env Data (i + chunkSize)
            (mkLoop (if current_at_update env i then setNews (news st) processedChunk
                     else news st)
                    (newsWithAnalysis st ++ processedChunk) (waited st + 100))
      end
  else (Normal tt, st).
Proof.
  rewrite process_chunks_equation_1.
  destruct (decide (i < length Data)%nat); reflexivity.
Qed.

Lemma enrich_scores item classified d :
  exists s r i, enrich item classified d = Normal (with_scores item s r i).
Proof.
  destruct classified as [response|e]; [destruct (body item) as [b|] eqn:Hbody|].
  - rewrite (enrich_success _ _ _ b Hbody). eauto.
  - rewrite enrich_failure by auto. eauto.
  - rewrite enrich_failure by eauto. eauto.
Qed.

Lemma enrich_enrichment env k item :
  enrich item (classified_at env k) (draws_at env k) = Normal (enrichment env k item).
Proof.
  unfold enrichment.
  by destruct (enrich_scores item (classified_at env k) (draws_at env k)) as (s & r & i & ->).
Qed.

Lemma process_chunk_from env i n chunk :
  mapM (fun '(j, item) => enrich item (classified_at env (i + j)) (draws_at env (i + j)))
       (imap (fun j => pair (n + j)%nat) chunk) =
  Normal (imap (fun j => enrichment env (i + (n + j))) chunk).
Proof.
  revert n. induction chunk as [|x chunk IH]; intros n; [reflexivity|].
  cbn [imap mapM]. rewrite enrich_enrichment. cbn.
  rewrite (imap_ext _ (fun j => pair (S n + j)%nat) chunk)
    by (intros; simpl; f_equal; lia).
  rewrite IH. cbn. f_equal. f_equal.
  apply imap_ext. intros. simpl. f_equal. lia.
Qed.

Lemma process_chunk_run env i chunk :
  process_chunk env i chunk = Normal (imap (fun j => enrichment env (i + j)) chunk).
Proof. apply (process_chunk_from env i 0). Qed.

Lemma enrichment_id env k item : id (enrichment env k item) = id item.
Proof.
  unfold enrichment.
  by destruct (enrich_scores item (classified_at env k) (draws_at env k)) as (s & r & i & ->).
Qed.

Lemma enrichment_published_on env k item :
  published_on (enrichment env k item) = published_on item.
Proof.
  unfold enrichment.
  by destruct (enrich_scores item (classified_at env k) (draws_at env k)) as (s & r & i & ->).
Qed.

Lemma enriched_ids env Data : id <$> imap (enrichment env) Data = id <$> Data.
Proof.
  rewrite fmap_imap. rewrite <- (imap_const id Data).
  apply imap_ext. intros. simpl. apply enrichment_id.
Qed.

Lemma enriched_published_on env Data :
  published_on <$> imap (enrichment env) Data = published_on <$> Data.
Proof.
  rewrite fmap_imap. rewrite <- (imap_const published_on Data).
  apply imap_ext. intros. simpl. apply enrichment_published_on.
Qed.

Lemma sorted_desc_published l l' :
  published_on <$> l = published_on <$> l' -> sorted_desc l -> sorted_desc l'.
Proof.
  unfold sorted_desc. revert l'. induction l as [|x l IH]; intros [|y l'] Heq Hs;
    try discriminate; [constructor|].
  assert (forall x l, Forall (newer_or_equal x) l <->
                      Forall (fun t => js_le t (published_on x)) (published_on <$> l)) as Hfmap
    by (intros; by rewrite Forall_fmap).
  injection Heq as Hxy Heq.
  assert (published_on <$> l = published_on <$> l') as Heq' by exact Heq.
  apply StronglySorted_inv in Hs as [Hs Hall].
  constructor; [by apply IH|].
  apply Hfmap. rewrite <- Heq', <- Hxy. by apply Hfmap.
Qed.

Lemma findIndex_absent {A} (p : A -> bool) l :
  (forall x, x ∈ l -> p x = false) -> findIndex p l = None.
Proof.
  induction l as [|y l IH]; intros H; simpl; [done|].
  rewrite (H y) by (apply elem_of_cons; auto).
  rewrite IH; [done|]. intros x Hx. apply H, elem_of_cons. auto.
Qed.

Lemma reconcile_fresh prev chunk :
  NoDup (id <$> (prev ++ chunk)) -> reconcile prev chunk = prev ++ chunk.
Proof.
  unfold reconcile. revert prev.
  induction chunk as [|x chunk IH]; intros prev Hnd; simpl; [by rewrite app_nil_r|].
  replace (prev ++ x :: chunk) with ((prev ++ [x]) ++ chunk) in * by by rewrite <- app_assoc.
  assert (upsert prev x = prev ++ [x]) as ->.
  { unfold upsert. rewrite findIndex_absent; [done|].
    intros y Hy. apply bool_decide_eq_false. intros Heq.
    rewrite !fmap_app in Hnd. apply NoDup_app in Hnd as [Hnd _].
    apply NoDup_app in Hnd as (_ & Hdisj & _).
    apply (Hdisj (id y)); [by apply list_elem_of_fmap_2|].
    simpl. rewrite Heq. apply elem_of_cons. auto. }
  by apply IH.
Qed.

Lemma processed_chunk_is_slice env Data i n :
  imap (fun j => enrichment env (i + j)) (take n (drop i Data)) =
  take n (drop i (imap (enrichment env) Data)).
Proof.
  apply list_eq. intros j.
  rewrite list_lookup_imap.
  destruct (decide (j < n)%nat) as [Hj|Hj].
  - rewrite !lookup_take_lt, !lookup_drop by done. by rewrite list_lookup_imap.
  - by rewrite !lookup_take_ge by lia.
Qed.

Lemma process_chunks_news env Data :
  undisturbed env ->
  sorted_desc Data -> NoDup (id <$> Data) ->
  forall n i st, (length Data - i = n)%nat ->
    news st = take i (imap (enrichment env) Data) ->
    news (snd (process_chunks env Data i st)) = imap (enrichment env) Data.
Proof.
  intros [Htop Hupdate] Hsorted Hnd.
  set (E := imap (enrichment env) Data).
  assert (sorted_desc E) as HsortedE.
  { eapply sorted_desc_published; [|exact Hsorted]. symmetry. apply enriched_published_on. }
  assert (NoDup (id <$> E)) as HndE by (unfold E; by rewrite enriched_ids).
  induction n as [n IH] using lt_wf_ind. intros i st Hn Hnews.
  rewrite process_chunks_step.
  destruct (decide (i < length Data)%nat) as [Hi|Hi]; simpl.
  - rewrite Htop, Hupdate. simpl. rewrite slice_nat, process_chunk_run.
    replace (i + chunkSize - i)%nat with chunkSize by lia.
    rewrite processed_chunk_is_slice. fold E.
    apply (IH (length Data - (i + chunkSize))%nat); [unfold chunkSize; lia | done |].
    simpl. rewrite Hnews. unfold setNews.
    assert (take i E ++ take chunkSize (drop i E) = take (i + chunkSize) E) as Htake
      by apply take_take_drop.
    rewrite reconcile_fresh.
    + rewrite Htake. apply sort_by_sorted.
      unfold sorted_desc in *. rewrite <- (take_drop (i + chunkSize) E) in HsortedE.
      by apply StronglySorted_app_1_l in HsortedE.
    + rewrite Htake, fmap_take. eapply sublist_NoDup; [exact HndE | apply sublist_take].
  - rewrite Hnews. apply take_ge. unfold E. rewrite length_imap. lia.
Qed.


Lemma process_chunks_processed env Data :
  (forall i, current_at_top env i = true) ->
  forall n i st, (length Data - i = n)%nat ->
    let r := process_chunks env Data i st in
    fst r = Normal tt /\
    newsWithAnalysis (snd r) =
      newsWithAnalysis st ++ drop i (imap (enrichment env) Data) /\
    waited (snd r) = waited st + 100 * ((Z.of_nat (length Data - i) + 4) `div` 5).
Proof.
  intros Htop. induction n as [n IH] using lt_wf_ind. intros i st Hn. cbn zeta.
  rewrite process_chunks_step.
  destruct (decide (i < length Data)%nat) as [Hi|Hi]; simpl.
  - rewrite Htop. simpl. rewrite slice_nat, process_chunk_run.
    replace (i + chunkSize - i)%nat with chunkSize by lia.
    rewrite processed_chunk_is_slice.
    destruct (IH (length Data - (i + chunkSize))%nat ltac:(unfold chunkSize; lia)
                (i + chunkSize)%nat
                (mkLoop (if current_at_update env i
                         then setNews (news st)
                                (take chunkSize (drop i (imap (enrichment env) Data)))
                         else news st)
                        (newsWithAnalysis st ++
                           take chunkSize (drop i (imap (enrichment env) Data)))
                        (waited st + 100)) eq_refl) as (Hfst & Hnwa & Hwaited).
    split_and!; [exact Hfst | |].
    + rewrite Hnwa. simpl. rewrite <- app_assoc. f_equal.
      rewrite <- (take_drop chunkSize (drop i _)) at 2. by rewrite drop_drop.
    + rewrite Hwaited. simpl. unfold chunkSize. Z.div_mod_to_equations. lia.
  - split_and!; [done | |].
    + rewrite drop_ge by (rewrite length_imap; lia). by rewrite app_nil_r.
    + replace (length Data - i)%nat with 0%nat by lia.
      change ((Z.of_nat 0 + 4) `div` 5) with 0. lia.
Qed.

(** X18: while the batch stays current at the top of each iteration,
    the loop comes to its end without throwing, has enriched every item
    of [response.Data] exactly once and in order, five at a time, and
    has paused 100 ms after each chunk: ceil(n / 5) pauses for [n]
    items. *)
Theorem fetchNews_loop_processes_all (env : loop_env) (Data : list NewsItem)
    (st : loop_state) :
  (forall i, current_at_top env i = true) ->
  let r := process_chunks env Data 0 st in
  fst r = Normal tt /\
  newsWithAnalysis (snd r) = newsWithAnalysis st ++ imap (enrichment env) Data /\
  waited (snd r) = waited st + 100 * ((Z.of_nat (length Data) + 4) `div` 5).
Proof.
  intros Htop.
  pose proof (process_chunks_processed env Data Htop (length Data - 0) 0 st eq_refl) as H.
  cbn zeta in *. by rewrite drop_0, Nat.sub_0_r in H.
Qed.

Lemma fetchNews_loop_processes_all_witness :
  (forall i, current_at_top FeedSample.calm i = true) /\
  let r := process_chunks FeedSample.calm FeedSample.seven 0 (mkLoop [] [] 0) in
  fst r = Normal tt /\
  id <$> newsWithAnalysis (snd r) = id <$> FeedSample.seven /\
  waited (snd r) = 200.
Proof.
  assert (forall i, current_at_top FeedSample.calm i = true) as Htop by done.
  split; [exact Htop|].
  destruct (fetchNews_loop_processes_all FeedSample.calm FeedSample.seven (mkLoop [] [] 0)
              Htop) as (Hfst & Hnwa & Hwaited).
  cbn zeta. split_and!; [exact Hfst | by rewrite Hnwa | by rewrite Hwaited].
Defined.

(** X19: an undisturbed run on an empty feed shows the list as the
    aggregator ordered it.  When [response.Data] is newest first (as
    [fetchCryptoNews] returns it) and its ids are distinct, the feed at
    the end of the loop is the enriched items in the order of
    [response.Data]: the updates by chunk and their sorts change
    nothing of the order. *)
Theorem fetchNews_fills_empty_feed (env : loop_env) (Data : list NewsItem)
    (seen : list NewsItem) (spent : Z) :
  undisturbed env -> sorted_desc Data -> NoDup (id <$> Data) ->
  news (snd (process_chunks env Data 0 (mkLoop [] seen spent))) =
  imap (enrichment env) Data.
Proof.
  intros Henv Hsorted Hnd.
  by apply (process_chunks_news env Data Henv Hsorted Hnd (length Data - 0) 0).
Qed.

Lemma fetchNews_fills_empty_feed_witness :
  undisturbed FeedSample.calm /\ sorted_desc FeedSample.seven /\
  NoDup (id <$> FeedSample.seven) /\
  id <$> news (snd (process_chunks FeedSample.calm FeedSample.seven 0 (mkLoop [] [] 0))) =
    JsNum <$> [1; 2; 3; 4; 5; 6; 7] /\
  sentiment <$> news (snd (process_chunks FeedSample.calm FeedSample.seven 0
                             (mkLoop [] [] 0))) =
    replicate 7 (Some "POSITIVE").
Proof.
  assert (undisturbed FeedSample.calm) as Henv by done.
  assert (sorted_desc FeedSample.seven) as Hsorted.
  { unfold sorted_desc, FeedSample.seven. simpl.
    repeat (constructor; [|repeat constructor; unfold newer_or_equal; simpl; lia]).
    constructor. }
  assert (NoDup (id <$> FeedSample.seven)) as Hnd.
  { apply NoDup_ListNoDup. simpl.
    repeat (constructor; [simpl; intuition discriminate|]). constructor. }
  split_and!; [exact Henv | exact Hsorted | exact Hnd | |];
    by rewrite (fetchNews_fills_empty_feed FeedSample.calm FeedSample.seven [] 0
                  Henv Hsorted Hnd).
Defined.

Lemma process_chunks_superseded env Data :
  forall n i st, (length Data - i = n)%nat ->
    fst (process_chunks env Data i st) = Normal tt /\
    ((forall k, current_at_update env k = false) ->
     news (snd (process_chunks env Data i st)) = news st).
Proof.
  induction n as [n IH] using lt_wf_ind. intros i st Hn.
  rewrite process_chunks_step.
  destruct (decide (i < length Data)%nat) as [Hi|Hi]; simpl; [|done].
  destruct (current_at_top env i); simpl; [|done].
  rewrite process_chunk_run.
  match goal with
  | |- context [process_chunks env Data ?j ?st'] =>
      destruct (IH (length Data - j)%nat ltac:(unfold chunkSize; lia) j st' eq_refl)
        as [Hfst Hnews]
  end.
  split; [exact Hfst|]. intros Hstale. rewrite Hnews by done. simpl. by rewrite Hstale.
Qed.

(** X20: the loop never throws, whatever the classifier does, since
    each item's failure is caught in its own callback; and a batch that
    is no longer current at its update checks (the component was
    unmounted, or a newer batch began) leaves the feed as it was. *)
Theorem fetchNews_loop_superseded (env : loop_env) (Data : list NewsItem) (i : nat)
    (st : loop_state) :
  fst (process_chunks env Data i st) = Normal tt /\
  ((forall k, current_at_update env k = false) ->
   news (snd (process_chunks env Data i st)) = news st).
Proof. by apply (process_chunks_superseded env Data (length Data - i)). Qed.

Lemma fetchNews_loop_superseded_witness :
  (forall k, current_at_update FeedSample.superseded k = false) /\
  news (snd (process_chunks FeedSample.superseded FeedSample.seven 0
               (mkLoop [FeedSample.raw 9] [] 0))) = [FeedSample.raw 9].
Proof.
  split; [done|].
  by apply (fetchNews_loop_superseded FeedSample.superseded FeedSample.seven 0
              (mkLoop [FeedSample.raw 9] [] 0)).
Defined.

End LoopFacts.

(** ** The list of the feed component (NewsFeed.tsx, useNewsSearch.ts) *)

Lemma StronglySorted_weaken {A} (R R' : A -> A -> Prop) l :
  (forall a b, R a b -> R' a b) -> StronglySorted R l -> StronglySorted R' l.
Proof.
  intros H. induction 1 as [|x l Hl IH Hx]; constructor; [done|].
  eapply Forall_impl; [exact Hx|]. apply H.
Qed.

Section RankSort.
Context {A : Type} (comparefn : A -> A -> option Z) (rank : A -> Z).
Hypothesis comparefn_rank : forall a b, comparefn a b = Some (rank a - rank b).

Lemma SortCompare_rank a b : SortCompare comparefn a b = rank a - rank b.
Proof. unfold SortCompare. by rewrite comparefn_rank. Qed.

Lemma insert_by_rank_sorted x l :
  StronglySorted (fun a b => rank a <= rank b) l ->
  StronglySorted (fun a b => rank a <= rank b) (insert_by comparefn x l).
Proof.
  induction 1 as [|y l Hl IH Hy]; simpl.
  - repeat constructor.
  - rewrite SortCompare_rank. destruct (Z.leb_spec (rank x - rank y) 0).
    + constructor; [by constructor|].
      constructor; [lia|]. eapply Forall_impl; [exact Hy|]. simpl. intros; lia.
    + constructor; [exact IH|].
      rewrite (insert_by_perm comparefn x l). constructor; [lia | exact Hy].
Qed.

Lemma sort_by_rank_sorted l :
  StronglySorted (fun a b => rank a <= rank b) (sort_by comparefn l).
Proof.
  induction l as [|x l IH]; simpl; [constructor | by apply insert_by_rank_sorted].
Qed.

Lemma insert_by_rank_stable k x l :
  filter (fun y => rank y = k) (insert_by comparefn x l) =
  filter (fun y => rank y = k) (x :: l).
Proof.
  induction l as [|y l IH]; simpl; [done|].
  rewrite SortCompare_rank. destruct (Z.leb_spec (rank x - rank y) 0) as [Hle|Hgt]; [done|].
  rewrite (filter_cons _ y), IH, !filter_cons.
  repeat case_decide; (done || lia).
Qed.

Lemma sort_by_rank_stable k l :
  filter (fun y => rank y = k) (sort_by comparefn l) = filter (fun y => rank y = k) l.
Proof.
  induction l as [|x l IH]; simpl; [done|].
  rewrite insert_by_rank_stable. by rewrite !filter_cons, IH.
Qed.
End RankSort.

Section NewsFeedFacts.
Import NewsFeed.

Lemma insert_by_ext {A} (f g : A -> A -> option Z) x l :
  (forall y, y ∈ l -> SortCompare f x y = SortCompare g x y) ->
  insert_by f x l = insert_by g x l.
Proof.
  induction l as [|y l IH]; intros H; simpl; [done|].
  rewrite (H y) by left. rewrite IH; [done|]. intros z Hz. apply H. by right.
Qed.

Lemma sort_by_ext {A} (f g : A -> A -> option Z) l :
  (forall x y, x ∈ l -> y ∈ l -> SortCompare f x y = SortCompare g x y) ->
  sort_by f l = sort_by g l.
Proof.
  induction l as [|x l IH]; intros H; simpl; [done|].
  rewrite IH by (intros y z Hy Hz; apply H; by right).
  apply insert_by_ext. intros y Hy%sort_by_elem. apply H; [left | by right].
Qed.

Lemma StronglySorted_weaken_in {A} (R R' : A -> A -> Prop) l :
  (forall a b, a ∈ l -> b ∈ l -> R a b -> R' a b) ->
  StronglySorted R l -> StronglySorted R' l.
Proof.
  intros H Hs. induction Hs as [|x l Hl IH Hx]; constructor.
  - apply IH. intros a b Ha Hb. apply H; by right.
  - rewrite Forall_forall in *. intros y Hy. apply H; [left | by right | by apply Hx].
Qed.

Lemma filter_iff_in {A} (P Q : A -> Prop) `{!forall x, Decision (P x)}
    `{!forall x, Decision (Q x)} (l : list A) :
  (forall x, x ∈ l -> P x <-> Q x) -> filter P l = filter Q l.
Proof.
  induction l as [|x l IH]; intros Hiff; [done|].
  rewrite !filter_cons, IH by (intros y Hy; apply Hiff; by right).
  pose proof (Hiff x ltac:(left)). repeat case_decide; tauto.
Qed.

(** The comparator is the difference of the two sort values, taken
    the other way round for 'asc'. *)
Lemma comparator_value sortBy sortOrder a b :
  comparator sortBy sortOrder a b =
  match sortOrder with
  | Asc => js_neg (js_sub (sort_value sortBy b) (sort_value sortBy a))
  | Desc => js_sub (sort_value sortBy b) (sort_value sortBy a)
  end.
Proof. by destruct sortBy, sortOrder. Qed.



Lemma filter_with_all {A} (p : A -> completion bool) l :
  (forall x, x ∈ l -> p x = Normal true) -> filter_with p l = Normal l.
Proof.
  induction l as [|x l IH]; intros H; simpl; [done|].
  rewrite (H x) by (apply elem_of_cons; auto). cbn.
  rewrite IH; [done|]. intros y Hy. apply H, elem_of_cons. auto.
Qed.

Lemma filter_with_none {A} (p : A -> completion bool) l :
  (forall x, x ∈ l -> p x = Normal false) -> filter_with p l = Normal [].
Proof.
  induction l as [|x l IH]; intros H; simpl; [done|].
  rewrite (H x) by (apply elem_of_cons; auto). cbn.
  rewrite IH; [done|]. intros y Hy. apply H, elem_of_cons. auto.
Qed.

Lemma filter_with_total {A} (p : A -> completion bool) l :
  (forall x, x ∈ l -> is_rejected (p x) = false) ->
  is_rejected (filter_with p l) = false.
Proof.
  induction l as [|x l IH]; intros H; simpl; [done|].
  pose proof (H x ltac:(apply elem_of_cons; auto)) as Hx.
  destruct (p x) as [keep|e]; [|discriminate]. cbn.
  assert (is_rejected (filter_with p l) = false) as Hl
    by (apply IH; intros y Hy; apply H, elem_of_cons; auto).
  destruct (filter_with p l); [done | discriminate].
Qed.

Lemma filter_with_throws {A} (p : A -> completion bool) (P : js_error -> Prop) l x :
  (forall y e, p y = Throw e -> P e) ->
  x ∈ l -> is_rejected (p x) = true ->
  exists e, filter_with p l = Throw e /\ P e.
Proof.
  intros HP. induction l as [|y l IH]; intros Hx Hthrow; [by apply elem_of_nil in Hx|].
  simpl. destruct (p y) as [keep|e] eqn:Hp; cbn.
  - apply elem_of_cons in Hx as [->|Hx]; [by rewrite Hp in Hthrow|].
    destruct (IH Hx Hthrow) as (e & -> & He). eauto.
  - eauto.
Qed.


Lemma keeps_without_query newsFilter item :
  keeps newsFilter "" item = Normal (matchesFilter newsFilter item).
Proof. unfold keeps, matchesSearch. simpl. by rewrite andb_true_r. Qed.







(** X22: one item without a body breaks every search.  With a query
    that is not empty, an item that has no body and whose title does
    not contain the query makes the whole filter throw a TypeError,
    whatever the filter name, even one that would not have kept the
    item; with the empty query nothing is thrown, body or not. *)
Theorem filteredNews_throws_without_body (news : list NewsItem)
    (searchQuery newsFilter : string) (item : NewsItem) :
  item ∈ news -> body item = None -> searchQuery <> "" ->
  JsString.includes (toLowerCase (title item)) (toLowerCase searchQuery) = false ->
  (exists e, filteredNews news searchQuery newsFilter = Throw e /\
             err_name e = "TypeError") /\
  is_rejected (filteredNews news "" newsFilter) = false.
Proof.
  intros Hin Hbody Hquery Htitle. split.
  - unfold filteredNews.
    apply (filter_with_throws _ (fun e => err_name e = "TypeError") news item);
      [| exact Hin |].
    + intros y e. unfold keeps, matchesSearch.
      destruct (String.eqb searchQuery ""); cbn; [discriminate|].
      destruct (JsString.includes (toLowerCase (title y)) _); cbn; [discriminate|].
      destruct (body y); cbn; [discriminate|]. by intros [= <-].
    + unfold keeps, matchesSearch.
      apply String.eqb_neq in Hquery. by rewrite Hquery, Htitle, Hbody.
  - unfold filteredNews. apply filter_with_total.
    intros x _. by rewrite keeps_without_query.
Qed.

Lemma filteredNews_throws_without_body_witness :
  FeedSample.bodiless ∈ FeedSample.three ++ [FeedSample.bodiless] /\
  body FeedSample.bodiless = None /\
  is_rejected (filteredNews (FeedSample.three ++ [FeedSample.bodiless]) "rally" "verified") =
    true /\
  is_rejected (filteredNews (FeedSample.three ++ [FeedSample.bodiless]) "" "verified") =
    false.
Proof.
  assert (FeedSample.bodiless ∈ FeedSample.three ++ [FeedSample.bodiless]) as Hin
    by (apply elem_of_app; right; apply list_elem_of_here).
  split; [exact Hin|]. split; [reflexivity|].
  destruct (filteredNews_throws_without_body (FeedSample.three ++ [FeedSample.bodiless])
              "rally" "verified" FeedSample.bodiless Hin eq_refl ltac:(discriminate)
              eq_refl) as [(e & -> & _) Hquiet].
  split; [reflexivity | exact Hquiet].
Defined.

(** X23: the component's list is its filtered list rearranged: the
    same items, in the order asked for (by impact rank, by reliability,
    or by date when the date of every item kept is a number; never
    increasing for 'desc', never decreasing for 'asc'), and items with
    the same sort value keep the order they had in the news; an item
    without impact or reliability counts as 0. *)
Theorem filteredAndSortedNews_sorted (news : list NewsItem)
    (newsFilter searchQuery : string) (sortBy : sort_key) (sortOrder : sort_order)
    (kept : list NewsItem) :
  filteredNews news searchQuery newsFilter = Normal kept ->
  (sortBy = ByDate -> Forall dated kept) ->
  exists shown,
    filteredAndSortedNews news newsFilter searchQuery sortBy sortOrder = Normal shown /\
    shown ≡ₚ kept /\
    StronglySorted (in_order sortBy sortOrder) shown /\
    forall k, valued sortBy k shown = valued sortBy k kept.
Proof.
  unfold filteredNews, filteredAndSortedNews. intros -> Hdated. cbn.
  eexists. split; [reflexivity|].
  assert (forall x, x ∈ kept -> is_Some (sort_value sortBy x)) as Hsome.
  { intros x Hx. destruct sortBy; simpl; [|by eexists..].
    specialize (Hdated eq_refl). rewrite Forall_forall in Hdated. by apply Hdated. }
  set (value := fun item : NewsItem => default 0 (sort_value sortBy item)).
  set (rank := fun item : NewsItem =>
         match sortOrder with Asc => value item | Desc => - value item end).
  set (total := fun a b : NewsItem => Some (rank a - rank b)).
  assert (sort_by (comparator sortBy sortOrder) kept = sort_by total kept) as ->.
  { apply sort_by_ext. intros x y Hx Hy.
    destruct (Hsome x Hx) as [vx Hvx], (Hsome y Hy) as [vy Hvy].
    unfold SortCompare, total, rank, value.
    rewrite comparator_value, Hvx, Hvy. destruct sortOrder; simpl; lia. }
  assert (forall a b, total a b = Some (rank a - rank b)) as Hrank by done.
  assert (forall x, x ∈ sort_by total kept -> is_Some (sort_value sortBy x)) as Hsome'.
  { intros x Hx%sort_by_elem. by apply Hsome. }
  split_and!.
  - apply sort_by_perm.
  - pose proof (sort_by_rank_sorted total rank Hrank kept) as Hs.
    eapply StronglySorted_weaken_in; [|exact Hs].
    intros a b [va Ha]%Hsome' [vb Hb]%Hsome'. unfold rank, value, in_order.
    rewrite Ha, Hb. destruct sortOrder; simpl; lia.
  - intros k. unfold valued.
    pose proof (sort_by_rank_stable total rank Hrank
                  (match sortOrder with Asc => k | Desc => - k end) kept) as Hk.
    etrans; [|etrans; [exact Hk|]]; apply filter_iff_in; intros x;
      [intros [v Hv]%Hsome' | intros [v Hv]%Hsome];
      unfold rank, value; rewrite Hv; destruct sortOrder; simpl;
      (split; intros Hv'; [try injection Hv' as ->; try f_equal; lia..]).
Qed.

Lemma filteredAndSortedNews_sorted_witness :
  filteredNews FeedSample.three "" "all" = Normal FeedSample.three /\
  Forall dated FeedSample.three /\
  exists shown,
    filteredAndSortedNews FeedSample.three "all" "" ByDate Asc = Normal shown /\
    shown ≡ₚ FeedSample.three /\
    StronglySorted (in_order ByDate Asc) shown.
Proof.
  assert (filteredNews FeedSample.three "" "all" = Normal FeedSample.three) as Hkept
    by reflexivity.
  assert (Forall dated FeedSample.three) as Hdated by (repeat constructor; by eexists).
  split; [exact Hkept|]. split; [exact Hdated|].
  destruct (filteredAndSortedNews_sorted FeedSample.three "all" "" ByDate Asc
              FeedSample.three Hkept (fun _ => Hdated))
    as (shown & Hrun & Hperm & Hsorted & _).
  by exists shown.
Defined.

(** X24: with the settings the component starts with (filter 'all', no
    query, by date, 'desc') and a feed whose dates are all numbers, the
    list shown is the feed itself, item for item: the feed is already
    newest first and the sort is stable. *)
Theorem default_view_is_the_feed (feed : list NewsItem) :
  feed_snapshot feed -> Forall dated feed ->
  filteredAndSortedNews feed "all" "" ByDate Desc = Normal feed.
Proof.
  intros Hfeed Hdated. unfold filteredAndSortedNews.
  rewrite filter_with_all by (intros x _; by rewrite keeps_without_query). cbn.
  f_equal. apply (sort_by_sorted feed). by apply feed_snapshot_sorted.
Qed.

Lemma default_view_is_the_feed_witness :
  feed_snapshot (setNews [] FeedSample.three) /\
  Forall dated (setNews [] FeedSample.three) /\
  filteredAndSortedNews (setNews [] FeedSample.three) "all" "" ByDate Desc =
    Normal (setNews [] FeedSample.three).
Proof.
  assert (feed_snapshot (setNews [] FeedSample.three)) as Hfeed
    by (apply feed_updated, feed_initial).
  assert (Forall dated (setNews [] FeedSample.three)) as Hdated
    by (repeat constructor; by eexists).
  split; [exact Hfeed|]. split; [exact Hdated|].
  exact (default_view_is_the_feed _ Hfeed Hdated).
Defined.

End NewsFeedFacts.

Section PageFacts.
Import NewsFeed.

Lemma totalPages_div {A} (l : list A) :
  totalPages l = (Z.of_nat (length l) + 7) `div` 8.
Proof.
  unfold totalPages, itemsPerPage, Qceiling, Qfloor, Qdiv, Qmult, Qinv, Qopp, inject_Z.
  simpl. Z.div_mod_to_equations. lia.
Qed.

Lemma currentNews_page {A} currentPage (l : list A) :
  1 <= currentPage ->
  currentNews currentPage l = take 8 (drop (Z.to_nat (8 * (currentPage - 1))) l).
Proof.
  intros Hp. unfold currentNews, itemsPerPage.
  replace ((currentPage - 1) * 8) with (Z.of_nat (Z.to_nat (8 * (currentPage - 1)))) by lia.
  replace (Z.of_nat (Z.to_nat (8 * (currentPage - 1))) + 8)
    with (Z.of_nat (Z.to_nat (8 * (currentPage - 1)) + 8)) by lia.
  rewrite slice_nat. f_equal. lia.
Qed.

(** X25: the pages cut the list into runs of eight.  For a page number
    from 1 on, the page shows the items of index 8(p-1) to 8(p-1)+7, at
    most eight; it shows something exactly when the number is at most
    [totalPages], which is the length divided by 8 and rounded up; so
    every item of the list is on one page, the one its index names. *)
Theorem currentNews_pages (currentPage : Z) (l : list NewsItem) :
  1 <= currentPage ->
  (forall j, (j < 8)%nat ->
     currentNews currentPage l !! j = l !! (Z.to_nat (8 * (currentPage - 1)) + j)%nat) /\
  (length (currentNews currentPage l) <= 8)%nat /\
  (currentNews currentPage l <> [] <-> currentPage <= totalPages l) /\
  totalPages l = (Z.of_nat (length l) + 7) `div` 8 /\
  (forall k item, l !! k = Some item ->
     currentNews (Z.of_nat k `div` 8 + 1) l !! (k `mod` 8)%nat = Some item).
Proof.
  intros Hp. rewrite totalPages_div. split_and!.
  - intros j Hj. rewrite currentNews_page by done.
    by rewrite lookup_take_lt, lookup_drop.
  - rewrite currentNews_page by done. rewrite length_take. lia.
  - rewrite currentNews_page by done.
    set (a := Z.to_nat (8 * (currentPage - 1))).
    assert (take 8 (drop a l) <> [] <-> (a < length l)%nat) as ->.
    { split.
      - intros H. destruct (decide (a < length l)%nat); [done|].
        exfalso. apply H. by rewrite drop_ge by lia.
      - intros H Hnil.
        assert (length (take 8 (drop a l)) = 0%nat) as Hlen by (by rewrite Hnil).
        rewrite length_take, length_drop in Hlen. lia. }
    subst a. Z.div_mod_to_equations. lia.
  - done.
  - intros k item Hk.
    assert (1 <= Z.of_nat k `div` 8 + 1) as Hpage by (Z.div_mod_to_equations; lia).
    rewrite currentNews_page by done.
    rewrite lookup_take_lt by (apply Nat.mod_upper_bound; lia).
    rewrite lookup_drop, <- Hk. f_equal.
    pose proof (Nat.div_mod_eq k 8) as Hdiv.
    assert (Z.of_nat k `div` 8 = Z.of_nat (k / 8)) as -> by (by rewrite Nat2Z.inj_div).
    lia.
Qed.

Lemma currentNews_pages_witness :
  1 <= 2 /\
  currentNews 2 FeedSample.ten !! 0%nat = FeedSample.ten !! 8%nat /\
  currentNews 2 FeedSample.ten <> [] /\
  totalPages FeedSample.ten = 2.
Proof.
  split; [lia|].
  destruct (currentNews_pages 2 FeedSample.ten ltac:(lia))
    as (Hlookup & _ & Hshown & Htotal & _).
  split_and!.
  - apply (Hlookup 0%nat). lia.
  - apply Hshown. rewrite Htotal. by vm_compute.
  - rewrite Htotal. reflexivity.
Defined.

End PageFacts.

(** ** The figures of the analysis page (Analysis.tsx) *)

Section AnalysisFacts.
Import Analysis.

Lemma forEach_throws {S A} (f : S -> A -> completion S) (P : js_error -> Prop) l x :
  (forall s y e, f s y = Throw e -> P e) ->
  (forall s, is_rejected (f s x) = true) ->
  x ∈ l -> forall s, exists e, forEach f l s = Throw e /\ P e.
Proof.
  intros HP Hx. induction l as [|y l IH]; intros Hin s; [by apply elem_of_nil in Hin|].
  simpl. destruct (f s y) as [s'|e] eqn:Hf; cbn.
  - apply elem_of_cons in Hin as [->|Hin].
    + specialize (Hx s). by rewrite Hf in Hx.
    + by apply IH.
  - eauto.
Qed.

Lemma upper_case_not_inherited label :
  JsString.toUpperCase label = label -> label ∉ inherited_names.
Proof.
  intros Hup Hin. unfold inherited_names in Hin.
  repeat (apply elem_of_cons in Hin as [->|Hin]; [discriminate Hup|]).
  by apply elem_of_nil in Hin.
Qed.

Lemma tally_item_standard d item :
  standard_label item ->
  exists d',
    tally_item d item = Normal d' /\
    count (POSITIVE d') =
      count (POSITIVE d) + Z.of_nat (length (labelled "POSITIVE" [item])) /\
    count (NEUTRAL d') =
      count (NEUTRAL d) + Z.of_nat (length (labelled "NEUTRAL" [item])) /\
    count (NEGATIVE d') =
      count (NEGATIVE d) + Z.of_nat (length (labelled "NEGATIVE" [item])).
Proof.
  unfold standard_label, tally_item, labelled.
  intros [H|[H|[H|[H|H]]]]; rewrite H; simpl; eexists; (split; [reflexivity|]);
    rewrite !filter_cons, !filter_nil; rewrite H;
    repeat case_decide; try congruence; simpl; lia.
Qed.

Lemma forEach_tally_standard news :
  Forall standard_label news ->
  forall d, exists d',
    forEach tally_item news d = Normal d' /\
    count (POSITIVE d') = count (POSITIVE d) + Z.of_nat (length (labelled "POSITIVE" news)) /\
    count (NEUTRAL d') = count (NEUTRAL d) + Z.of_nat (length (labelled "NEUTRAL" news)) /\
    count (NEGATIVE d') = count (NEGATIVE d) + Z.of_nat (length (labelled "NEGATIVE" news)).
Proof.
  induction 1 as [|item news Hitem Hnews IH]; intros d; cbn [forEach].
  - exists d. unfold labelled. simpl. split_and!; (done || lia).
  - destruct (tally_item_standard d item Hitem) as (d1 & Hrun & Hp & Hn & Hg).
    destruct (IH d1) as (d' & Hrun' & Hp' & Hn' & Hg').
    exists d'. split; [by rewrite Hrun|].
    assert (forall l, length (labelled l (item :: news)) =
                      (length (labelled l [item]) + length (labelled l news))%nat) as Hsplit.
    { intros l. unfold labelled. by rewrite <- length_app, <- filter_app. }
    rewrite !Hsplit. lia.
Qed.

Lemma ratio_none a b : ratio a b = None <-> b = 0.
Proof. unfold ratio. destruct (Z.eqb_spec b 0); split; (done || lia). Qed.

(** X26: when every label is POSITIVE, NEUTRAL or NEGATIVE (or
    missing, or empty) the sentiment distribution has the three
    entries Positive, Neutral and Negative, in this order, each with
    the number of items that carry its label; together they count no
    more than the news.  The percentages are not numbers exactly when
    there is no news. *)
Theorem sentimentData_counts (news : list NewsItem) :
  Forall standard_label news ->
  exists positive neutral negative,
    sentimentData news = Normal [positive; neutral; negative] /\
    (name positive, name neutral, name negative) = ("Positive", "Neutral", "Negative") /\
    value positive = Z.of_nat (length (labelled "POSITIVE" news)) /\
    value neutral = Z.of_nat (length (labelled "NEUTRAL" news)) /\
    value negative = Z.of_nat (length (labelled "NEGATIVE" news)) /\
    value positive + value neutral + value negative <= Z.of_nat (length news) /\
    Forall (fun entry => percentage entry = None <-> news = [])
           [positive; neutral; negative].
Proof.
  intros Hnews. unfold sentimentData.
  destruct (forEach_tally_standard news Hnews
              (mkDistribution (mkTally 0 0 0) (mkTally 0 0 0) (mkTally 0 0 0)))
    as (d & -> & Hp & Hn & Hg). cbn.
  simpl in Hp, Hn, Hg.
  eexists _, _, _. split; [reflexivity|]. split; [reflexivity|].
  split; [exact Hp|]. split; [exact Hn|]. split; [exact Hg|]. split.
  - simpl. rewrite Hp, Hn, Hg. clear. unfold labelled.
    induction news as [|item news IH]; [done|].
    rewrite !filter_cons. repeat case_decide; simpl; try lia; congruence.
  - assert (forall a, (fun q => q * inject_Z 100)%Q <$> ratio a (Z.of_nat (length news)) = None
                      <-> news = []) as Hnan.
    { intros a. rewrite fmap_None, ratio_none. destruct news; simpl; split; (done || lia). }
    repeat constructor; apply Hnan.
Qed.

Lemma sentimentData_counts_witness :
  Forall standard_label
    [Sample.scored 1 300 "POSITIVE"; Sample.scored 2 200 "NEUTRAL";
     Sample.scored 3 100 "POSITIVE"] /\
  exists positive neutral negative,
    sentimentData [Sample.scored 1 300 "POSITIVE"; Sample.scored 2 200 "NEUTRAL";
                   Sample.scored 3 100 "POSITIVE"] = Normal [positive; neutral; negative] /\
    (value positive, value neutral, value negative) = (2, 1, 0).
Proof.
  assert (Forall standard_label
            [Sample.scored 1 300 "POSITIVE"; Sample.scored 2 200 "NEUTRAL";
             Sample.scored 3 100 "POSITIVE"]) as Hnews
    by (repeat constructor; unfold standard_label; simpl; tauto).
  split; [exact Hnews|].
  destruct (sentimentData_counts _ Hnews)
    as (positive & neutral & negative & Hrun & _ & Hp & Hn & Hg & _).
  exists positive, neutral, negative. split; [exact Hrun|].
  by rewrite Hp, Hn, Hg.
Defined.

(** X27: one label that is none of the three breaks the page.  When
    some item carries a label that is not empty, is in upper case (as
    every label of [analyzeSentiment] is) and is not POSITIVE, NEUTRAL
    or NEGATIVE, the sentiment distribution throws a TypeError, wherever
    the item stands in the news. *)
Theorem sentimentData_throws_on_other_label (news : list NewsItem) (item : NewsItem)
    (label : string) :
  item ∈ news -> sentiment item = Some label ->
  label <> "" -> JsString.toUpperCase label = label ->
  label <> "POSITIVE" -> label <> "NEUTRAL" -> label <> "NEGATIVE" ->
  exists e, sentimentData news = Throw e /\ err_name e = "TypeError".
Proof.
  intros Hin Hlabel Hne Hup Hp Hn Hg. unfold sentimentData.
  destruct (forEach_throws tally_item (fun e => err_name e = "TypeError") news item)
    with (s := mkDistribution (mkTally 0 0 0) (mkTally 0 0 0) (mkTally 0 0 0))
    as (e & -> & He); [| | exact Hin | by exists e].
  - intros d y e. unfold tally_item.
    destruct (sentiment y) as [l|]; [|discriminate].
    repeat (case_match; try discriminate). by intros [= <-].
  - intros d. unfold tally_item. rewrite Hlabel.
    apply String.eqb_neq in Hne, Hp, Hn, Hg. rewrite Hne, Hp, Hn, Hg.
    rewrite bool_decide_eq_false_2; [done|]. by apply upper_case_not_inherited.
Qed.


Lemma sentimentData_throws_on_other_label_witness :
  enrich (FeedSample.raw 1) (Normal (mkSentiment "BULLISH")) FeedSample.even_draws =
    Normal (with_scores (FeedSample.raw 1) "BULLISH" 90 High) /\
  exists e,
    sentimentData [Sample.scored 2 300 "POSITIVE";
                   with_scores (FeedSample.raw 1) "BULLISH" 90 High] = Throw e /\
    err_name e = "TypeError".
Proof.
  split; [reflexivity|].
  apply (sentimentData_throws_on_other_label _
           (with_scores (FeedSample.raw 1) "BULLISH" 90 High) "BULLISH");
    [apply list_elem_of_further, list_elem_of_here | reflexivity | discriminate
    | reflexivity | discriminate..].
Defined.

End AnalysisFacts.

Section TrendFacts.
Import Analysis.

Lemma published_within_split news a b c :
  a <= b <= c ->
  length (published_within a c news) =
  (length (published_within a b news) + length (published_within b c news))%nat.
Proof.
  intros Habc. unfold published_within.
  induction news as [|item news IH]; [done|].
  rewrite !filter_cons. destruct (published_on item) as [t|]; simpl in *;
    repeat case_decide; simpl; lia.
Qed.

Lemma published_within_empty news a : published_within a a news = [].
Proof.
  unfold published_within. induction news as [|item news IH]; [done|].
  rewrite filter_cons. destruct (published_on item) as [t|]; simpl;
    try case_decide; (done || lia).
Qed.

Lemma foldr_add_app l k :
  foldr Z.add 0 (l ++ k) = foldr Z.add 0 l + foldr Z.add 0 k.
Proof. induction l as [|y l IH]; simpl; lia. Qed.

Lemma sum_periods news a w n :
  0 <= w ->
  foldr Z.add 0
    ((fun i => Z.of_nat (length (published_within (a + i * w) (a + i * w + w) news)))
       <$> (Z.of_nat <$> seq 0 n)) =
  Z.of_nat (length (published_within a (a + Z.of_nat n * w) news)).
Proof.
  intros Hw. induction n as [|n IH].
  - change (Z.of_nat 0) with 0. by rewrite Z.mul_0_l, Z.add_0_r, published_within_empty.
  - rewrite seq_S, !fmap_app, foldr_add_app, IH. simpl foldr.
    rewrite (published_within_split news a (a + Z.of_nat n * w) (a + Z.of_nat (S n) * w))
      by nia.
    replace (a + Z.of_nat (S n) * w) with (a + Z.of_nat n * w + w) by lia. lia.
Qed.

Lemma timeframes_multiple selectedTimeframe timeframe :
  timeframes selectedTimeframe = Some timeframe ->
  timeframe = 8 * (timeframe `div` 8) /\ 0 < timeframe.
Proof.
  unfold timeframes. repeat case_match; intros [= <-]; by vm_compute.
Qed.

Lemma reliability_sum_nonneg l :
  Forall (fun item => 0 <= default 0 (reliability item)) l ->
  forall acc, 0 <= acc -> 0 <= foldl (fun acc item => acc + default 0 (reliability item)) acc l.
Proof.
  induction 1 as [|item l Hitem Hl IH]; intros acc Hacc; simpl; [done|].
  apply IH. lia.
Qed.

Lemma unit_fraction a b :
  0 <= a <= b -> 0 < b -> (0 <= inject_Z a / inject_Z b /\ inject_Z a / inject_Z b <= 1)%Q.
Proof.
  intros Hab Hb.
  assert (0 < inject_Z b)%Q as Hb' by (change 0%Q with (inject_Z 0); by rewrite <- Zlt_Qlt).
  split.
  - apply Qle_shift_div_l; [done|]. rewrite Qmult_0_l.
    change 0%Q with (inject_Z 0). rewrite <- Zle_Qle. lia.
  - apply Qle_shift_div_r; [done|]. rewrite Qmult_1_l. rewrite <- Zle_Qle. lia.
Qed.

Lemma point_for_bounds m l :
  Forall (fun item => 0 <= default 0 (reliability item)) l ->
  (0 <= lowerBound (point_for m l) /\
   lowerBound (point_for m l) <= share (point_for m l) /\
   share (point_for m l) <= upperBound (point_for m l) /\
   upperBound (point_for m l) <= inject_Z 100)%Q.
Proof.
  intros Hl. unfold point_for. cbn [lowerBound share upperBound].
  set (positive := Z.of_nat (length (filter _ l))).
  set (total := if Z.of_nat (length l) =? 0 then 1 else Z.of_nat (length l)).
  set (sum := foldl _ 0 l).
  assert (0 <= positive <= total /\ 0 < total) as [Hpos Htotal].
  { subst positive total. pose proof (length_filter (fun item => sentiment item = Some "POSITIVE") l).
    destruct (Z.eqb_spec (Z.of_nat (length l)) 0); lia. }
  assert (0 <= sum) as Hsum by (by apply reliability_sum_nonneg).
  destruct (unit_fraction positive total Hpos Htotal) as [Hs0 Hs1].
  assert (0 <= inject_Z sum / inject_Z total)%Q as Hc.
  { apply Qle_shift_div_l.
    - change 0%Q with (inject_Z 0). by rewrite <- Zlt_Qlt.
    - rewrite Qmult_0_l. change 0%Q with (inject_Z 0). by rewrite <- Zle_Qle. }
  set (s := (inject_Z positive / inject_Z total)%Q) in *.
  set (c := (inject_Z sum / inject_Z total)%Q) in *.
  assert (0 <= Qmin (c / inject_Z 100 * inject_Z 20) (inject_Z 15))%Q as Hconf.
  { apply Q.min_glb; [|done]. unfold Qdiv. change (/ inject_Z 100)%Q with (1 # 100)%Q.
    change (inject_Z 20) with (20 # 1)%Q. nra. }
  set (conf := Qmin (c / inject_Z 100 * inject_Z 20) (inject_Z 15)) in *.
  change (inject_Z 100) with (100 # 1)%Q.
  split_and!.
  - apply Q.le_max_r.
  - apply Q.max_lub; nra.
  - apply Q.min_glb; nra.
  - apply Q.le_min_r.
Qed.

(** X28: the trend has eight points, one per eighth of the timeframe
    that ends at the current second.  Each point counts the items
    published in its eighth (from its start on, before its end), so the
    volumes add up to the number of items published within the
    timeframe, each counted once; an item published at the current
    second or later is in none.  When no reliability is negative the
    band of every point lies around its share and within the chart:
    0 <= lowerBound <= sentiment <= upperBound <= 100. *)
Theorem sentimentTrendData_periods (news : list NewsItem) (now : Z)
    (selectedTimeframe : string) (timeframe : Z) :
  timeframes selectedTimeframe = Some timeframe ->
  Forall (fun item => 0 <= default 0 (reliability item)) news ->
  let currentTime := now `div` 1000 in
  let interval := timeframe `div` 8 in
  let points := sentimentTrendData news now selectedTimeframe in
  length points = 8%nat /\
  (forall i point, points !! i = Some point ->
     volume point =
     Z.of_nat (length (published_within
                         (currentTime - timeframe + Z.of_nat i * interval)
                         (currentTime - timeframe + Z.of_nat i * interval + interval)
                         news))) /\
  foldr Z.add 0 (volume <$> points) =
    Z.of_nat (length (published_within (currentTime - timeframe) currentTime news)) /\
  Forall (fun point =>
            (0 <= lowerBound point /\ lowerBound point <= share point /\
             share point <= upperBound point /\ upperBound point <= inject_Z 100)%Q)
         points.
Proof.
  intros Htable Hnews. cbn zeta. unfold sentimentTrendData. rewrite Htable.
  destruct (timeframes_multiple _ _ Htable) as [Hmultiple Hpositive].
  split_and!.
  - reflexivity.
  - intros i point Hi.
    do 8 (destruct i as [|i]; [injection Hi as <-; reflexivity|]).
    discriminate.
  - pose proof (sum_periods news (now `div` 1000 - timeframe) (timeframe `div` 8) 8
                  ltac:(lia)) as Hsum.
    replace (now `div` 1000 - timeframe + Z.of_nat 8 * (timeframe `div` 8))
      with (now `div` 1000) in Hsum by lia.
    rewrite <- Hsum. reflexivity.
  - repeat constructor; unfold period; apply point_for_bounds;
      (eapply Forall_forall; intros item Hitem%list_elem_of_filter;
       rewrite Forall_forall in Hnews; apply Hnews; tauto).
Qed.

Lemma sentimentTrendData_periods_witness :
  timeframes "1h" = Some 3600 /\
  Forall (fun item => 0 <= default 0 (reliability item))
         [Sample.scored 1 1699999000 "POSITIVE"; Sample.scored 2 1699999100 "NEGATIVE";
          Sample.scored 3 1700000000 "POSITIVE"] /\
  foldr Z.add 0
    (volume <$> sentimentTrendData
       [Sample.scored 1 1699999000 "POSITIVE"; Sample.scored 2 1699999100 "NEGATIVE";
        Sample.scored 3 1700000000 "POSITIVE"] 1700000000000 "1h") = 2.
Proof.
  assert (Forall (fun item => 0 <= default 0 (reliability item))
            [Sample.scored 1 1699999000 "POSITIVE"; Sample.scored 2 1699999100 "NEGATIVE";
             Sample.scored 3 1700000000 "POSITIVE"]) as Hnews
    by (repeat constructor; simpl; lia).
  split; [reflexivity|]. split; [exact Hnews|].
  destruct (sentimentTrendData_periods _ 1700000000000 "1h" 3600 eq_refl Hnews)
    as (_ & _ & Hsum & _).
  rewrite Hsum. reflexivity.
Defined.

End TrendFacts.

(** ** The CryptoPanic adapter *)

Section AdapterFacts.

(** X29: the CryptoPanic adapter is all or nothing.  From an answer
    whose entries can all be read it returns one item per entry, in
    order: the title as sent, the date in whole seconds (no number
    when [published_at] is missing or does not parse), the id as
    sent when it is truthy and a synthesised one otherwise, always a
    body (the empty string when there is no description), a source
    that starts with 'CryptoPanic - ', no reliability and no impact.
    One entry that cannot be read (null, or without [source]) and the
    adapter returns the empty list: the readable entries are lost with
    it. *)
Theorem fetchCryptoPanicNews_all_or_nothing (r : response (news_payload cp_raw))
    (entries : list (option cp_raw)) (fresh : nat -> string) :
  ok r = true -> json r = Normal (Items entries) ->
  (Forall cp_readable entries ->
   exists items,
     fetchCryptoPanicNews (Normal r) fresh = Normal items /\
     length items = length entries /\
     (forall i raw, entries !! i = Some (Some raw) ->
        exists item, items !! i = Some item /\
          title item = cp_title raw /\
          published_on item = (fun ms => ms `div` 1000) <$> cp_published_at raw /\
          id item = (if truthy (cp_id raw) then cp_id raw else JsStr (fresh i))) /\
     Forall (fun item =>
               is_Some (body item) /\
               JsString.startsWith "CryptoPanic - " (source item) = true /\
               reliability item = None /\ impact item = None) items) /\
  (Exists (fun entry => ~ cp_readable entry) entries ->
   fetchCryptoPanicNews (Normal r) fresh = Normal []).
Proof.
  intros Hok Hjson. unfold fetchCryptoPanicNews, validateResponse, try_catch.
  cbn. rewrite Hok. cbn. rewrite Hjson. cbn. split.
  - intros Hall.
    destruct (mapM_cp_readable fresh 0 entries Hall) as (items & -> & Hlen & Hlookup).
    exists items. split_and!; [done | done | |].
    + intros i raw Hi. destruct (Hlookup i (Some raw) Hi) as (item & Hitem & Hnorm).
      exists item. split; [done|].
      rewrite Forall_forall in Hall.
      destruct (normalizeCryptoPanic_readable (fresh i) (Some raw)
                  (Hall _ (list_elem_of_lookup_2 _ _ _ Hi)))
        as (raw' & item' & [= <-] & Hnorm' & Hfields & _).
      change (0 + i)%nat with i in Hnorm.
      assert (item' = item) as -> by congruence.
      destruct Hfields as (Hid & Ht & _ & _ & Hp & _). done.
    + apply Forall_forall. intros item Hitem.
      apply list_elem_of_lookup in Hitem as [i Hi].
      assert (is_Some (entries !! i)) as [entry Hentry].
      { apply lookup_lt_is_Some. rewrite <- Hlen. by eapply lookup_lt_Some. }
      destruct (Hlookup i entry Hentry) as (item' & Hi' & Hnorm).
      rewrite Hi in Hi'. injection Hi' as <-.
      rewrite Forall_forall in Hall.
      destruct (normalizeCryptoPanic_readable (fresh (0 + i)%nat) entry
                  (Hall _ (list_elem_of_lookup_2 _ _ _ Hentry)))
        as (raw & item' & _ & Hnorm' & _ & Hrest).
      assert (item' = item) as -> by congruence. done.
  - intros Hbad. apply (mapM_cp_unreadable fresh 0) in Hbad.
    by destruct (mapM _ _).
Qed.

Lemma fetchCryptoPanicNews_all_or_nothing_witness :
  let r := mkResponse 200
             (Normal (Items [Some (Sample.cp_item 1 1700000001999); None])) in
  ok r = true /\
  fetchCryptoPanicNews (Normal r) Sample.no_fresh = Normal [] /\
  exists items,
    fetchCryptoPanicNews (Sample.answers [Sample.cp_item 1 1700000001999])
      Sample.no_fresh = Normal items /\
    published_on <$> items = [Some 1700000001].
Proof.
  intros r. split; [reflexivity|]. split.
  - apply (proj2 (fetchCryptoPanicNews_all_or_nothing r
                    [Some (Sample.cp_item 1 1700000001999); None] Sample.no_fresh
                    eq_refl eq_refl)).
    apply Exists_cons_tl, Exists_cons_hd. by intros (raw & ? & _).
  - destruct (proj1 (fetchCryptoPanicNews_all_or_nothing
                       (mkResponse 200 (Normal (Items [Some (Sample.cp_item 1 1700000001999)])))
                       [Some (Sample.cp_item 1 1700000001999)] Sample.no_fresh
                       eq_refl eq_refl))
      as (items & Hrun & Hlen & Hlookup & _).
    { repeat constructor. eexists. split; [reflexivity | by eexists]. }
    exists items. split; [exact Hrun|].
    destruct (Hlookup 0%nat _ eq_refl) as (item & Hitem & _ & Hpublished & _).
    destruct items as [|x [|y items]]; try discriminate.
    injection Hitem as ->. simpl. by rewrite Hpublished.
Defined.

End AdapterFacts.
